(** * UMKM tracker: schema, row-level security and dashboard write paths

    A shallow embedding of the migration (tables, defaults, CHECK
    constraints, row-level-security policies, the [updated_at] trigger) and
    of the statements the React dashboards send to it, followed by the
    properties of the call lifecycle, the authorization policies and the
    availability gate, and by the distance the customer's dashboard
    computes in double precision. *)

From Stdlib Require Import ZArith List String Bool Lia Sorted Permutation
  SpecFloat.
Import ListNotations.
Local Open Scope Z_scope.
Local Open Scope string_scope.

(* ================================================================== *)
(** * The migration: tables, constraints, policies                     *)
(* ================================================================== *)

Module Schema.

(** Column types.  A [uuid] is the string the client library hands around;
    a [timestamptz] is an instant in microseconds, a [date] a day number; a
    [decimal(p, 8)] column holds its value scaled by [10^8]. *)
Definition uuid := string.
Definition timestamptz := Z.
Definition date := Z.
Definition decimal8 := Z.

(** What an INSERT payload or an UPDATE [SET] list says about one column:
    the column is left out, set to NULL, or given a value. *)
Inductive col (A : Type) : Type :=
| Omitted
| Null
| Val (a : A).
Arguments Omitted {A}.
Arguments Null {A}.
Arguments Val {A} a.

(** [DEFAULT d]: an omitted column takes the default. *)
Definition with_default {A} (d : option A) (c : col A) : option A :=
  match c with
  | Omitted => d
  | Null => None
  | Val a => Some a
  end.

(** [SET column = ...]: an omitted column keeps the stored value. *)
Definition assign {A} (c : col A) (old : option A) : option A :=
  with_default old c.

Inductive db_error : Type :=
| RlsViolation
| NotNullViolation
| CheckViolation
| UniqueViolation
| ForeignKeyViolation
| NumericOverflow.

Inductive result (A : Type) : Type :=
| Ok (a : A)
| Err (e : db_error).
Arguments Ok {A} a.
Arguments Err {A} e.

Definition bind {A B} (r : result A) (k : A -> result B) : result B :=
  match r with
  | Ok a => k a
  | Err e => Err e
  end.

Notation "x <- r ;; k" := (bind r (fun x => k))
  (at level 61, r at next level, right associativity).
Notation "' p <- r ;; k" := (bind r (fun p => k))
  (at level 61, p pattern, r at next level, right associativity).

Definition guard (b : bool) (e : db_error) : result unit :=
  if b then Ok tt else Err e.

(** A policy expression over a NULL column is not true. *)
Definition holds_on {A} (f : A -> bool) (o : option A) : bool :=
  match o with
  | Some a => f a
  | None => false
  end.

(** NOT NULL *)
Definition not_null {A} (o : option A) : result A :=
  match o with
  | Some a => Ok a
  | None => Err NotNullViolation
  end.

(** ** Rows *)

Record profile : Type := {
  p_id : uuid;
  full_name : string;
  phone : option string;
  user_type : string;
  p_created_at : option timestamptz;
  p_updated_at : option timestamptz
}.

Record vendor : Type := {
  v_id : uuid;
  user_id : uuid;
  business_name : string;
  business_type : string;
  description : option string;
  is_active : option bool;
  current_latitude : option decimal8;
  current_longitude : option decimal8;
  last_location_update : option timestamptz;
  v_created_at : option timestamptz;
  v_updated_at : option timestamptz
}.

Record subscription : Type := {
  s_id : uuid;
  s_vendor_id : uuid;
  start_date : date;
  end_date : date;
  amount : option Z;
  s_status : string;
  payment_date : option timestamptz;
  s_created_at : option timestamptz
}.

Record customer_call : Type := {
  c_id : uuid;
  customer_id : uuid;
  c_vendor_id : uuid;
  customer_latitude : decimal8;
  customer_longitude : decimal8;
  c_status : string;
  c_created_at : option timestamptz;
  acknowledged_at : option timestamptz;
  completed_at : option timestamptz
}.

Record DB : Type := {
  profiles : list profile;
  vendors : list vendor;
  subscriptions : list subscription;
  customer_calls : list customer_call
}.

Definition empty_db : DB :=
  {| profiles := []; vendors := []; subscriptions := []; customer_calls := [] |}.

(** ** CHECK constraints and column ranges *)

(** [CHECK (user_type IN ('vendor', 'customer'))] *)
Definition user_type_check (s : string) : bool :=
  (s =? "vendor") || (s =? "customer").

(** [CHECK (status IN ('active', 'expired', 'pending'))] *)
Definition subscription_status_check (s : string) : bool :=
  (s =? "active") || (s =? "expired") || (s =? "pending").

(** [CHECK (status IN ('pending', 'acknowledged', 'completed'))] *)
Definition call_status_check (s : string) : bool :=
  (s =? "pending") || (s =? "acknowledged") || (s =? "completed").

(** [decimal(10, 8)]: two digits before the point. *)
Definition fits_decimal_10_8 (x : decimal8) : bool :=
  (Z.abs x <? 100 * 10 ^ 8)%Z.

(** [decimal(11, 8)]: three digits before the point. *)
Definition fits_decimal_11_8 (x : decimal8) : bool :=
  (Z.abs x <? 1000 * 10 ^ 8)%Z.

(** [integer] *)
Definition fits_integer (x : Z) : bool :=
  ((- 2 ^ 31 <=? x) && (x <? 2 ^ 31))%Z.

Definition fits (f : Z -> bool) (c : col Z) : bool :=
  match c with
  | Val x => f x
  | _ => true
  end.

(** ** Row-level security

    Every policy is declared [TO authenticated]: a session without a user
    matches no policy.  [auth.uid()] is the session's user. *)

Definition session := option uuid.

Definition authenticated (s : session) : bool :=
  match s with
  | Some _ => true
  | None => false
  end.

(** [auth.uid() = x] *)
Definition uid_is (s : session) (x : uuid) : bool :=
  match s with
  | Some u => (u =? x)
  | None => false
  end.

(** "Users can view all profiles": [USING (true)] *)
Definition profiles_select (s : session) (r : profile) : bool :=
  authenticated s.

(** "Users can update own profile": [USING (auth.uid() = id)] *)
Definition profiles_update_using (s : session) (r : profile) : bool :=
  uid_is s (p_id r).

(** ... [WITH CHECK (auth.uid() = id)] *)
Definition profiles_update_check (s : session) (r : profile) : bool :=
  uid_is s (p_id r).

(** "Users can insert own profile": [WITH CHECK (auth.uid() = id)], on
    the [id] of the proposed row. *)
Definition profiles_insert_check (s : session) (id : uuid) : bool :=
  uid_is s id.

(** "Anyone can view active vendors": [USING (true)] *)
Definition vendors_select (s : session) (r : vendor) : bool :=
  authenticated s.

(** "Vendors can update own data" *)
Definition vendors_update_using (s : session) (r : vendor) : bool :=
  uid_is s (user_id r).

Definition vendors_update_check (s : session) (r : vendor) : bool :=
  uid_is s (user_id r).

(** "Vendors can insert own data", on the [user_id] of the proposed row. *)
Definition vendors_insert_check (s : session) (user_id : uuid) : bool :=
  uid_is s user_id.

(** [SELECT id FROM vendors WHERE user_id = auth.uid()], read through the
    vendors SELECT policy like any other query of the session. *)
Definition own_vendor_ids (db : DB) (s : session) : list uuid :=
  map v_id
    (filter (fun v => vendors_select s v && uid_is s (user_id v)) (vendors db)).

(** [vendor_id IN (SELECT id FROM vendors WHERE user_id = auth.uid())] *)
Definition in_own_vendors (db : DB) (s : session) (vendor_id : uuid) : bool :=
  existsb (fun i => vendor_id =? i) (own_vendor_ids db s).

(** "Vendors can view / insert / update own subscriptions" *)
Definition subscriptions_select (db : DB) (s : session) (r : subscription) : bool :=
  in_own_vendors db s (s_vendor_id r).

Definition subscriptions_insert_check (db : DB) (s : session) (vendor_id : uuid) : bool :=
  in_own_vendors db s vendor_id.

Definition subscriptions_update_using (db : DB) (s : session) (r : subscription) : bool :=
  in_own_vendors db s (s_vendor_id r).

Definition subscriptions_update_check (db : DB) (s : session) (r : subscription) : bool :=
  in_own_vendors db s (s_vendor_id r).

(** "Customers can view own calls" and "Vendors can view calls to them":
    permissive policies for one command are OR-ed. *)
Definition customer_calls_select (db : DB) (s : session) (r : customer_call) : bool :=
  uid_is s (customer_id r) || in_own_vendors db s (c_vendor_id r).

(** "Customers can create calls": [WITH CHECK (customer_id = auth.uid())] *)
Definition customer_calls_insert_check (s : session) (customer_id : uuid) : bool :=
  uid_is s customer_id.

(** "Vendors can update calls to them" *)
Definition customer_calls_update_using (db : DB) (s : session) (r : customer_call) : bool :=
  in_own_vendors db s (c_vendor_id r).

Definition customer_calls_update_check (db : DB) (s : session) (r : customer_call) : bool :=
  in_own_vendors db s (c_vendor_id r).

(** ** Policies an UPDATE goes through

    An UPDATE whose WHERE clause reads columns of its table needs read
    access to the rows as well: the SELECT policy is applied to the
    existing and to the new row, next to the UPDATE policy's USING on the
    existing and WITH CHECK on the new one. *)
Definition profiles_update_reach (s : session) (r : profile) : bool :=
  profiles_select s r && profiles_update_using s r.

Definition profiles_update_pass (s : session) (r : profile) : bool :=
  profiles_select s r && profiles_update_check s r.

Definition vendors_update_reach (s : session) (r : vendor) : bool :=
  vendors_select s r && vendors_update_using s r.

Definition vendors_update_pass (s : session) (r : vendor) : bool :=
  vendors_select s r && vendors_update_check s r.

Definition customer_calls_update_reach (db : DB) (s : session)
    (r : customer_call) : bool :=
  customer_calls_select db s r && customer_calls_update_using db s r.

Definition customer_calls_update_pass (db : DB) (s : session)
    (r : customer_call) : bool :=
  customer_calls_select db s r && customer_calls_update_check db s r.

(** ** Statements

    One UPDATE statement over a table: the rows that satisfy the WHERE
    clause and the policy's USING expression are replaced by [set row]; the
    rows the policy hides are skipped without an error; a new row that fails
    the policy's WITH CHECK expression or a constraint aborts the whole
    statement.  The result carries the number of rows changed. *)
Section Update.
Context {Row : Type}.
Variable policy_using : Row -> bool.
Variable with_check : Row -> bool.
Variable constraints : Row -> result unit.
Variable where_ : Row -> bool.
Variable set : Row -> Row.

Fixpoint update_rows (tbl : list Row) : result (list Row * nat) :=
  match tbl with
  | [] => Ok ([], 0%nat)
  | r :: rest =>
      if where_ r && policy_using r then
        let r' := set r in
        _ <- guard (with_check r') RlsViolation ;;
        _ <- constraints r' ;;
        '(rest', n) <- update_rows rest ;;
        Ok (r' :: rest', S n)
      else
        '(rest', n) <- update_rows rest ;;
        Ok (r :: rest', n)
  end.

(** What an accepted UPDATE leaves in the table, and how many rows it
    reports. *)
Definition rewritten (tbl : list Row) : list Row :=
  map (fun r => if where_ r && policy_using r then set r else r) tbl.

Definition hit (tbl : list Row) : nat :=
  List.length (filter (fun r => where_ r && policy_using r) tbl).

End Update.

(** A SELECT: the rows the policy shows and the WHERE clause keeps. *)
Definition select_rows {Row} (policy_using where_ : Row -> bool) (tbl : list Row) : list Row :=
  filter (fun r => where_ r && policy_using r) tbl.

(** [ORDER BY key DESC]; NULLs sort first in descending order. *)
Definition desc_before (a b : option Z) : bool :=
  match a, b with
  | None, _ => true
  | Some _, None => false
  | Some x, Some y => (y <=? x)%Z
  end.

Fixpoint insert_desc {Row} (key : Row -> option Z) (r : Row) (l : list Row) : list Row :=
  match l with
  | [] => [r]
  | x :: rest =>
      if desc_before (key r) (key x) then r :: l
      else x :: insert_desc key r rest
  end.

Definition order_desc {Row} (key : Row -> option Z) (l : list Row) : list Row :=
  fold_right (insert_desc key) [] l.

(** [.maybeSingle()]: no row is null, one row is that row, more is an error
    whose data is null as well. *)
Definition maybeSingle {Row} (l : list Row) : option Row :=
  match l with
  | [r] => Some r
  | _ => None
  end.

(** [.limit(n)] *)
Definition limit {Row} (n : nat) (l : list Row) : list Row := firstn n l.

(** The BEFORE UPDATE trigger [update_updated_at_column] on profiles and
    vendors: [NEW.updated_at = now()]. *)
Definition profile_touch (now : timestamptz) (r : profile) : profile :=
  {| p_id := p_id r; full_name := full_name r; phone := phone r;
     user_type := user_type r; p_created_at := p_created_at r;
     p_updated_at := Some now |}.

Definition vendor_touch (now : timestamptz) (r : vendor) : vendor :=
  {| v_id := v_id r; user_id := user_id r; business_name := business_name r;
     business_type := business_type r; description := description r;
     is_active := is_active r; current_latitude := current_latitude r;
     current_longitude := current_longitude r;
     last_location_update := last_location_update r;
     v_created_at := v_created_at r; v_updated_at := Some now |}.

Definition with_profiles (db : DB) (t : list profile) : DB :=
  {| profiles := t; vendors := vendors db;
     subscriptions := subscriptions db; customer_calls := customer_calls db |}.

Definition with_vendors (db : DB) (t : list vendor) : DB :=
  {| profiles := profiles db; vendors := t;
     subscriptions := subscriptions db; customer_calls := customer_calls db |}.

Definition with_subscriptions (db : DB) (t : list subscription) : DB :=
  {| profiles := profiles db; vendors := vendors db;
     subscriptions := t; customer_calls := customer_calls db |}.

Definition with_customer_calls (db : DB) (t : list customer_call) : DB :=
  {| profiles := profiles db; vendors := vendors db;
     subscriptions := subscriptions db; customer_calls := t |}.

Definition is_null {A} (c : col A) : bool :=
  match c with
  | Null => true
  | _ => false
  end.

(** A NOT NULL column under SET: an omitted column keeps the stored value. *)
Definition assign_nn {A} (c : col A) (old : A) : A :=
  match c with
  | Val a => a
  | _ => old
  end.

Definition mem (i : uuid) (l : list uuid) : bool :=
  existsb (fun j => i =? j) l.

(** ** UPDATE profiles

    The SET list ranges over the data columns; the key is not reassigned. *)
Record profile_patch : Type := {
  set_full_name : col string;
  set_phone : col string;
  set_user_type : col string
}.

Definition profile_apply (p : profile_patch) (r : profile) : profile :=
  {| p_id := p_id r;
     full_name := assign_nn (set_full_name p) (full_name r);
     phone := assign (set_phone p) (phone r);
     user_type := assign_nn (set_user_type p) (user_type r);
     p_created_at := p_created_at r;
     p_updated_at := p_updated_at r |}.

Definition profile_constraints (p : profile_patch) (r : profile) : result unit :=
  _ <- guard (negb (is_null (set_full_name p) || is_null (set_user_type p)))
         NotNullViolation ;;
  guard (user_type_check (user_type r)) CheckViolation.

Definition update_profiles (db : DB) (s : session) (now : timestamptz)
    (where_ : profile -> bool) (p : profile_patch) : result (DB * nat) :=
  '(t, n) <- update_rows (profiles_update_reach s) (profiles_update_pass s)
               (profile_constraints p) where_
               (fun r => profile_touch now (profile_apply p r)) (profiles db) ;;
  Ok (with_profiles db t, n).

Definition select_profiles (db : DB) (s : session) (where_ : profile -> bool)
    : list profile :=
  select_rows (profiles_select s) where_ (profiles db).

(** ** UPDATE vendors

    The SET list ranges over the columns the dashboards write. *)
Record vendor_patch : Type := {
  set_is_active : col bool;
  set_current_latitude : col decimal8;
  set_current_longitude : col decimal8;
  set_last_location_update : col timestamptz
}.

Definition vendor_apply (p : vendor_patch) (r : vendor) : vendor :=
  {| v_id := v_id r; user_id := user_id r;
     business_name := business_name r; business_type := business_type r;
     description := description r;
     is_active := assign (set_is_active p) (is_active r);
     current_latitude := assign (set_current_latitude p) (current_latitude r);
     current_longitude := assign (set_current_longitude p) (current_longitude r);
     last_location_update :=
       assign (set_last_location_update p) (last_location_update r);
     v_created_at := v_created_at r; v_updated_at := v_updated_at r |}.

Definition update_vendors (db : DB) (s : session) (now : timestamptz)
    (where_ : vendor -> bool) (p : vendor_patch) : result (DB * nat) :=
  _ <- guard (fits fits_decimal_10_8 (set_current_latitude p)
              && fits fits_decimal_11_8 (set_current_longitude p))
         NumericOverflow ;;
  '(t, n) <- update_rows (vendors_update_reach s) (vendors_update_pass s)
               (fun _ => Ok tt) where_
               (fun r => vendor_touch now (vendor_apply p r)) (vendors db) ;;
  Ok (with_vendors db t, n).

Definition select_vendors (db : DB) (s : session) (where_ : vendor -> bool)
    : list vendor :=
  select_rows (vendors_select s) where_ (vendors db).

(** ** INSERT INTO vendors *)
Record vendor_insert : Type := {
  vi_id : col uuid;
  vi_user_id : col uuid;
  vi_business_name : col string;
  vi_business_type : col string;
  vi_description : col string;
  vi_is_active : col bool;
  vi_current_latitude : col decimal8;
  vi_current_longitude : col decimal8;
  vi_last_location_update : col timestamptz;
  vi_created_at : col timestamptz;
  vi_updated_at : col timestamptz
}.

(** [fresh] is the value of [gen_random_uuid()], [now] that of [now()]. *)
Definition insert_vendor (db : DB) (s : session) (fresh : uuid)
    (now : timestamptz) (p : vendor_insert) : result DB :=
  _ <- guard (fits fits_decimal_10_8 (vi_current_latitude p)
              && fits fits_decimal_11_8 (vi_current_longitude p))
         NumericOverflow ;;
  let owner := with_default None (vi_user_id p) in
  _ <- guard (holds_on (vendors_insert_check s) owner) RlsViolation ;;
  id <- not_null (with_default (Some fresh) (vi_id p)) ;;
  owner <- not_null owner ;;
  name <- not_null (with_default None (vi_business_name p)) ;;
  type <- not_null (with_default None (vi_business_type p)) ;;
  _ <- guard (negb (mem id (map v_id (vendors db)))) UniqueViolation ;;
  _ <- guard (negb (mem owner (map user_id (vendors db)))) UniqueViolation ;;
  _ <- guard (mem owner (map p_id (profiles db))) ForeignKeyViolation ;;
  Ok (with_vendors db (vendors db ++ [
    {| v_id := id; user_id := owner; business_name := name;
       business_type := type;
       description := with_default (Some EmptyString) (vi_description p);
       is_active := with_default (Some false) (vi_is_active p);
       current_latitude := with_default None (vi_current_latitude p);
       current_longitude := with_default None (vi_current_longitude p);
       last_location_update := with_default None (vi_last_location_update p);
       v_created_at := with_default (Some now) (vi_created_at p);
       v_updated_at := with_default (Some now) (vi_updated_at p) |} ])).

(** ** INSERT INTO subscriptions *)
Record subscription_insert : Type := {
  si_id : col uuid;
  si_vendor_id : col uuid;
  si_start_date : col date;
  si_end_date : col date;
  si_amount : col Z;
  si_status : col string;
  si_payment_date : col timestamptz;
  si_created_at : col timestamptz
}.

Definition insert_subscription (db : DB) (s : session) (fresh : uuid)
    (now : timestamptz) (p : subscription_insert) : result DB :=
  _ <- guard (fits fits_integer (si_amount p)) NumericOverflow ;;
  let owner := with_default None (si_vendor_id p) in
  _ <- guard (holds_on (subscriptions_insert_check db s) owner) RlsViolation ;;
  id <- not_null (with_default (Some fresh) (si_id p)) ;;
  owner <- not_null owner ;;
  first <- not_null (with_default None (si_start_date p)) ;;
  last <- not_null (with_default None (si_end_date p)) ;;
  status <- not_null (with_default (Some "pending") (si_status p)) ;;
  _ <- guard (subscription_status_check status) CheckViolation ;;
  _ <- guard (negb (mem id (map s_id (subscriptions db)))) UniqueViolation ;;
  _ <- guard (mem owner (map v_id (vendors db))) ForeignKeyViolation ;;
  Ok (with_subscriptions db (subscriptions db ++ [
    {| s_id := id; s_vendor_id := owner; start_date := first; end_date := last;
       amount := with_default (Some 5000%Z) (si_amount p);
       s_status := status;
       payment_date := with_default None (si_payment_date p);
       s_created_at := with_default (Some now) (si_created_at p) |} ])).

Definition select_subscriptions (db : DB) (s : session)
    (where_ : subscription -> bool) : list subscription :=
  select_rows (subscriptions_select db s) where_ (subscriptions db).

(** ** INSERT INTO customer_calls *)
Record call_insert : Type := {
  ci_id : col uuid;
  ci_customer_id : col uuid;
  ci_vendor_id : col uuid;
  ci_customer_latitude : col decimal8;
  ci_customer_longitude : col decimal8;
  ci_status : col string;
  ci_created_at : col timestamptz;
  ci_acknowledged_at : col timestamptz;
  ci_completed_at : col timestamptz
}.

Definition insert_customer_call (db : DB) (s : session) (fresh : uuid)
    (now : timestamptz) (p : call_insert) : result DB :=
  _ <- guard (fits fits_decimal_10_8 (ci_customer_latitude p)
              && fits fits_decimal_11_8 (ci_customer_longitude p))
         NumericOverflow ;;
  let customer := with_default None (ci_customer_id p) in
  _ <- guard (holds_on (customer_calls_insert_check s) customer) RlsViolation ;;
  id <- not_null (with_default (Some fresh) (ci_id p)) ;;
  customer <- not_null customer ;;
  target <- not_null (with_default None (ci_vendor_id p)) ;;
  lat <- not_null (with_default None (ci_customer_latitude p)) ;;
  lon <- not_null (with_default None (ci_customer_longitude p)) ;;
  status <- not_null (with_default (Some "pending") (ci_status p)) ;;
  _ <- guard (call_status_check status) CheckViolation ;;
  _ <- guard (negb (mem id (map c_id (customer_calls db)))) UniqueViolation ;;
  _ <- guard (mem customer (map p_id (profiles db))) ForeignKeyViolation ;;
  _ <- guard (mem target (map v_id (vendors db))) ForeignKeyViolation ;;
  Ok (with_customer_calls db (customer_calls db ++ [
    {| c_id := id; customer_id := customer; c_vendor_id := target;
       customer_latitude := lat; customer_longitude := lon;
       c_status := status;
       c_created_at := with_default (Some now) (ci_created_at p);
       acknowledged_at := with_default None (ci_acknowledged_at p);
       completed_at := with_default None (ci_completed_at p) |} ])).

(** ** UPDATE customer_calls

    The SET list ranges over the lifecycle columns. *)
Record call_patch : Type := {
  set_status : col string;
  set_acknowledged_at : col timestamptz;
  set_completed_at : col timestamptz
}.

Definition call_apply (p : call_patch) (r : customer_call) : customer_call :=
  {| c_id := c_id r; customer_id := customer_id r; c_vendor_id := c_vendor_id r;
     customer_latitude := customer_latitude r;
     customer_longitude := customer_longitude r;
     c_status := assign_nn (set_status p) (c_status r);
     c_created_at := c_created_at r;
     acknowledged_at := assign (set_acknowledged_at p) (acknowledged_at r);
     completed_at := assign (set_completed_at p) (completed_at r) |}.

Definition call_constraints (p : call_patch) (r : customer_call) : result unit :=
  _ <- guard (negb (is_null (set_status p))) NotNullViolation ;;
  guard (call_status_check (c_status r)) CheckViolation.

Definition update_customer_calls (db : DB) (s : session)
    (where_ : customer_call -> bool) (p : call_patch) : result (DB * nat) :=
  '(t, n) <- update_rows (customer_calls_update_reach db s)
               (customer_calls_update_pass db s)
               (call_constraints p) where_ (call_apply p) (customer_calls db) ;;
  Ok (with_customer_calls db t, n).

Definition select_customer_calls (db : DB) (s : session)
    (where_ : customer_call -> bool) : list customer_call :=
  select_rows (customer_calls_select db s) where_ (customer_calls db).

End Schema.

(* ================================================================== *)
(** * The dashboards                                                   *)
(* ================================================================== *)

(** The client ignores or only tests the [error] of a write; a failed
    statement leaves the tables as they were. *)
Definition committed {A} (db : Schema.DB) (r : Schema.result A)
    (after : A -> Schema.DB) : Schema.DB :=
  match r with
  | Schema.Ok a => after a
  | Schema.Err _ => db
  end.

Definition failed {A} (r : Schema.result A) : bool :=
  match r with
  | Schema.Ok _ => false
  | Schema.Err _ => true
  end.

(** A coordinate pair as the [decimal(_, 8)] columns receive it. *)
Definition coords : Type := (Schema.decimal8 * Schema.decimal8)%type.

Module CustomerDashboard.
Import Schema.

Record state : Type := {
  user : session;
  userLocation : option coords;
  callingSent : option uuid
}.

(** [callVendor]: without a user or a location nothing is sent; otherwise
    one INSERT, and [callingSent] is set when it reports no error. *)
Definition callVendor (db : DB) (st : state) (vendorId : uuid)
    (fresh : uuid) (now : timestamptz) : DB * state :=
  match user st, userLocation st with
  | Some u, Some (lat, lng) =>
      let r := insert_customer_call db (user st) fresh now
                 {| ci_id := Omitted;
                    ci_customer_id := Val u;
                    ci_vendor_id := Val vendorId;
                    ci_customer_latitude := Val lat;
                    ci_customer_longitude := Val lng;
                    ci_status := Val "pending";
                    ci_created_at := Omitted;
                    ci_acknowledged_at := Omitted;
                    ci_completed_at := Omitted |} in
      (committed db r (fun db' => db'),
       {| user := user st; userLocation := userLocation st;
          callingSent := if failed r then callingSent st else Some vendorId |})
  | _, _ => (db, st)
  end.

(** [loadVendors]: the rows put into [vendors] and [filteredVendors]. *)
Definition loadVendors (db : DB) (s : session) : list vendor :=
  select_vendors db s
    (fun v => match is_active v with
              | Some true => true
              | _ => false
              end
              && match current_latitude v with
                 | Some _ => true
                 | None => false
                 end
              && match current_longitude v with
                 | Some _ => true
                 | None => false
                 end).

End CustomerDashboard.

Module VendorDashboard.
Import Schema.

(** [interface Call]: a call row with the customer's profile joined in. *)
Record Call : Type := {
  row : customer_call;
  profiles : option (string * option string)
}.

(** [interface Subscription] *)
Record Subscription : Type := {
  status : string;
  end_date : date
}.

Record state : Type := {
  user : session;
  vendor : option Schema.vendor;
  calls : list Call;
  subscription : option Subscription;
  loading : bool;
  locationTracking : bool
}.

(** Truthiness of a nullable boolean column: [locationTracking] is only
    ever negated or branched on. *)
Definition truthy (b : option bool) : bool :=
  match b with
  | Some true => true
  | _ => false
  end.

(** [profiles:customer_id(full_name, phone)] *)
Definition embed_profile (db : DB) (s : session) (c : customer_call) : Call :=
  {| row := c;
     profiles :=
       option_map (fun p => (full_name p, phone p))
         (maybeSingle (select_profiles db s (fun p => p_id p =? customer_id c))) |}.

Definition loadVendorData (db : DB) (st : state) : state :=
  match user st with
  | None => st
  | Some u =>
      match maybeSingle (select_vendors db (user st) (fun v => user_id v =? u)) with
      | Some vendorData =>
          let callsData :=
            order_desc c_created_at
              (select_customer_calls db (user st)
                 (fun c => (c_vendor_id c =? v_id vendorData)
                           && (c_status c =? "pending"))) in
          let subData :=
            maybeSingle
              (limit 1
                 (order_desc (fun x => Some (Schema.end_date x))
                    (select_subscriptions db (user st)
                       (fun x => (s_vendor_id x =? v_id vendorData)
                                 && (s_status x =? "active"))))) in
          {| user := user st;
             vendor := Some vendorData;
             calls := map (embed_profile db (user st)) callsData;
             subscription :=
               option_map
                 (fun x => {| status := s_status x; end_date := Schema.end_date x |})
                 subData;
             loading := false;
             locationTracking := truthy (is_active vendorData) |}
      | None =>
          {| user := user st; vendor := vendor st; calls := calls st;
             subscription := subscription st; loading := false;
             locationTracking := locationTracking st |}
      end
  end.

(** [{ ...vendor, is_active: b }] *)
Definition with_is_active (v : Schema.vendor) (b : bool) : Schema.vendor :=
  {| v_id := v_id v; user_id := user_id v; business_name := business_name v;
     business_type := business_type v; description := description v;
     is_active := Some b; current_latitude := current_latitude v;
     current_longitude := current_longitude v;
     last_location_update := last_location_update v;
     v_created_at := v_created_at v; v_updated_at := v_updated_at v |}.

Definition tracking (st : state) (v : Schema.vendor) (b : bool) : state :=
  {| user := user st; vendor := Some (with_is_active v b); calls := calls st;
     subscription := subscription st; loading := loading st;
     locationTracking := b |}.

(** [toggleLocationTracking].  [position] is what [getCurrentPosition]
    hands to its success callback, or [None] when there is no geolocation
    or the callback is never run; [clock] is the browser's [new Date()],
    [now] the server's [now()]. *)
Definition toggleLocationTracking (db : DB) (st : state)
    (position : option coords) (clock now : timestamptz) : DB * state :=
  match vendor st with
  | None => (db, st)
  | Some v =>
      if negb (locationTracking st) then
        match position with
        | Some (latitude, longitude) =>
            let r := update_vendors db (user st) now (fun x => v_id x =? v_id v)
                       {| set_is_active := Val true;
                          set_current_latitude := Val latitude;
                          set_current_longitude := Val longitude;
                          set_last_location_update := Val clock |} in
            (committed db r fst, tracking st v true)
        | None => (db, st)
        end
      else
        let r := update_vendors db (user st) now (fun x => v_id x =? v_id v)
                   {| set_is_active := Val false;
                      set_current_latitude := Omitted;
                      set_current_longitude := Omitted;
                      set_last_location_update := Omitted |} in
        (committed db r fst, tracking st v false)
  end.

(** The [watchPosition] callback installed by [startLocationUpdates]. *)
Definition startLocationUpdates (db : DB) (st : state)
    (position : coords) (clock now : timestamptz) : DB :=
  match vendor st with
  | Some v =>
      let r := update_vendors db (user st) now (fun x => v_id x =? v_id v)
                 {| set_is_active := Omitted;
                    set_current_latitude := Val (fst position);
                    set_current_longitude := Val (snd position);
                    set_last_location_update := Val clock |} in
      committed db r fst
  | None => db
  end.

Definition acknowledgeCall (db : DB) (st : state) (callId : uuid)
    (clock : timestamptz) : DB * state :=
  let r := update_customer_calls db (user st) (fun c => c_id c =? callId)
             {| set_status := Val "acknowledged";
                set_acknowledged_at := Val clock;
                set_completed_at := Omitted |} in
  (committed db r fst,
   {| user := user st; vendor := vendor st;
      calls := filter (fun c => negb (c_id (row c) =? callId)) (calls st);
      subscription := subscription st; loading := loading st;
      locationTracking := locationTracking st |}).

Definition isSubscriptionExpired (st : state) : bool :=
  match subscription st with
  | None => true
  | Some sub => negb (status sub =? "active")
  end.

(** What the component returns: the loading screen, the setup form, or
    the dashboard, whose toggle button carries [disabled]. *)
Inductive view : Type :=
| Loading
| Setup
| Dashboard (toggle_disabled : bool) (incoming : list Call).

Definition render (st : state) : view :=
  if loading st then Loading
  else match vendor st with
       | None => Setup
       | Some _ => Dashboard (isSubscriptionExpired st) (calls st)
       end.

(** [VendorSetupForm]'s [handleSubmit]; the result tells whether
    [onComplete] is called. *)
Definition handleSubmit (db : DB) (s : session) (userId : uuid)
    (businessName businessType description : string)
    (fresh : uuid) (now : timestamptz) : DB * bool :=
  let r := insert_vendor db s fresh now
             {| vi_id := Omitted; vi_user_id := Val userId;
                vi_business_name := Val businessName;
                vi_business_type := Val businessType;
                vi_description := Val description;
                vi_is_active := Omitted;
                vi_current_latitude := Omitted;
                vi_current_longitude := Omitted;
                vi_last_location_update := Omitted;
                vi_created_at := Omitted; vi_updated_at := Omitted |} in
  (committed db r (fun db' => db'), negb (failed r)).

End VendorDashboard.

Module SubscriptionManager.
Import Schema.

(** [handlePayment]: [startDate] and [endDate] are the two calendar days
    the [Date] object yields (today and a month on); the result tells
    whether [success] is set. *)
Definition handlePayment (db : DB) (s : session) (vendorId : uuid)
    (startDate endDate : date) (clock : timestamptz)
    (fresh : uuid) (now : timestamptz) : DB * bool :=
  let r := insert_subscription db s fresh now
             {| si_id := Omitted; si_vendor_id := Val vendorId;
                si_start_date := Val startDate; si_end_date := Val endDate;
                si_amount := Val 5000%Z; si_status := Val "active";
                si_payment_date := Val clock; si_created_at := Omitted |} in
  (committed db r (fun db' => db'), negb (failed r)).

End SubscriptionManager.

(* ================================================================== *)
(** * Operations over time                                             *)
(* ================================================================== *)

(** A statement a session may send straight to the tables. *)
Module Sql.
Import Schema.

Inductive statement : Type :=
| UpdateProfiles (where_ : profile -> bool) (p : profile_patch)
| UpdateVendors (where_ : vendor -> bool) (p : vendor_patch)
| InsertVendor (p : vendor_insert)
| InsertSubscription (p : subscription_insert)
| InsertCustomerCall (p : call_insert)
| UpdateCustomerCalls (where_ : customer_call -> bool) (p : call_patch).

(** A statement with the session that sends it and the server's
    [gen_random_uuid()] and [now()] for it. *)
Record request : Type := {
  who : session;
  fresh : uuid;
  now : timestamptz;
  what : statement
}.

Definition exec (db : DB) (q : request) : result DB :=
  match what q with
  | UpdateProfiles w p =>
      '(db', _) <- update_profiles db (who q) (now q) w p ;; Ok db'
  | UpdateVendors w p =>
      '(db', _) <- update_vendors db (who q) (now q) w p ;; Ok db'
  | InsertVendor p => insert_vendor db (who q) (fresh q) (now q) p
  | InsertSubscription p => insert_subscription db (who q) (fresh q) (now q) p
  | InsertCustomerCall p => insert_customer_call db (who q) (fresh q) (now q) p
  | UpdateCustomerCalls w p =>
      '(db', _) <- update_customer_calls db (who q) w p ;; Ok db'
  end.

(** A rejected statement changes nothing. *)
Definition step (db : DB) (q : request) : DB :=
  committed db (exec db q) (fun db' => db').

End Sql.

(** The write paths of the application: every handler of the dashboards
    that sends a statement, with the component state it runs in. *)
Module App.
Import Schema.

Inductive action : Type :=
| CallVendor (st : CustomerDashboard.state) (vendorId fresh : uuid)
    (now : timestamptz)
| AcknowledgeCall (st : VendorDashboard.state) (callId : uuid)
    (clock : timestamptz)
| ToggleLocationTracking (st : VendorDashboard.state)
    (position : option coords) (clock now : timestamptz)
| WatchPosition (st : VendorDashboard.state) (position : coords)
    (clock now : timestamptz)
| HandleSubmit (s : session) (userId : uuid)
    (businessName businessType description : string) (fresh : uuid)
    (now : timestamptz)
| HandlePayment (s : session) (vendorId : uuid) (startDate endDate : date)
    (clock : timestamptz) (fresh : uuid) (now : timestamptz).

Definition step (db : DB) (a : action) : DB :=
  match a with
  | CallVendor st vendorId fresh now =>
      fst (CustomerDashboard.callVendor db st vendorId fresh now)
  | AcknowledgeCall st callId clock =>
      fst (VendorDashboard.acknowledgeCall db st callId clock)
  | ToggleLocationTracking st position clock now =>
      fst (VendorDashboard.toggleLocationTracking db st position clock now)
  | WatchPosition st position clock now =>
      VendorDashboard.startLocationUpdates db st position clock now
  | HandleSubmit s userId n t d fresh now =>
      fst (VendorDashboard.handleSubmit db s userId n t d fresh now)
  | HandlePayment s vendorId d1 d2 clock fresh now =>
      fst (SubscriptionManager.handlePayment db s vendorId d1 d2 clock fresh now)
  end.

End App.

Module Lifecycle.
Import Schema.

Definition lifecycle : list string := ["pending"; "acknowledged"; "completed"].

(** The status of the call [id], when there is such a row. *)
Definition status_of (db : DB) (id : uuid) : option string :=
  option_map c_status (find (fun c => c_id c =? id) (customer_calls db)).

Section Trace.
Context {Op : Type}.
Variable step : DB -> Op -> DB.

(** The states the tables go through. *)
Fixpoint states (db : DB) (ops : list Op) : list DB :=
  db :: match ops with
        | [] => []
        | o :: rest => states (step db o) rest
        end.

(** The status values of call [id] observed along the way. *)
Definition observed (db : DB) (ops : list Op) (id : uuid) : list string :=
  flat_map (fun d => match status_of d id with
                     | Some s => [s]
                     | None => []
                     end) (states db ops).

End Trace.

(** Successive equal observations are one observation. *)
Fixpoint collapse (l : list string) : list string :=
  match l with
  | [] => []
  | x :: rest =>
      match rest with
      | [] => [x]
      | y :: _ => if x =? y then collapse rest else x :: collapse rest
      end
  end.

Fixpoint is_subseq (l m : list string) : bool :=
  match m with
  | [] => match l with
          | [] => true
          | _ :: _ => false
          end
  | y :: m' =>
      match l with
      | [] => true
      | x :: l' => if x =? y then is_subseq l' m' else is_subseq l m'
      end
  end.

(** No stored call is completed: what holds of every table the
    application alone has written. *)
Definition none_completed (db : DB) : Prop :=
  forall c, In c (customer_calls db) ->
            c_status c = "pending" \/ c_status c = "acknowledged".

End Lifecycle.

Module Gate.
Import Schema.

(** A covering subscription, in the words of the glossary: a row of the
    vendor whose status is active and whose end date is not before the
    current date. *)
Definition covering (today : date) (vendor_id : uuid) (x : subscription) : bool :=
  (s_vendor_id x =? vendor_id) && (s_status x =? "active")
  && (today <=? end_date x)%Z.

Definition has_covering (db : DB) (today : date) (vendor_id : uuid) : bool :=
  existsb (covering today vendor_id) (subscriptions db).

(** What the dashboard's query looks for instead. *)
Definition has_active (db : DB) (vendor_id : uuid) : bool :=
  existsb (fun x => (s_vendor_id x =? vendor_id) && (s_status x =? "active"))
    (subscriptions db).

End Gate.

(* ================================================================== *)
(** * A small town                                                     *)
(* ================================================================== *)

(** One customer, two sellers with a stall each; the customer stands at
    (-6.200000, 106.816666), the first stall at (-6.210000, 106.820000). *)
Module Scenario.
Import Schema.

Definition customer : profile :=
  {| p_id := "id-customer"; full_name := "Siti"; phone := Some "0811";
     user_type := "customer"; p_created_at := Some 1%Z; p_updated_at := Some 1%Z |}.

Definition seller : profile :=
  {| p_id := "id-seller"; full_name := "Budi"; phone := Some "0812";
     user_type := "vendor"; p_created_at := Some 2%Z; p_updated_at := Some 2%Z |}.

Definition rival : profile :=
  {| p_id := "id-rival"; full_name := "Agus"; phone := None;
     user_type := "vendor"; p_created_at := Some 3%Z; p_updated_at := Some 3%Z |}.

Definition stall : vendor :=
  {| v_id := "stall-1"; user_id := "id-seller"; business_name := "Bakso Budi";
     business_type := "Makanan"; description := Some EmptyString;
     is_active := Some true;
     current_latitude := Some (-621000000)%Z;
     current_longitude := Some 10682000000%Z;
     last_location_update := Some 50%Z;
     v_created_at := Some 4%Z; v_updated_at := Some 50%Z |}.

Definition rival_stall : vendor :=
  {| v_id := "stall-2"; user_id := "id-rival"; business_name := "Es Agus";
     business_type := "Minuman"; description := Some EmptyString;
     is_active := Some false; current_latitude := None;
     current_longitude := None; last_location_update := None;
     v_created_at := Some 5%Z; v_updated_at := Some 5%Z |}.

Definition town : DB :=
  {| profiles := [customer; seller; rival]; vendors := [stall; rival_stall];
     subscriptions := []; customer_calls := [] |}.

Definition at_home : CustomerDashboard.state :=
  {| CustomerDashboard.user := Some "id-customer";
     CustomerDashboard.userLocation := Some ((-620000000)%Z, 10681666600%Z);
     CustomerDashboard.callingSent := None |}.

(** The customer calls the first stall. *)
Definition called : DB :=
  fst (CustomerDashboard.callVendor town at_home "stall-1" "call-1" 100%Z).

Definition opened (db : DB) (u : uuid) : VendorDashboard.state :=
  VendorDashboard.loadVendorData db
    {| VendorDashboard.user := Some u; VendorDashboard.vendor := None;
       VendorDashboard.calls := []; VendorDashboard.subscription := None;
       VendorDashboard.loading := true;
       VendorDashboard.locationTracking := false |}.

(** The row that call leaves. *)
Definition the_call : customer_call :=
  {| c_id := "call-1"; customer_id := "id-customer"; c_vendor_id := "stall-1";
     customer_latitude := (-620000000)%Z; customer_longitude := 10681666600%Z;
     c_status := "pending"; c_created_at := Some 100%Z;
     acknowledged_at := None; completed_at := None |}.

(** The seller's dashboard with the call on screen, after the session
    has ended. *)
Definition signed_out : VendorDashboard.state :=
  {| VendorDashboard.user := None;
     VendorDashboard.vendor := VendorDashboard.vendor (opened called "id-seller");
     VendorDashboard.calls := VendorDashboard.calls (opened called "id-seller");
     VendorDashboard.subscription := None;
     VendorDashboard.loading := false;
     VendorDashboard.locationTracking := true |}.

(** The seller, with a location of their own, calls their own stall. *)
Definition seller_at_home : CustomerDashboard.state :=
  {| CustomerDashboard.user := Some "id-seller";
     CustomerDashboard.userLocation := Some ((-621000000)%Z, 10682000000%Z);
     CustomerDashboard.callingSent := None |}.

Definition self_called : DB :=
  fst (CustomerDashboard.callVendor town seller_at_home "stall-1" "call-9" 100%Z).

(** The seller paid for days 0 to 30 and never again. *)
Definition paid_once : DB :=
  fst (SubscriptionManager.handlePayment town (Some "id-seller") "stall-1"
         0%Z 30%Z 60%Z "sub-1" 61%Z).

(** The second stall as [toggleLocationTracking] leaves it when its
    seller goes on air at (-6.300000, 106.900000). *)
Definition rival_stall_on_air : vendor :=
  {| v_id := "stall-2"; user_id := "id-rival"; business_name := "Es Agus";
     business_type := "Minuman"; description := Some EmptyString;
     is_active := Some true;
     current_latitude := Some (-630000000)%Z;
     current_longitude := Some 10690000000%Z;
     last_location_update := Some 80%Z;
     v_created_at := Some 5%Z; v_updated_at := Some 81%Z |}.

(** Statements the seller sends to the tables directly: the call is
    acknowledged, completed, and set back to pending. *)
Definition by_seller (p : call_patch) : Sql.request :=
  {| Sql.who := Some "id-seller"; Sql.fresh := "unused"; Sql.now := 300%Z;
     Sql.what := Sql.UpdateCustomerCalls (fun c => c_id c =? "call-1") p |}.

Definition acknowledge : Sql.request :=
  by_seller {| set_status := Val "acknowledged";
               set_acknowledged_at := Val 200%Z;
               set_completed_at := Omitted |}.

Definition complete : Sql.request :=
  by_seller {| set_status := Val "completed";
               set_acknowledged_at := Omitted;
               set_completed_at := Val 250%Z |}.

Definition reopen : Sql.request :=
  by_seller {| set_status := Val "pending";
               set_acknowledged_at := Null;
               set_completed_at := Null |}.

End Scenario.

(* ================================================================== *)
(** * What the tables promise                                          *)
(* ================================================================== *)

Module Integrity.
Import Schema.

(** PRIMARY KEY on every table and UNIQUE on [vendors.user_id]. *)
Definition keys_unique (db : DB) : Prop :=
  NoDup (map p_id (profiles db))
  /\ NoDup (map v_id (vendors db))
  /\ NoDup (map user_id (vendors db))
  /\ NoDup (map s_id (subscriptions db))
  /\ NoDup (map c_id (customer_calls db)).

(** The three CHECK constraints. *)
Definition checks_hold (db : DB) : Prop :=
  (forall p, In p (profiles db) -> user_type_check (user_type p) = true)
  /\ (forall x, In x (subscriptions db) ->
                subscription_status_check (s_status x) = true)
  /\ (forall c, In c (customer_calls db) ->
                call_status_check (c_status c) = true).

(** The four REFERENCES clauses between the tables. *)
Definition references_hold (db : DB) : Prop :=
  (forall v, In v (vendors db) ->
             mem (user_id v) (map p_id (profiles db)) = true)
  /\ (forall x, In x (subscriptions db) ->
                mem (s_vendor_id x) (map v_id (vendors db)) = true)
  /\ (forall c, In c (customer_calls db) ->
                mem (customer_id c) (map p_id (profiles db)) = true
                /\ mem (c_vendor_id c) (map v_id (vendors db)) = true).

(** [a] may stand before [b] under [ORDER BY key DESC]. *)
Definition not_after {Row} (key : Row -> option Z) (a b : Row) : Prop :=
  desc_before (key a) (key b) = true.

End Integrity.

(** ** UPDATE with any SET list

    The dashboards set a few columns only.  A session may send any UPDATE
    to the tables: its SET list may name every column, the key, the owner
    and the two timestamps included.  [set] is the row the SET list
    computes from the stored one (a SET list that puts NULL into a NOT NULL
    column is rejected before a row is written and is not among them).
    The statement is [update_rows] with the table's policies, the table's
    trigger run on each new row and the constraints of one row, followed by
    the constraints that span rows: PRIMARY KEY, UNIQUE and the REFERENCES
    clauses to and from the table.  Those are tested on the table the
    statement leaves; the server tests them row by row and so rejects some
    statements that pass here, and none the other way round. *)
Module AnySet.
Import Schema.

Fixpoint distinct (l : list uuid) : bool :=
  match l with
  | [] => true
  | i :: rest => negb (mem i rest) && distinct rest
  end.

Definition all_in (l among : list uuid) : bool :=
  forallb (fun i => mem i among) l.

(** A nullable [decimal] column holds NULL or a value of its range. *)
Definition within (f : decimal8 -> bool) (o : option decimal8) : bool :=
  match o with
  | Some x => f x
  | None => true
  end.

Definition update_profiles (db : DB) (s : session) (now : timestamptz)
    (where_ : profile -> bool) (set : profile -> profile)
    : result (DB * nat) :=
  '(t, n) <- update_rows (profiles_update_reach s) (profiles_update_pass s)
               (fun r => guard (user_type_check (user_type r)) CheckViolation)
               where_ (fun r => profile_touch now (set r)) (profiles db) ;;
  _ <- guard (distinct (map p_id t)) UniqueViolation ;;
  _ <- guard (all_in (map user_id (vendors db)) (map p_id t)
              && all_in (map customer_id (customer_calls db)) (map p_id t))
         ForeignKeyViolation ;;
  Ok (with_profiles db t, n).

Definition update_vendors (db : DB) (s : session) (now : timestamptz)
    (where_ : vendor -> bool) (set : vendor -> vendor)
    : result (DB * nat) :=
  '(t, n) <- update_rows (vendors_update_reach s) (vendors_update_pass s)
               (fun r => guard (within fits_decimal_10_8 (current_latitude r)
                                && within fits_decimal_11_8
                                     (current_longitude r))
                           NumericOverflow)
               where_ (fun r => vendor_touch now (set r)) (vendors db) ;;
  _ <- guard (distinct (map v_id t) && distinct (map user_id t))
         UniqueViolation ;;
  _ <- guard (all_in (map user_id t) (map p_id (profiles db))
              && all_in (map s_vendor_id (subscriptions db)) (map v_id t)
              && all_in (map c_vendor_id (customer_calls db)) (map v_id t))
         ForeignKeyViolation ;;
  Ok (with_vendors db t, n).

(** customer_calls has no trigger. *)
Definition update_customer_calls (db : DB) (s : session)
    (where_ : customer_call -> bool) (set : customer_call -> customer_call)
    : result (DB * nat) :=
  '(t, n) <- update_rows (customer_calls_update_reach db s)
               (customer_calls_update_pass db s)
               (fun r => _ <- guard (fits_decimal_10_8 (customer_latitude r)
                                     && fits_decimal_11_8
                                          (customer_longitude r))
                                NumericOverflow ;;
                         guard (call_status_check (c_status r)) CheckViolation)
               where_ set (customer_calls db) ;;
  _ <- guard (distinct (map c_id t)) UniqueViolation ;;
  _ <- guard (all_in (map customer_id t) (map p_id (profiles db))
              && all_in (map c_vendor_id t) (map v_id (vendors db)))
         ForeignKeyViolation ;;
  Ok (with_customer_calls db t, n).

(** [SET id = 'stall-9', business_name = 'Bakso Baru', created_at = NULL,
    updated_at = to_timestamp(0)] *)
Definition rename_stall (r : vendor) : vendor :=
  {| v_id := "stall-9"; user_id := user_id r; business_name := "Bakso Baru";
     business_type := business_type r; description := description r;
     is_active := is_active r; current_latitude := current_latitude r;
     current_longitude := current_longitude r;
     last_location_update := last_location_update r;
     v_created_at := None; v_updated_at := Some 0%Z |}.

(** [SET id = 'call-7', customer_id = 'id-rival', status = 'completed'] *)
Definition retag_call (r : customer_call) : customer_call :=
  {| c_id := "call-7"; customer_id := "id-rival";
     c_vendor_id := c_vendor_id r;
     customer_latitude := customer_latitude r;
     customer_longitude := customer_longitude r;
     c_status := "completed"; c_created_at := c_created_at r;
     acknowledged_at := acknowledged_at r; completed_at := completed_at r |}.

(** The customer has called both stalls. *)
Definition two_calls : DB :=
  fst (CustomerDashboard.callVendor Scenario.called Scenario.at_home
         "stall-2" "call-2" 110%Z).

End AnySet.

(** [AppContent]: which screen a visitor gets.  [user] and [profile] are
    what the [useAuth] and [useProfile] hooks hand over. *)
Module Routing.
Import Schema.

Inductive screen : Type :=
| Memuat
| AuthForm
| VendorDashboard
| CustomerDashboard.

Definition AppContent (authLoading profileLoading : bool)
    (user : option uuid) (profile : option Schema.profile) : screen :=
  if authLoading || profileLoading then Memuat
  else match user, profile with
       | Some _, Some p =>
           if user_type p =? "vendor" then VendorDashboard
           else CustomerDashboard
       | _, _ => AuthForm
       end.

End Routing.

(** The search box of the customer's dashboard.  [toLowerCase] is the
    string method of the language, taken as given. *)
Module Search.
Import Schema.

(** [s.includes(t)] *)
Fixpoint includes (s t : string) : bool :=
  if String.prefix t s then true
  else match s with
       | EmptyString => false
       | String _ s' => includes s' t
       end.

Section Filter.
Variable toLowerCase : string -> string.

(** The effect on [searchTerm] and [vendors]: what [filteredVendors]
    becomes. *)
Definition filteredVendors (searchTerm : string) (vendors : list vendor)
    : list vendor :=
  match searchTerm with
  | EmptyString => vendors
  | _ =>
      filter (fun v =>
                includes (toLowerCase (business_name v)) (toLowerCase searchTerm)
                || includes (toLowerCase (business_type v))
                     (toLowerCase searchTerm))
        vendors
  end.

End Filter.

End Search.

(** More of the small town, for the facts below. *)
Module Cases.
Import Schema.

Definition fresh_dashboard (u : uuid) : VendorDashboard.state :=
  {| VendorDashboard.user := Some u; VendorDashboard.vendor := None;
     VendorDashboard.calls := []; VendorDashboard.subscription := None;
     VendorDashboard.loading := true;
     VendorDashboard.locationTracking := false |}.

(** The seller acknowledges the call, the rival tries to, and the
    customer files a second call under a used id. *)
Definition busy_hour : list Sql.request :=
  [ Scenario.acknowledge;
    {| Sql.who := Some "id-rival"; Sql.fresh := "unused"; Sql.now := 310%Z;
       Sql.what := Sql.UpdateCustomerCalls (fun c => c_id c =? "call-1")
                     {| set_status := Val "completed";
                        set_acknowledged_at := Omitted;
                        set_completed_at := Val 310%Z |} |};
    {| Sql.who := Some "id-customer"; Sql.fresh := "call-1"; Sql.now := 320%Z;
       Sql.what := Sql.InsertCustomerCall
                     {| ci_id := Omitted; ci_customer_id := Val "id-customer";
                        ci_vendor_id := Val "stall-2";
                        ci_customer_latitude := Val (-620000000)%Z;
                        ci_customer_longitude := Val 10681666600%Z;
                        ci_status := Val "pending";
                        ci_created_at := Omitted;
                        ci_acknowledged_at := Omitted;
                        ci_completed_at := Omitted |} |} ].

(** The customer calls the first stall twice more, at 150 and at 120. *)
Definition three_calls : DB :=
  fst (CustomerDashboard.callVendor
         (fst (CustomerDashboard.callVendor Scenario.called Scenario.at_home
                 "stall-1" "call-2" 150%Z))
         Scenario.at_home "stall-1" "call-3" 120%Z).

(** The seller pays for days 0 to 30 and again for days 20 to 50. *)
Definition paid_twice : DB :=
  fst (SubscriptionManager.handlePayment Scenario.paid_once (Some "id-seller")
         "stall-1" 20%Z 50%Z 70%Z "sub-2" 71%Z).

(** [toLowerCase] on text in the Latin alphabet without accents. *)
Definition lower_ascii (c : Ascii.ascii) : Ascii.ascii :=
  let n := Ascii.nat_of_ascii c in
  if (65 <=? n)%nat && (n <=? 90)%nat then Ascii.ascii_of_nat (n + 32) else c.

Fixpoint lower (s : string) : string :=
  match s with
  | EmptyString => EmptyString
  | String c s' => String (lower_ascii c) (lower s')
  end.

(** The seller has paid once; then the town goes on: the seller goes off
    air and on again, a call comes in and is acknowledged, the rival pays. *)
Definition busy_day : list App.action :=
  [ App.ToggleLocationTracking (Scenario.opened Scenario.paid_once "id-seller")
      None 70%Z 71%Z;
    App.ToggleLocationTracking
      {| VendorDashboard.user := Some "id-seller";
         VendorDashboard.vendor := Some Scenario.stall;
         VendorDashboard.calls := [];
         VendorDashboard.subscription := None;
         VendorDashboard.loading := false;
         VendorDashboard.locationTracking := false |}
      (Some ((-621000500)%Z, 10682000500%Z)) 72%Z 73%Z;
    App.CallVendor Scenario.at_home "stall-1" "call-1" 100%Z;
    App.AcknowledgeCall (fresh_dashboard "id-seller") "call-1" 200%Z;
    App.HandlePayment (Some "id-rival") "stall-2" 0%Z 30%Z 210%Z "sub-2" 211%Z ].

End Cases.

(* ================================================================== *)
(** * Numbers of the client                                            *)
(* ================================================================== *)

(** A [number] of the language is an IEEE 754 binary64 value; its
    arithmetic is the Standard Library's specification of it, which rounds
    to nearest, ties to even. *)
Module Float64.
Local Open Scope Z_scope.

Definition prec : Z := 53.
Definition emax : Z := 1024.
Definition number : Type := spec_float.

Definition add : number -> number -> number := SFadd prec emax.
Definition sub : number -> number -> number := SFsub prec emax.
Definition mul : number -> number -> number := SFmul prec emax.
Definition div : number -> number -> number := SFdiv prec emax.
Definition opp : number -> number := SFopp.
Definition abs : number -> number := SFabs.

(** [x <= y]; false when either is NaN. *)
Definition leb : number -> number -> bool := SFleb.

(** An integer literal. *)
Definition literal (n : Z) : number := binary_normalize prec emax n 0 false.

(** [Math.PI], 0x400921FB54442D18. *)
Definition PI : number := S754_finite false 7074237752028440 (-51).

Definition zero : number := S754_zero false.
Definition one : number := literal 1.

(** The values a [number] ranges over: mantissa and exponent in
    canonical form. *)
Definition valid (x : number) : bool := valid_binary prec emax x.

(** Sign bit clear and not NaN: [+0], a positive number or [+Infinity]. *)
Definition pos (x : number) : bool :=
  match x with
  | S754_zero false | S754_finite false _ _ | S754_infinity false => true
  | _ => false
  end.

(** Neither NaN nor infinite. *)
Definition finite (x : number) : bool :=
  match x with
  | S754_zero _ | S754_finite _ _ _ => true
  | _ => false
  end.

Declare Scope float64_scope.
Delimit Scope float64_scope with float64.
Notation "x + y" := (add x y) : float64_scope.
Notation "x - y" := (sub x y) : float64_scope.
Notation "x * y" := (mul x y) : float64_scope.
Notation "x / y" := (div x y) : float64_scope.

(** ** Rounding, spelt out

    [rne m k] is [m / 2 ^ k] rounded to the nearest integer, ties to
    even; [pack s q f] is the number of sign [s] and value [q * 2 ^ f]
    for a rounded mantissa [q] of at most 53 bits, or 2^53. *)
Definition rne (m k : Z) : Z :=
  let q := m / 2 ^ k in
  match 2 * (m mod 2 ^ k) ?= 2 ^ k with
  | Lt => q
  | Eq => if Z.even q then q else q + 1
  | Gt => q + 1
  end.

Definition pack (s : bool) (q f : Z) : number :=
  match q with
  | Z0 => S754_zero s
  | Zpos p =>
      if q =? 2 ^ 53
      then if f + 1 <=? 971 then S754_finite s 4503599627370496 (f + 1)
           else S754_infinity s
      else if f <=? 971 then S754_finite s p f else S754_infinity s
  | Zneg _ => S754_nan
  end.

(** What [k] right shifts leave of [m]: the quotient and where the
    remainder lies in relation to one half. *)
Definition shifted (m k : Z) (st : shr_record) : Prop :=
  exists rem,
    0 <= rem < 2 ^ k /\ 0 <= shr_m st /\ m = shr_m st * 2 ^ k + rem
    /\ match shr_r st, shr_s st with
       | false, false => rem = 0
       | false, true => 0 < 2 * rem < 2 ^ k
       | true, false => 2 * rem = 2 ^ k
       | true, true => 2 ^ k < 2 * rem
       end.

(** The exact value [n * 2 ^ e] is at most [n' * 2 ^ e']. *)
Definition le_value (n : positive) (e : Z) (n' : positive) (e' : Z) : Prop :=
  Zpos n * 2 ^ (e - Z.min e e') <= Zpos n' * 2 ^ (e' - Z.min e e').

End Float64.

(** [calculateDistance] of the customer's dashboard.  [Math.sin],
    [Math.cos], [Math.sqrt] and [Math.atan2] are the library functions of
    the language, which leaves their results to the implementation; they
    are taken as given. *)
Module Distance.
Import Float64.

Record Math : Type := {
  sin : number -> number;
  cos : number -> number;
  sqrt : number -> number;
  atan2 : number -> number -> number
}.

Section Haversine.
Variable M : Math.
Local Open Scope float64_scope.

(** The term [a] of the function: the square of half the straight-line
    (chord) separation of the two points on the unit sphere. *)
Definition haversine (lat1 lon1 lat2 lon2 : number) : number :=
  let dLat := ((lat2 - lat1) * PI) / literal 180 in
  let dLon := ((lon2 - lon1) * PI) / literal 180 in
  sin M (dLat / literal 2) * sin M (dLat / literal 2)
  + cos M ((lat1 * PI) / literal 180)
    * cos M ((lat2 * PI) / literal 180)
    * sin M (dLon / literal 2)
    * sin M (dLon / literal 2).

(** The result as a function of [a]. *)
Definition central (a : number) : number :=
  literal 6371 * (literal 2 * atan2 M (sqrt M a) (sqrt M (literal 1 - a))).

Definition calculateDistance (lat1 lon1 lat2 lon2 : number) : number :=
  let R := literal 6371 in
  let dLat := ((lat2 - lat1) * PI) / literal 180 in
  let dLon := ((lon2 - lon1) * PI) / literal 180 in
  let a :=
    sin M (dLat / literal 2) * sin M (dLat / literal 2)
    + cos M ((lat1 * PI) / literal 180)
      * cos M ((lat2 * PI) / literal 180)
      * sin M (dLon / literal 2)
      * sin M (dLon / literal 2) in
  let c := literal 2 * atan2 M (sqrt M a) (sqrt M (literal 1 - a)) in
  R * c.

End Haversine.

(** What is taken of the four library functions.  Their results are
    numbers of the language; [sin] is odd and exact at zero; the cosine of
    a finite number lies between -1 and 1; [sqrt] is exact at 0 and 1,
    keeps the sign bit clear and keeps the order; [atan2] of two
    arguments with a clear sign bit has a clear sign bit, grows with the
    first argument and falls with the second, and [atan2 (+0) 1] is
    [+0]. *)
Record lawful (M : Math) : Prop := {
  sin_valid : forall x, valid (sin M x) = true;
  cos_valid : forall x, valid (cos M x) = true;
  sin_odd : forall x, sin M (opp x) = opp (sin M x);
  sin_zero : sin M zero = zero;
  cos_range : forall x, finite x = true -> leb (abs (cos M x)) one = true;
  sqrt_zero : sqrt M zero = zero;
  sqrt_one : sqrt M one = one;
  sqrt_pos : forall x, valid x = true -> pos x = true ->
                       valid (sqrt M x) = true /\ pos (sqrt M x) = true;
  sqrt_mono : forall x y, valid x = true -> valid y = true ->
                          pos x = true -> pos y = true -> leb x y = true ->
                          leb (sqrt M x) (sqrt M y) = true;
  atan2_zero : atan2 M zero one = zero;
  atan2_pos : forall y x, valid y = true -> valid x = true ->
                          pos y = true -> pos x = true ->
                          valid (atan2 M y x) = true
                          /\ pos (atan2 M y x) = true;
  atan2_mono : forall y y' x x',
      valid y = true -> valid y' = true -> valid x = true ->
      valid x' = true -> pos y = true -> pos y' = true -> pos x = true ->
      pos x' = true -> leb y y' = true -> leb x' x = true ->
      leb (atan2 M y x) (atan2 M y' x') = true
}.

(** A number of the language, or NaN for what is none. *)
Definition double (x : number) : number := if valid x then x else S754_nan.

(** The plainest functions that meet [lawful]: the identity for [sin] and
    [sqrt], 1 for [cos], the first argument for [atan2].  They show that
    what is taken of the library can be met; they stand for no
    implementation. *)
Definition plain : Math :=
  {| sin := double; cos := fun _ => one; sqrt := double;
     atan2 := fun y _ => double y |}.

(** A [decimal(_, 8)] coordinate as the number the client receives. *)
Definition degrees (x : Z) : number := div (literal x) (literal 100000000).

(** The customer of the small town, the first stall, and the second stall
    on air. *)
Definition home : number * number :=
  (degrees (-620000000), degrees 10681666600).

Definition first_stall : number * number :=
  (degrees (-621000000), degrees 10682000000).

Definition second_stall : number * number :=
  (degrees (-630000000), degrees 10690000000).

End Distance.

(* ================================================================== *)
(** * Facts about statements                                           *)
(* ================================================================== *)

Import Schema.

Section UpdateFacts.
Context {Row : Type}.
Variables (pu wc : Row -> bool) (cs : Row -> result unit).
Variables (w : Row -> bool) (f : Row -> Row).

Lemma update_rows_ok (tbl tbl' : list Row) (n : nat) :
  update_rows pu wc cs w f tbl = Ok (tbl', n) ->
  tbl' = rewritten pu w f tbl /\ n = hit pu w tbl.
Proof.
  revert tbl' n. induction tbl as [|r rest IH]; intros tbl' n H; simpl in H.
  - inversion H. split; reflexivity.
  - unfold rewritten, hit. simpl. destruct (w r && pu r) eqn:E; simpl in *.
    + destruct (wc (f r)); simpl in H; [|discriminate].
      destruct (cs (f r)); simpl in H; [|discriminate].
      destruct (update_rows pu wc cs w f rest) as [[t m]|] eqn:R;
        simpl in H; [|discriminate].
      inversion H; subst. destruct (IH _ _ eq_refl) as [-> ->].
      split; reflexivity.
    + destruct (update_rows pu wc cs w f rest) as [[t m]|] eqn:R;
        simpl in H; [|discriminate].
      inversion H; subst. destruct (IH _ _ eq_refl) as [-> ->].
      split; reflexivity.
Qed.

Lemma update_rows_accepts (tbl : list Row) :
  (forall r, In r tbl -> w r && pu r = true ->
             wc (f r) = true /\ cs (f r) = Ok tt) ->
  update_rows pu wc cs w f tbl = Ok (rewritten pu w f tbl, hit pu w tbl).
Proof.
  induction tbl as [|r rest IH]; intros H; [reflexivity|].
  unfold rewritten, hit. simpl.
  rewrite IH by (intros; apply H; [right|]; assumption).
  destruct (w r && pu r) eqn:E; simpl; [|reflexivity].
  destruct (H r (or_introl eq_refl) E) as [-> ->]. reflexivity.
Qed.

Lemma rewritten_none (tbl : list Row) :
  (forall r, In r tbl -> w r && pu r = false) ->
  rewritten pu w f tbl = tbl /\ hit pu w tbl = 0%nat.
Proof.
  induction tbl as [|r rest IH]; intros H; [split; reflexivity|].
  unfold rewritten, hit in *. simpl.
  rewrite (H r (or_introl eq_refl)). simpl.
  destruct IH as [-> ->]; [intros; apply H; right; assumption|].
  split; reflexivity.
Qed.

Lemma rewritten_nth (tbl : list Row) (i : nat) :
  nth_error (rewritten pu w f tbl) i =
  option_map (fun r => if w r && pu r then f r else r) (nth_error tbl i).
Proof.
  unfold rewritten. apply nth_error_map.
Qed.

End UpdateFacts.

Lemma rewritten_ext {Row} (pu pu' w : Row -> bool) (f : Row -> Row)
    (tbl : list Row) :
  (forall r, pu r = pu' r) ->
  rewritten pu w f tbl = rewritten pu' w f tbl
  /\ hit pu w tbl = hit pu' w tbl.
Proof.
  intros H. unfold rewritten, hit. split.
  - apply map_ext. intros r. rewrite H. reflexivity.
  - f_equal. apply filter_ext. intros r. rewrite H. reflexivity.
Qed.

(** Whoever may update a row may read it: the SELECT policy adds nothing
    to the UPDATE policy on any of the three tables. *)
Lemma profiles_reach (s : session) (r : profile) :
  profiles_update_reach s r = profiles_update_using s r.
Proof. destruct s; reflexivity. Qed.

Lemma vendors_reach (s : session) (r : vendor) :
  vendors_update_reach s r = vendors_update_using s r.
Proof. destruct s; reflexivity. Qed.

Lemma customer_calls_reach (db : DB) (s : session) (r : customer_call) :
  customer_calls_update_reach db s r = customer_calls_update_using db s r.
Proof.
  unfold customer_calls_update_reach, customer_calls_select,
    customer_calls_update_using.
  destruct (in_own_vendors db s (c_vendor_id r));
    [apply andb_true_iff; split; [apply orb_true_r|reflexivity]
    |apply andb_false_r].
Qed.

Lemma in_own_vendors_iff (db : DB) (u vid : uuid) :
  in_own_vendors db (Some u) vid = true <->
  exists v, In v (vendors db) /\ v_id v = vid /\ user_id v = u.
Proof.
  unfold in_own_vendors, own_vendor_ids. rewrite existsb_exists. split.
  - intros (i & Hi & E). apply String.eqb_eq in E. subst i.
    apply in_map_iff in Hi. destruct Hi as (v & Hv & Hin).
    apply filter_In in Hin. destruct Hin as [Hin Hb]. simpl in Hb.
    apply String.eqb_eq in Hb. exists v. auto.
  - intros (v & Hin & Hv & Hu). exists vid. split; [|apply String.eqb_refl].
    apply in_map_iff. exists v. split; [assumption|].
    apply filter_In. split; [assumption|]. simpl.
    apply String.eqb_eq. symmetry. assumption.
Qed.

Lemma in_own_vendors_anon (db : DB) (vid : uuid) :
  in_own_vendors db None vid = false.
Proof.
  unfold in_own_vendors, own_vendor_ids.
  induction (vendors db) as [|v l IH]; [reflexivity|]. simpl. exact IH.
Qed.

Lemma in_own_vendors_mem (db : DB) (s : session) (vid : uuid) :
  in_own_vendors db s vid = true -> mem vid (map v_id (vendors db)) = true.
Proof.
  destruct s as [u|]; [|rewrite in_own_vendors_anon; discriminate].
  intros H. apply in_own_vendors_iff in H. destruct H as (v & Hin & Hv & _).
  unfold mem. apply existsb_exists. exists (v_id v). split.
  - apply in_map. assumption.
  - apply String.eqb_eq. symmetry. assumption.
Qed.

(** The call policy reads [vendor_id] only, which no SET list touches. *)
Lemma call_check_after_apply (db : DB) (s : session) (p : call_patch)
    (c : customer_call) :
  customer_calls_update_check db s (call_apply p c) =
  customer_calls_update_using db s c.
Proof. reflexivity. Qed.

(** An UPDATE of the status to a value of the enumeration is accepted,
    and rewrites the rows it selects among those the session may update. *)
Lemma update_customer_calls_status (db : DB) (s : session)
    (w : customer_call -> bool) (p : call_patch) (st : string) :
  set_status p = Val st -> call_status_check st = true ->
  update_customer_calls db s w p =
  Ok (with_customer_calls db
        (rewritten (customer_calls_update_using db s) w (call_apply p)
           (customer_calls db)),
      hit (customer_calls_update_using db s) w (customer_calls db)).
Proof.
  intros Hp Hs. unfold update_customer_calls.
  rewrite update_rows_accepts.
  - destruct (rewritten_ext _ _ w (call_apply p) (customer_calls db)
                (customer_calls_reach db s)) as [-> ->].
    reflexivity.
  - intros r _ Hr. apply andb_true_iff in Hr. destruct Hr as [_ Hr].
    split; [exact Hr|].
    unfold call_constraints, call_apply. simpl. rewrite Hp. simpl.
    rewrite Hs. reflexivity.
Qed.

(* ================================================================== *)
(** * Who may move a call along                                        *)
(* ================================================================== *)

(** C1, amended.  An UPDATE of a call's status (to a value of the
    enumeration) by an authenticated identity [u] reaches a row exactly
    when [u] owns the vendor the row names: the USING expression holds iff
    some vendors row has the call's [vendor_id] as id and [u] as owner, the
    WITH CHECK expression agrees with it on the rewritten row, and the
    statement rewrites the selected rows of such vendors and no other.  The
    customer who placed the call is refused whenever no vendors row makes
    them the owner of the called vendor, and so is a session without a
    user. *)
Theorem call_update_iff_vendor_owner
    (db : DB) (u : uuid) (c : customer_call)
    (w : customer_call -> bool) (p : call_patch) (st : string) :
  set_status p = Val st ->
  call_status_check st = true ->
  (customer_calls_update_using db (Some u) c = true <->
   exists v, In v (vendors db) /\ v_id v = c_vendor_id c /\ user_id v = u)
  /\ customer_calls_update_check db (Some u) (call_apply p c)
     = customer_calls_update_using db (Some u) c
  /\ (exists db' n,
        update_customer_calls db (Some u) w p = Ok (db', n)
        /\ customer_calls db'
           = map (fun r => if w r && customer_calls_update_using db (Some u) r
                           then call_apply p r else r)
               (customer_calls db))
  /\ ((forall v, In v (vendors db) -> v_id v = c_vendor_id c ->
                 user_id v <> customer_id c) ->
      customer_calls_update_using db (Some (customer_id c)) c = false)
  /\ customer_calls_update_using db None c = false.
Proof.
  intros Hp Hs. split; [apply in_own_vendors_iff|].
  split; [apply call_check_after_apply|]. split; [|split].
  - eexists. eexists. split.
    + apply (update_customer_calls_status db (Some u) w p st Hp Hs).
    + reflexivity.
  - intros Hno.
    destruct (customer_calls_update_using db (Some (customer_id c)) c) eqn:E;
      [|reflexivity].
    apply in_own_vendors_iff in E. destruct E as (v & Hin & Hv & Hu).
    exfalso. exact (Hno v Hin Hv Hu).
  - apply in_own_vendors_anon.
Qed.

(** C4.  When the session owns the vendor of a pending call, one
    [acknowledgeCall] leaves the row, in its place, with status
    acknowledged and the browser's clock as acknowledgement timestamp, both
    written by the same statement; the created timestamp and every other
    column are as before. *)
Theorem acknowledgeCall_marks_call
    (db : DB) (st : VendorDashboard.state) (clock : timestamptz)
    (i : nat) (c : customer_call) :
  nth_error (customer_calls db) i = Some c ->
  c_status c = "pending" ->
  in_own_vendors db (VendorDashboard.user st) (c_vendor_id c) = true ->
  exists c',
    nth_error
      (customer_calls (fst (VendorDashboard.acknowledgeCall db st (c_id c) clock)))
      i = Some c'
    /\ c_status c' = "acknowledged"
    /\ acknowledged_at c' = Some clock
    /\ c_created_at c' = c_created_at c
    /\ c' = {| c_id := c_id c; customer_id := customer_id c;
               c_vendor_id := c_vendor_id c;
               customer_latitude := customer_latitude c;
               customer_longitude := customer_longitude c;
               c_status := "acknowledged";
               c_created_at := c_created_at c;
               acknowledged_at := Some clock;
               completed_at := completed_at c |}.
Proof.
  intros Hi _ Hown. unfold VendorDashboard.acknowledgeCall. simpl.
  rewrite (update_customer_calls_status db _ _ _ "acknowledged")
    by reflexivity.
  simpl. rewrite rewritten_nth, Hi. simpl.
  rewrite String.eqb_refl. unfold customer_calls_update_using.
  rewrite Hown. simpl. eexists. split; [reflexivity|].
  repeat split; reflexivity.
Qed.

(** C10.  [acknowledgeCall] drops the call from the list on screen
    whatever became of the UPDATE: the new list is the old one without the
    entries of that id.  In particular, when the policy hides every stored
    row of that id from the session, the tables are left as they were, a
    pending row is still pending, and the call is gone from the list all
    the same. *)
Theorem acknowledgeCall_forgets_call
    (db : DB) (st : VendorDashboard.state) (callId : uuid)
    (clock : timestamptz) :
  let out := VendorDashboard.acknowledgeCall db st callId clock in
  VendorDashboard.calls (snd out)
    = filter (fun c => negb (c_id (VendorDashboard.row c) =? callId))
        (VendorDashboard.calls st)
  /\ (forall c, In c (VendorDashboard.calls (snd out)) ->
                c_id (VendorDashboard.row c) <> callId)
  /\ forall r,
       In r (customer_calls db) -> c_id r = callId -> c_status r = "pending" ->
       (forall r', In r' (customer_calls db) -> c_id r' = callId ->
                   customer_calls_update_using db (VendorDashboard.user st) r'
                   = false) ->
       fst out = db
       /\ exists r', In r' (customer_calls (fst out))
                     /\ c_id r' = callId /\ c_status r' = "pending".
Proof.
  simpl. split; [reflexivity|]. split.
  - intros c Hc. apply filter_In in Hc. destruct Hc as [_ Hc].
    intros E. rewrite E, String.eqb_refl in Hc. discriminate.
  - intros r Hr Hid Hst Hhid.
    rewrite (update_customer_calls_status db _ _ _ "acknowledged")
      by reflexivity.
    simpl.
    destruct (rewritten_none
                (customer_calls_update_using db (VendorDashboard.user st))
                (fun c => c_id c =? callId)
                (call_apply {| set_status := Val "acknowledged";
                               set_acknowledged_at := Val clock;
                               set_completed_at := Omitted |})
                (customer_calls db)) as [E _].
    { intros r' Hin. destruct (c_id r' =? callId) eqn:Eid; [|reflexivity].
      apply String.eqb_eq in Eid. rewrite (Hhid r' Hin Eid). reflexivity. }
    rewrite E. assert (Hdb : with_customer_calls db (customer_calls db) = db)
      by (destruct db; reflexivity).
    rewrite Hdb. split; [reflexivity|]. exists r. auto.
Qed.

(** At the scenario's call the seller is let through and the customer, who
    owns no stall, is not. *)
Lemma call_update_iff_vendor_owner_witness :
  customer_calls_update_using Scenario.called (Some "id-seller") Scenario.the_call
  = customer_calls_update_check Scenario.called (Some "id-seller")
      (call_apply {| set_status := Val "acknowledged";
                     set_acknowledged_at := Val 200%Z;
                     set_completed_at := Omitted |} Scenario.the_call)
  /\ customer_calls_update_using Scenario.called (Some "id-customer")
       Scenario.the_call = false.
Proof.
  destruct (call_update_iff_vendor_owner Scenario.called "id-seller"
              Scenario.the_call (fun r => c_id r =? "call-1")
              {| set_status := Val "acknowledged";
                 set_acknowledged_at := Val 200%Z;
                 set_completed_at := Omitted |}
              "acknowledged" eq_refl eq_refl) as (_ & Hc & _ & Hn & _).
  split; [symmetry; exact Hc|]. apply Hn.
  intros v [<-|[<-|[]]]; simpl; intros; discriminate.
Defined.

(** C1 as worded fails: nothing keeps an identity from calling a vendor it
    owns.  The seller sends [callVendor]'s INSERT for their own stall, which
    the insert policy accepts since [customer_id] is the caller; the update
    policy then lets them through, the originating customer, and their
    [acknowledgeCall] moves the call to acknowledged. *)
Lemma customer_moves_own_call :
  map (fun c => (customer_id c, c_vendor_id c, c_status c))
    (customer_calls Scenario.self_called)
  = [("id-seller", "stall-1", "pending")]
  /\ forallb (customer_calls_update_using Scenario.self_called (Some "id-seller"))
       (customer_calls Scenario.self_called) = true
  /\ map (fun c => (customer_id c, c_vendor_id c, c_status c))
       (customer_calls
          (fst (VendorDashboard.acknowledgeCall Scenario.self_called
                  (Scenario.opened Scenario.self_called "id-seller")
                  "call-9" 200%Z)))
     = [("id-seller", "stall-1", "acknowledged")].
Proof. vm_compute. repeat split. Qed.

(** The scenario of the specification: the customer's call to the first
    stall, acknowledged by its seller at 200. *)
Lemma acknowledgeCall_marks_call_witness :
  exists c',
    nth_error
      (customer_calls
         (fst (VendorDashboard.acknowledgeCall Scenario.called
                 (Scenario.opened Scenario.called "id-seller") "call-1" 200%Z)))
      0 = Some c'
    /\ c_status c' = "acknowledged"
    /\ acknowledged_at c' = Some 200%Z
    /\ c_created_at c' = Some 100%Z.
Proof.
  destruct (acknowledgeCall_marks_call Scenario.called
              (Scenario.opened Scenario.called "id-seller") 200%Z 0
              Scenario.the_call eq_refl eq_refl eq_refl)
    as (c' & H1 & H2 & H3 & H4 & _).
  exists c'. repeat split; assumption.
Defined.

(** The session has ended with the call still on screen: the UPDATE
    reaches no row, the call stays pending, the list is emptied. *)
Lemma acknowledgeCall_forgets_call_witness :
  VendorDashboard.calls Scenario.signed_out <> []
  /\ VendorDashboard.calls
       (snd (VendorDashboard.acknowledgeCall Scenario.called
               Scenario.signed_out "call-1" 200%Z)) = []
  /\ fst (VendorDashboard.acknowledgeCall Scenario.called
            Scenario.signed_out "call-1" 200%Z) = Scenario.called.
Proof.
  destruct (acknowledgeCall_forgets_call Scenario.called Scenario.signed_out
              "call-1" 200%Z) as (Hl & _ & Hdb).
  split; [discriminate|]. split; [rewrite Hl; reflexivity|].
  apply (Hdb Scenario.the_call); [left; reflexivity|reflexivity|reflexivity|].
  intros r' [<-|[]] _. reflexivity.
Defined.

(* ================================================================== *)
(** * Profiles                                                         *)
(* ================================================================== *)

Lemma uid_is_iff (u x : uuid) : uid_is (Some u) x = true <-> x = u.
Proof.
  simpl. rewrite String.eqb_eq. split; intros; symmetry; assumption.
Qed.

Lemma select_all {Row} (w : Row -> bool) (tbl : list Row) :
  select_rows (fun _ => true) w tbl = filter w tbl.
Proof.
  unfold select_rows. apply filter_ext. intros r. apply andb_true_r.
Qed.

Lemma with_profiles_same (db : DB) : with_profiles db (profiles db) = db.
Proof. destruct db; reflexivity. Qed.

(** An UPDATE of profiles that breaks no constraint on the rows it
    reaches is accepted and rewrites those rows. *)
Lemma update_profiles_accepts (db : DB) (s : session) (now : timestamptz)
    (w : profile -> bool) (p : profile_patch) :
  (forall x, In x (profiles db) -> w x = true ->
             profiles_update_using s x = true ->
             profile_constraints p (profile_apply p x) = Ok tt) ->
  update_profiles db s now w p
  = Ok (with_profiles db
          (rewritten (profiles_update_using s) w
             (fun x => profile_touch now (profile_apply p x)) (profiles db)),
        hit (profiles_update_using s) w (profiles db)).
Proof.
  intros Hok. unfold update_profiles. rewrite update_rows_accepts.
  - destruct (rewritten_ext _ _ w
                (fun x => profile_touch now (profile_apply p x))
                (profiles db) (profiles_reach s)) as [-> ->].
    reflexivity.
  - intros x Hin Hx. apply andb_true_iff in Hx. destruct Hx as [Ew Hu].
    split; [exact Hu|]. rewrite profiles_reach in Hu.
    exact (Hok x Hin Ew Hu).
Qed.

(** C2.  For an authenticated session [u] and a profiles row [r]: both
    expressions of the UPDATE policy hold exactly when the row's id is [u];
    an UPDATE whose WHERE clause selects only rows of other ids is answered
    with zero rows changed and leaves the table as it was; an UPDATE that
    breaks no constraint rewrites the selected rows of id [u] and no other;
    a SELECT returns every row the WHERE clause keeps, whoever they belong
    to. *)
Theorem profile_update_own_row_only
    (db : DB) (u : uuid) (now : timestamptz) (w : profile -> bool)
    (p : profile_patch) (r : profile) :
  (profiles_update_using (Some u) r = true <-> p_id r = u)
  /\ (profiles_update_check (Some u) (profile_touch now (profile_apply p r))
      = true <-> p_id r = u)
  /\ ((forall x, In x (profiles db) -> w x = true -> p_id x <> u) ->
      update_profiles db (Some u) now w p = Ok (db, 0%nat))
  /\ (is_null (set_full_name p) = false ->
      is_null (set_user_type p) = false ->
      (forall x, In x (profiles db) -> w x = true -> p_id x = u ->
                 user_type_check (user_type (profile_apply p x)) = true) ->
      exists n,
        update_profiles db (Some u) now w p
        = Ok (with_profiles db
                (map (fun x => if w x && (u =? p_id x)
                               then profile_touch now (profile_apply p x)
                               else x)
                   (profiles db)), n))
  /\ select_profiles db (Some u) w = filter w (profiles db)
  /\ select_profiles db (Some u) (fun _ => true) = profiles db.
Proof.
  split; [apply uid_is_iff|]. split; [apply uid_is_iff|]. split; [|split].
  - intros Hother. rewrite update_profiles_accepts.
    + destruct (rewritten_none (profiles_update_using (Some u)) w
                  (fun x => profile_touch now (profile_apply p x))
                  (profiles db)) as [E1 E2].
      { intros x Hin. destruct (w x) eqn:Ew; [|reflexivity]. simpl.
        destruct (u =? p_id x) eqn:E; [|reflexivity].
        apply String.eqb_eq in E. exfalso.
        apply (Hother x Hin Ew). symmetry. assumption. }
      rewrite E1, E2, with_profiles_same. reflexivity.
    + intros x Hin Ew Hu. apply uid_is_iff in Hu. exfalso.
      exact (Hother x Hin Ew Hu).
  - intros Hn1 Hn2 Hok. rewrite update_profiles_accepts.
    + eexists. reflexivity.
    + intros x Hin Ew Hu. apply uid_is_iff in Hu.
      unfold profile_constraints. rewrite Hn1, Hn2.
      rewrite (Hok x Hin Ew Hu). reflexivity.
  - unfold select_profiles. simpl. split.
    + apply select_all.
    + rewrite (select_all (fun _ : profile => true)).
      induction (profiles db) as [|x l IH]; [reflexivity|].
      simpl. rewrite IH. reflexivity.
Qed.

(** The customer tries to rename the seller: zero rows, nothing changed. *)
Lemma profile_update_own_row_only_witness :
  update_profiles Scenario.town (Some "id-customer") 9%Z
    (fun x => p_id x =? "id-seller")
    {| set_full_name := Val "Mallory"; set_phone := Omitted;
       set_user_type := Omitted |}
  = Ok (Scenario.town, 0%nat).
Proof.
  destruct (profile_update_own_row_only Scenario.town "id-customer" 9%Z
              (fun x => p_id x =? "id-seller")
              {| set_full_name := Val "Mallory"; set_phone := Omitted;
                 set_user_type := Omitted |}
              Scenario.customer) as (_ & _ & H & _).
  apply H. intros x [<-|[<-|[<-|[]]]]; simpl; intros; discriminate.
Defined.

(* ================================================================== *)
(** * Subscriptions                                                    *)
(* ================================================================== *)

Ltac first_bind :=
  match goal with
  | |- exists e, bind ?r _ = Err e =>
      let E := fresh "E" in
      destruct r eqn:E; simpl; [|eexists; reflexivity]
  end.

Lemma subscription_status_check_iff (x : string) :
  subscription_status_check x = true <->
  x = "active" \/ x = "expired" \/ x = "pending".
Proof.
  unfold subscription_status_check.
  rewrite !orb_true_iff, !String.eqb_eq. tauto.
Qed.

(** C7.  A vendor's owner inserts a subscription row, naming the vendor
    and the two dates and leaving [id], [amount] and [created_at] out.
    With the status left out the row is stored with amount 5000 and status
    pending; with a status of the enumeration given it is stored with
    amount 5000 and that status; with any other status the statement fails
    on the CHECK constraint.  Whatever else an INSERT says and whoever
    sends it, a status outside active, expired, pending gets it
    rejected. *)
Theorem subscription_insert_defaults
    (db : DB) (s : session) (fresh : uuid) (now : timestamptz)
    (vid : uuid) (d1 d2 : date) (st : col string) (pay : col timestamptz) :
  in_own_vendors db s vid = true ->
  mem fresh (map s_id (subscriptions db)) = false ->
  let stored (x : string) :=
    with_subscriptions db (subscriptions db ++ [
      {| s_id := fresh; s_vendor_id := vid; start_date := d1; end_date := d2;
         amount := Some 5000%Z; s_status := x;
         payment_date := with_default None pay;
         s_created_at := Some now |} ]) in
  insert_subscription db s fresh now
    {| si_id := Omitted; si_vendor_id := Val vid;
       si_start_date := Val d1; si_end_date := Val d2;
       si_amount := Omitted; si_status := st;
       si_payment_date := pay; si_created_at := Omitted |}
  = match st with
    | Omitted => Ok (stored "pending")
    | Val x => if subscription_status_check x then Ok (stored x)
               else Err CheckViolation
    | Null => Err NotNullViolation
    end
  /\ (forall x, subscription_status_check x = true <->
                x = "active" \/ x = "expired" \/ x = "pending")
  /\ (forall db0 s0 fresh0 now0 p x,
        si_status p = Val x -> subscription_status_check x = false ->
        exists e, insert_subscription db0 s0 fresh0 now0 p = Err e).
Proof.
  intros Hown Hfresh stored. split; [|split].
  - unfold insert_subscription. simpl.
    unfold subscriptions_insert_check. rewrite Hown. simpl.
    destruct st as [| |x]; simpl; [| reflexivity |].
    + rewrite Hfresh, (in_own_vendors_mem _ _ _ Hown). reflexivity.
    + destruct (subscription_status_check x); simpl; [|reflexivity].
      rewrite Hfresh, (in_own_vendors_mem _ _ _ Hown). reflexivity.
  - apply subscription_status_check_iff.
  - intros db0 s0 fresh0 now0 p x Hp Hx. unfold insert_subscription.
    do 6 first_bind. rewrite Hp. simpl. rewrite Hx. simpl.
    eexists. reflexivity.
Qed.

(** The seller subscribes for days 10 to 40 and leaves the status out. *)
Lemma subscription_insert_defaults_witness :
  insert_subscription Scenario.town (Some "id-seller") "sub-1" 300%Z
    {| si_id := Omitted; si_vendor_id := Val "stall-1";
       si_start_date := Val 10%Z; si_end_date := Val 40%Z;
       si_amount := Omitted; si_status := Omitted;
       si_payment_date := Omitted; si_created_at := Omitted |}
  = Ok (with_subscriptions Scenario.town
          [ {| s_id := "sub-1"; s_vendor_id := "stall-1";
               start_date := 10%Z; end_date := 40%Z;
               amount := Some 5000%Z; s_status := "pending";
               payment_date := None; s_created_at := Some 300%Z |} ]).
Proof.
  destruct (subscription_insert_defaults Scenario.town (Some "id-seller")
              "sub-1" 300%Z "stall-1" 10%Z 40%Z Omitted Omitted
              eq_refl eq_refl) as [H _].
  exact H.
Defined.

(* ================================================================== *)
(** * The availability gate                                            *)
(* ================================================================== *)

Lemma in_insert_desc {Row} (key : Row -> option Z) (r y : Row) (l : list Row) :
  In y (insert_desc key r l) <-> y = r \/ In y l.
Proof.
  induction l as [|x rest IH]; simpl.
  - intuition.
  - destruct (desc_before (key r) (key x)); simpl; [intuition|].
    rewrite IH. intuition.
Qed.

Lemma in_order_desc {Row} (key : Row -> option Z) (y : Row) (l : list Row) :
  In y (order_desc key l) <-> In y l.
Proof.
  induction l as [|x rest IH]; simpl; [tauto|].
  rewrite in_insert_desc, IH. intuition.
Qed.

(** The rows the subscription query of [loadVendorData] is left with. *)
Lemma active_rows_of_owner (db : DB) (u : uuid) (v : vendor) (x : subscription) :
  In v (vendors db) -> user_id v = u ->
  (In x (select_subscriptions db (Some u)
           (fun x => (s_vendor_id x =? v_id v) && (s_status x =? "active")))
   <-> In x (subscriptions db)
       /\ (s_vendor_id x =? v_id v) && (s_status x =? "active") = true).
Proof.
  intros Hv Hu. unfold select_subscriptions, select_rows.
  rewrite filter_In, andb_true_iff. split; [tauto|].
  intros [Hin Hx]. repeat split; try assumption.
  unfold subscriptions_select. apply in_own_vendors_iff.
  exists v. repeat split; try assumption.
  apply andb_true_iff in Hx. destruct Hx as [Hx _].
  apply String.eqb_eq in Hx. symmetry. assumption.
Qed.

(** C5, amended.  Once [loadVendorData] has run for a session that owns
    one vendor, the dashboard is shown and its toggle is disabled exactly
    when no subscription row of that vendor has status active: the query
    reads the status only, the end date is not compared with any date.  A
    covering subscription therefore always keeps the toggle enabled. *)
Theorem toggle_withheld_iff_no_active_subscription
    (db : DB) (st0 : VendorDashboard.state) (u : uuid) (v : vendor)
    (today : date) :
  VendorDashboard.user st0 = Some u ->
  select_vendors db (Some u) (fun x => user_id x =? u) = [v] ->
  (exists incoming,
     VendorDashboard.render (VendorDashboard.loadVendorData db st0)
     = VendorDashboard.Dashboard (negb (Gate.has_active db (v_id v))) incoming)
  /\ (Gate.has_covering db today (v_id v) = true ->
      Gate.has_active db (v_id v) = true).
Proof.
  intros Hu Hsel. split.
  - assert (Hv : In v (vendors db) /\ user_id v = u).
    { assert (Hin : In v (select_vendors db (Some u) (fun x => user_id x =? u)))
        by (rewrite Hsel; left; reflexivity).
      unfold select_vendors, select_rows in Hin. apply filter_In in Hin.
      destruct Hin as [Hin Hb]. apply andb_true_iff in Hb.
      destruct Hb as [Hb _]. apply String.eqb_eq in Hb. auto. }
    destruct Hv as [Hv Hown].
    unfold VendorDashboard.loadVendorData. rewrite Hu, Hsel. simpl.
    unfold VendorDashboard.render, VendorDashboard.isSubscriptionExpired. simpl.
    eexists. f_equal.
    set (L := select_subscriptions db (Some u) _).
    destruct (order_desc (fun x => Some (end_date x)) L) as [|x rest] eqn:E.
    + simpl. symmetry. apply negb_true_iff.
      destruct (Gate.has_active db (v_id v)) eqn:A; [|reflexivity].
      unfold Gate.has_active in A. apply existsb_exists in A.
      destruct A as (y & Hy & Hp).
      assert (Hin : In y (order_desc (fun x => Some (end_date x)) L)).
      { apply in_order_desc. subst L.
        apply (active_rows_of_owner db u v y Hv Hown). auto. }
      rewrite E in Hin. destruct Hin.
    + simpl.
      assert (Hin : In x L).
      { apply (in_order_desc (fun x => Some (end_date x))).
        rewrite E. left. reflexivity. }
      subst L. apply (active_rows_of_owner db u v x Hv Hown) in Hin.
      destruct Hin as [Hin Hp].
      assert (A : Gate.has_active db (v_id v) = true).
      { unfold Gate.has_active. apply existsb_exists. exists x. auto. }
      rewrite A. apply andb_true_iff in Hp. destruct Hp as [_ Hp].
      rewrite Hp. reflexivity.
  - unfold Gate.has_covering, Gate.has_active. rewrite !existsb_exists.
    intros (x & Hin & Hc). exists x. split; [assumption|].
    unfold Gate.covering in Hc. apply andb_true_iff in Hc. apply Hc.
Qed.

(** On day 45 the seller's only subscription ended on day 30. *)
Lemma toggle_withheld_iff_no_active_subscription_witness :
  exists incoming,
    VendorDashboard.render (Scenario.opened Scenario.paid_once "id-seller")
    = VendorDashboard.Dashboard false incoming.
Proof.
  destruct (toggle_withheld_iff_no_active_subscription Scenario.paid_once
              {| VendorDashboard.user := Some "id-seller";
                 VendorDashboard.vendor := None;
                 VendorDashboard.calls := [];
                 VendorDashboard.subscription := None;
                 VendorDashboard.loading := true;
                 VendorDashboard.locationTracking := false |}
              "id-seller" Scenario.stall 45%Z eq_refl eq_refl) as [H _].
  exact H.
Defined.

(** C5 as worded fails: on day 45 no subscription of the stall covers the
    day, the one paid for having ended on day 30 with its status still
    active, and the toggle is offered all the same. *)
Lemma toggle_offered_without_covering_subscription :
  map (fun x => (s_vendor_id x, s_status x, end_date x))
    (subscriptions Scenario.paid_once) = [("stall-1", "active", 30%Z)]
  /\ Gate.has_covering Scenario.paid_once 45%Z "stall-1" = false
  /\ VendorDashboard.render (Scenario.opened Scenario.paid_once "id-seller")
     = VendorDashboard.Dashboard false [].
Proof. vm_compute. repeat split. Qed.

(* ================================================================== *)
(** * The vendor's flag and position                                   *)
(* ================================================================== *)

Ltac bind_inv H :=
  repeat match type of H with
         | bind ?r _ = Ok _ =>
             let E := fresh "E" in
             destruct r eqn:E; simpl in H; [|discriminate H]
         end.

(** An UPDATE of vendors fails only on a coordinate that does not fit its
    column; otherwise it rewrites the selected rows of the session. *)
Lemma update_vendors_spec (db : DB) (s : session) (now : timestamptz)
    (w : vendor -> bool) (p : vendor_patch) :
  update_vendors db s now w p =
  if fits fits_decimal_10_8 (set_current_latitude p)
     && fits fits_decimal_11_8 (set_current_longitude p)
  then Ok (with_vendors db
             (rewritten (vendors_update_using s) w
                (fun r => vendor_touch now (vendor_apply p r)) (vendors db)),
           hit (vendors_update_using s) w (vendors db))
  else Err NumericOverflow.
Proof.
  unfold update_vendors.
  destruct (fits fits_decimal_10_8 (set_current_latitude p)
            && fits fits_decimal_11_8 (set_current_longitude p));
    simpl; [|reflexivity].
  rewrite update_rows_accepts.
  - destruct (rewritten_ext _ _ w (fun r => vendor_touch now (vendor_apply p r))
                (vendors db) (vendors_reach s)) as [-> ->].
    reflexivity.
  - intros r _ Hr. apply andb_true_iff in Hr. split; [apply Hr|reflexivity].
Qed.

Lemma insert_customer_call_frame (db db' : DB) (s : session) (fresh : uuid)
    (now : timestamptz) (p : call_insert) :
  insert_customer_call db s fresh now p = Ok db' ->
  profiles db' = profiles db /\ vendors db' = vendors db
  /\ subscriptions db' = subscriptions db
  /\ exists c, customer_calls db' = (customer_calls db ++ [c])%list
               /\ with_default (Some "pending") (ci_status p) = Some (c_status c).
Proof.
  unfold insert_customer_call. intros H. bind_inv H.
  inversion H; subst; clear H. simpl. repeat split.
  eexists. split; [reflexivity|]. simpl.
  destruct (with_default (Some "pending") (ci_status p)); simpl in *;
    congruence.
Qed.

Lemma insert_subscription_frame (db db' : DB) (s : session) (fresh : uuid)
    (now : timestamptz) (p : subscription_insert) :
  insert_subscription db s fresh now p = Ok db' ->
  profiles db' = profiles db /\ vendors db' = vendors db
  /\ customer_calls db' = customer_calls db.
Proof.
  unfold insert_subscription. intros H. bind_inv H.
  inversion H; subst; clear H. simpl. repeat split.
Qed.

Lemma insert_vendor_frame (db db' : DB) (s : session) (fresh : uuid)
    (now : timestamptz) (p : vendor_insert) :
  insert_vendor db s fresh now p = Ok db' ->
  profiles db' = profiles db /\ subscriptions db' = subscriptions db
  /\ customer_calls db' = customer_calls db
  /\ exists v, vendors db' = (vendors db ++ [v])%list
               /\ is_active v = with_default (Some false) (vi_is_active p).
Proof.
  unfold insert_vendor. intros H. bind_inv H.
  inversion H; subst; clear H. simpl. repeat split.
  eexists. split; reflexivity.
Qed.

(** C8.  When the dashboard is tracking, [toggleLocationTracking] sends
    [is_active = false] alone: every vendors row keeps its latitude, its
    longitude and its last-location timestamp, the row of the dashboard's
    vendor, owned by the session, is stored with the flag false, and the
    dashboard stops tracking. *)
Theorem deactivation_keeps_coordinates
    (db : DB) (st : VendorDashboard.state) (v : vendor)
    (position : option coords) (clock now : timestamptz)
    (i : nat) (r : vendor) :
  VendorDashboard.vendor st = Some v ->
  VendorDashboard.locationTracking st = true ->
  nth_error (vendors db) i = Some r ->
  let out := VendorDashboard.toggleLocationTracking db st position clock now in
  exists r',
    nth_error (vendors (fst out)) i = Some r'
    /\ current_latitude r' = current_latitude r
    /\ current_longitude r' = current_longitude r
    /\ last_location_update r' = last_location_update r
    /\ (v_id r = v_id v -> VendorDashboard.user st = Some (user_id r) ->
        is_active r' = Some false)
    /\ VendorDashboard.locationTracking (snd out) = false.
Proof.
  intros Hv Ht Hi. unfold VendorDashboard.toggleLocationTracking.
  rewrite Hv, Ht. simpl. rewrite update_vendors_spec. simpl.
  rewrite rewritten_nth, Hi. simpl.
  destruct ((v_id r =? v_id v) && vendors_update_using (VendorDashboard.user st) r)
    eqn:E.
  - eexists. split; [reflexivity|]. simpl. repeat split.
  - exists r. split; [reflexivity|]. repeat split.
    intros Hid Hu. rewrite Hid, String.eqb_refl in E.
    unfold vendors_update_using in E. rewrite Hu in E. simpl in E.
    rewrite String.eqb_refl in E. discriminate.
Qed.

(** The stall's row after the seller's dashboard, tracking, is toggled. *)
Lemma deactivation_keeps_coordinates_witness :
  exists r',
    nth_error
      (vendors
         (fst (VendorDashboard.toggleLocationTracking Scenario.town
                 (Scenario.opened Scenario.town "id-seller") None 70%Z 71%Z)))
      0 = Some r'
    /\ current_latitude r' = Some (-621000000)%Z
    /\ current_longitude r' = Some 10682000000%Z
    /\ last_location_update r' = Some 50%Z
    /\ is_active r' = Some false.
Proof.
  destruct (deactivation_keeps_coordinates Scenario.town
              (Scenario.opened Scenario.town "id-seller") Scenario.stall
              None 70%Z 71%Z 0 Scenario.stall eq_refl eq_refl eq_refl)
    as (r' & H0 & H1 & H2 & H3 & H4 & _).
  exists r'. repeat split; try assumption.
  apply H4; reflexivity.
Defined.

Lemma rewritten_row {Row} (pu w : Row -> bool) (f : Row -> Row)
    (tbl : list Row) (i : nat) (r' : Row) :
  nth_error (rewritten pu w f tbl) i = Some r' ->
  exists r, nth_error tbl i = Some r /\ (r' = r \/ r' = f r).
Proof.
  rewrite rewritten_nth. destruct (nth_error tbl i) as [r|]; [|discriminate].
  simpl. intros H. exists r. split; [reflexivity|].
  destruct (w r && pu r); inversion H; auto.
Qed.

(** C6.  Take any write path of the application and any vendors row
    whose flag is true after it and was not true before it (or that did not
    exist before).  Then the step is the activating branch of
    [toggleLocationTracking], run with a position, and the row carries that
    position's latitude and longitude and the browser's clock as location
    timestamp: flag, coordinates and timestamp were written by the one
    UPDATE.  No other path, the position watcher and the setup form
    included, turns the flag on. *)
Theorem activation_writes_coordinates
    (db : DB) (a : App.action) (i : nat) (r' : vendor) :
  nth_error (vendors (App.step db a)) i = Some r' ->
  is_active r' = Some true ->
  (forall r, nth_error (vendors db) i = Some r -> is_active r <> Some true) ->
  exists st latitude longitude clock now,
    a = App.ToggleLocationTracking st (Some (latitude, longitude)) clock now
    /\ VendorDashboard.locationTracking st = false
    /\ current_latitude r' = Some latitude
    /\ current_longitude r' = Some longitude
    /\ last_location_update r' = Some clock.
Proof.
  intros Hn Ha Hold.
  assert (Hsame : forall t, nth_error t i = Some r' -> t = vendors db -> False).
  { intros t Ht ->. exact (Hold r' Ht Ha). }
  destruct a as [st vendorId fresh now | st callId clock
                | st position clock now | st position clock now
                | s userId bn bt ds fresh now
                | s vendorId d1 d2 clock fresh now]; simpl in Hn.
  - exfalso. unfold CustomerDashboard.callVendor in Hn.
    destruct (CustomerDashboard.user st) as [u|];
      [|exact (Hsame _ Hn eq_refl)].
    destruct (CustomerDashboard.userLocation st) as [[lat lng]|];
      [|exact (Hsame _ Hn eq_refl)].
    simpl in Hn.
    match type of Hn with
    | context [committed db ?r _] => destruct r as [db'|e] eqn:E
    end; simpl in Hn; [|exact (Hsame _ Hn eq_refl)].
    apply insert_customer_call_frame in E. destruct E as (_ & Hv & _).
    exact (Hsame _ Hn Hv).
  - exfalso. unfold VendorDashboard.acknowledgeCall in Hn. simpl in Hn.
    rewrite (update_customer_calls_status db _ _ _ "acknowledged") in Hn
      by reflexivity.
    exact (Hsame _ Hn eq_refl).
  - unfold VendorDashboard.toggleLocationTracking in Hn.
    destruct (VendorDashboard.vendor st) as [v|];
      [|exfalso; exact (Hsame _ Hn eq_refl)].
    destruct (VendorDashboard.locationTracking st) eqn:T; simpl in Hn.
    + exfalso. rewrite update_vendors_spec in Hn. simpl in Hn.
      apply rewritten_row in Hn. destruct Hn as (r & Hr & [->| ->]).
      * exact (Hold r Hr Ha).
      * discriminate Ha.
    + destruct position as [[latitude longitude]|];
        [|exfalso; exact (Hsame _ Hn eq_refl)].
      simpl in Hn. rewrite update_vendors_spec in Hn. simpl in Hn.
      destruct (fits_decimal_10_8 latitude && fits_decimal_11_8 longitude);
        simpl in Hn; [|exfalso; exact (Hsame _ Hn eq_refl)].
      apply rewritten_row in Hn. destruct Hn as (r & Hr & [->| ->]).
      * exfalso. exact (Hold r Hr Ha).
      * exists st, latitude, longitude, clock, now. repeat split. exact T.
  - exfalso. unfold VendorDashboard.startLocationUpdates in Hn.
    destruct (VendorDashboard.vendor st) as [v|];
      [|exact (Hsame _ Hn eq_refl)].
    rewrite update_vendors_spec in Hn. simpl in Hn.
    destruct (fits_decimal_10_8 (fst position)
              && fits_decimal_11_8 (snd position));
      simpl in Hn; [|exact (Hsame _ Hn eq_refl)].
    apply rewritten_row in Hn. destruct Hn as (r & Hr & [->| ->]).
    + exact (Hold r Hr Ha).
    + exact (Hold r Hr Ha).
  - exfalso. unfold VendorDashboard.handleSubmit in Hn. simpl in Hn.
    match type of Hn with
    | context [committed db ?r _] => destruct r as [db'|e] eqn:E
    end; simpl in Hn; [|exact (Hsame _ Hn eq_refl)].
    apply insert_vendor_frame in E.
    destruct E as (_ & _ & _ & v & Hv & Hact). rewrite Hv in Hn.
    destruct (Nat.lt_ge_cases i (List.length (vendors db))) as [Hlt|Hge].
    + rewrite nth_error_app1 in Hn by assumption.
      exact (Hsame _ Hn eq_refl).
    + rewrite nth_error_app2 in Hn by assumption.
      destruct (i - List.length (vendors db))%nat as [|k]; simpl in Hn.
      * inversion Hn; subst. simpl in Hact. congruence.
      * destruct k; discriminate Hn.
  - exfalso. unfold SubscriptionManager.handlePayment in Hn. simpl in Hn.
    match type of Hn with
    | context [committed db ?r _] => destruct r as [db'|e] eqn:E
    end; simpl in Hn; [|exact (Hsame _ Hn eq_refl)].
    apply insert_subscription_frame in E. destruct E as (_ & Hv & _).
    exact (Hsame _ Hn Hv).
Qed.

(** The rival goes on air: the row shows the position and the clock. *)
Lemma activation_writes_coordinates_witness :
  exists st latitude longitude clock now,
    App.ToggleLocationTracking (Scenario.opened Scenario.town "id-rival")
      (Some ((-630000000)%Z, 10690000000%Z)) 80%Z 81%Z
    = App.ToggleLocationTracking st (Some (latitude, longitude)) clock now
    /\ VendorDashboard.locationTracking st = false
    /\ current_latitude Scenario.rival_stall_on_air = Some latitude
    /\ current_longitude Scenario.rival_stall_on_air = Some longitude
    /\ last_location_update Scenario.rival_stall_on_air = Some clock.
Proof.
  apply (activation_writes_coordinates Scenario.town
           (App.ToggleLocationTracking (Scenario.opened Scenario.town "id-rival")
              (Some ((-630000000)%Z, 10690000000%Z)) 80%Z 81%Z)
           1 Scenario.rival_stall_on_air eq_refl eq_refl).
  intros r E. inversion E. discriminate.
Defined.

(* ================================================================== *)
(** * The call lifecycle over time                                     *)
(* ================================================================== *)

Import Lifecycle.

Lemma find_snoc {A} (f : A -> bool) (l : list A) (x : A) :
  find f (l ++ [x]) =
  match find f l with
  | Some y => Some y
  | None => if f x then Some x else None
  end.
Proof.
  induction l as [|y l IH]; simpl; [reflexivity|].
  destruct (f y); [reflexivity|exact IH].
Qed.

Lemma find_map_same {A} (f : A -> bool) (g : A -> A) (l : list A) :
  (forall x, f (g x) = f x) ->
  find f (map g l) = option_map g (find f l).
Proof.
  intros Hg. induction l as [|y l IH]; simpl; [reflexivity|].
  rewrite Hg. destruct (f y); [reflexivity|exact IH].
Qed.

Lemma status_of_stored (db : DB) (id : uuid) (s : string) :
  status_of db id = Some s ->
  exists c, In c (customer_calls db) /\ c_status c = s.
Proof.
  unfold status_of. destruct (find _ _) as [c|] eqn:E; [|discriminate].
  simpl. intros H. inversion H. apply find_some in E. exists c. tauto.
Qed.

(** What one [acknowledgeCall] does to the tables. *)
Lemma acknowledgeCall_tables (db : DB) (st : VendorDashboard.state)
    (callId : uuid) (clock : timestamptz) :
  fst (VendorDashboard.acknowledgeCall db st callId clock)
  = with_customer_calls db
      (rewritten (customer_calls_update_using db (VendorDashboard.user st))
         (fun c => c_id c =? callId)
         (call_apply {| set_status := Val "acknowledged";
                        set_acknowledged_at := Val clock;
                        set_completed_at := Omitted |})
         (customer_calls db)).
Proof.
  unfold VendorDashboard.acknowledgeCall. simpl.
  rewrite (update_customer_calls_status db _ _ _ "acknowledged")
    by reflexivity.
  reflexivity.
Qed.

(** What one [callVendor] does to the tables. *)
Lemma callVendor_tables (db : DB) (st : CustomerDashboard.state)
    (vendorId fresh : uuid) (now : timestamptz) :
  let db' := fst (CustomerDashboard.callVendor db st vendorId fresh now) in
  db' = db
  \/ exists c, customer_calls db' = (customer_calls db ++ [c])%list
               /\ c_status c = "pending".
Proof.
  unfold CustomerDashboard.callVendor.
  destruct (CustomerDashboard.user st) as [u|]; [|left; reflexivity].
  destruct (CustomerDashboard.userLocation st) as [[lat lng]|];
    [|left; reflexivity].
  simpl.
  match goal with
  | |- context [committed db ?r _] => destruct r as [db'|e] eqn:E
  end; simpl; [|left; reflexivity].
  right. apply insert_customer_call_frame in E.
  destruct E as (_ & _ & _ & c & Hc & Hs). exists c. split; [exact Hc|].
  simpl in Hs. congruence.
Qed.

(** The other write paths leave the calls alone. *)
Lemma other_paths_keep_calls (db : DB) (a : App.action) :
  match a with
  | App.CallVendor _ _ _ _ | App.AcknowledgeCall _ _ _ => True
  | _ => customer_calls (App.step db a) = customer_calls db
  end.
Proof.
  destruct a as [st vendorId fresh now | st callId clock
                | st position clock now | st position clock now
                | s userId bn bt ds fresh now
                | s vendorId d1 d2 clock fresh now]; simpl; trivial.
  - unfold VendorDashboard.toggleLocationTracking.
    destruct (VendorDashboard.vendor st) as [v|]; [|reflexivity].
    destruct (VendorDashboard.locationTracking st); simpl.
    + rewrite update_vendors_spec. reflexivity.
    + destruct position as [[la lo]|]; [|reflexivity]. simpl.
      rewrite update_vendors_spec. simpl.
      destruct (fits_decimal_10_8 la && fits_decimal_11_8 lo); reflexivity.
  - unfold VendorDashboard.startLocationUpdates.
    destruct (VendorDashboard.vendor st) as [v|]; [|reflexivity].
    rewrite update_vendors_spec. simpl.
    destruct (fits_decimal_10_8 (fst position)
              && fits_decimal_11_8 (snd position)); reflexivity.
  - match goal with
    | |- context [committed db ?r _] => destruct r as [db'|e] eqn:E
    end; simpl; [|reflexivity].
    apply insert_vendor_frame in E. tauto.
  - match goal with
    | |- context [committed db ?r _] => destruct r as [db'|e] eqn:E
    end; simpl; [|reflexivity].
    apply insert_subscription_frame in E. tauto.
Qed.

(** One step of the application on the status of one call: a stored call
    stays stored, with its status or with acknowledged; a new call
    comes in pending. *)
Lemma app_step_status (db : DB) (a : App.action) (id : uuid) :
  match status_of db id with
  | Some s => status_of (App.step db a) id = Some s
              \/ status_of (App.step db a) id = Some "acknowledged"
  | None => status_of (App.step db a) id = None
            \/ status_of (App.step db a) id = Some "pending"
  end.
Proof.
  assert (Hkeep : customer_calls (App.step db a) = customer_calls db ->
                  status_of (App.step db a) id = status_of db id).
  { unfold status_of. intros ->. reflexivity. }
  pose proof (other_paths_keep_calls db a) as Hoth.
  destruct a as [st vendorId fresh now | st callId clock
                | st position clock now | st position clock now
                | s userId bn bt ds fresh now
                | s vendorId d1 d2 clock fresh now];
    try (rewrite (Hkeep Hoth); destruct (status_of db id); left; reflexivity).
  - clear Hkeep Hoth. unfold App.step.
    pose proof (callVendor_tables db st vendorId fresh now) as H.
    simpl in H.
    remember (fst (CustomerDashboard.callVendor db st vendorId fresh now))
      as db' eqn:Edb. clear Edb.
    destruct H as [E|(c & Hc & Hs)].
    + rewrite E. destruct (status_of db id); left; reflexivity.
    + unfold status_of. rewrite Hc, find_snoc.
      destruct (find (fun c0 => c_id c0 =? id) (customer_calls db)); simpl.
      * left. reflexivity.
      * destruct (c_id c =? id); simpl; [right; congruence|left; reflexivity].
  - clear Hkeep Hoth. unfold App.step. rewrite acknowledgeCall_tables.
    unfold status_of. simpl. unfold rewritten.
    rewrite find_map_same.
    + destruct (find (fun c => c_id c =? id) (customer_calls db)) as [c|];
        simpl; [|left; reflexivity].
      destruct ((c_id c =? callId)
                && customer_calls_update_using db (VendorDashboard.user st) c);
        [right|left]; reflexivity.
    + intros x. destruct ((c_id x =? callId) && _); reflexivity.
Qed.

Lemma app_step_none_completed (db : DB) (a : App.action) :
  none_completed db -> none_completed (App.step db a).
Proof.
  intros Hdb. pose proof (other_paths_keep_calls db a) as Hoth.
  destruct a as [st vendorId fresh now | st callId clock
                | st position clock now | st position clock now
                | s userId bn bt ds fresh now
                | s vendorId d1 d2 clock fresh now];
    try (unfold none_completed; rewrite Hoth; exact Hdb).
  - unfold App.step.
    pose proof (callVendor_tables db st vendorId fresh now) as H.
    simpl in H.
    remember (fst (CustomerDashboard.callVendor db st vendorId fresh now))
      as db' eqn:Edb. clear Edb.
    destruct H as [E|(c & Hc & Hs)].
    + rewrite E. exact Hdb.
    + intros x Hx. rewrite Hc in Hx. apply in_app_or in Hx.
      destruct Hx as [Hx|[<-|[]]]; [apply Hdb; exact Hx|left; exact Hs].
  - unfold App.step. rewrite acknowledgeCall_tables. intros x Hx.
    simpl in Hx. unfold rewritten in Hx. apply in_map_iff in Hx.
    destruct Hx as (c & <- & Hc).
    destruct ((c_id c =? callId) && _); [right; reflexivity|apply Hdb; exact Hc].
Qed.

Lemma observed_cons {Op} (step : DB -> Op -> DB) (db : DB) (o : Op)
    (rest : list Op) (id : uuid) :
  observed step db (o :: rest) id
  = ((match status_of db id with
      | Some s => [s]
      | None => []
      end) ++ observed step (step db o) rest id)%list.
Proof. reflexivity. Qed.

Lemma collapse_acknowledged_some (m : nat) :
  collapse (repeat "acknowledged" (S m)) = ["acknowledged"].
Proof.
  induction m as [|m IH]; [reflexivity|].
  change (collapse (repeat "acknowledged" (S (S m))))
    with (collapse (repeat "acknowledged" (S m))).
  exact IH.
Qed.

Lemma collapse_acknowledged (m : nat) :
  collapse (repeat "acknowledged" m) = []
  \/ collapse (repeat "acknowledged" m) = ["acknowledged"].
Proof.
  destruct m as [|m]; [left; reflexivity|right].
  apply collapse_acknowledged_some.
Qed.

Lemma collapse_pending (n m : nat) :
  collapse (repeat "pending" (S n) ++ repeat "acknowledged" m)
  = "pending" :: collapse (repeat "acknowledged" m).
Proof.
  induction n as [|n IH].
  - destruct m as [|m]; reflexivity.
  - change (collapse (repeat "pending" (S (S n)) ++ repeat "acknowledged" m))
      with (collapse (repeat "pending" (S n) ++ repeat "acknowledged" m)).
    exact IH.
Qed.

Lemma two_phases_in_order (n m : nat) :
  is_subseq (collapse (repeat "pending" n ++ repeat "acknowledged" m))
    lifecycle = true.
Proof.
  destruct n as [|n].
  - simpl. destruct (collapse_acknowledged m) as [-> | ->]; reflexivity.
  - rewrite collapse_pending.
    destruct (collapse_acknowledged m) as [-> | ->]; reflexivity.
Qed.

Section OneCall.
Variable id : uuid.

Lemma acknowledged_stays (ops : list App.action) :
  forall db, status_of db id = Some "acknowledged" ->
             exists m, observed App.step db ops id = repeat "acknowledged" m.
Proof.
  induction ops as [|a ops IH]; intros db H.
  - exists 1%nat. unfold observed. simpl. rewrite H. reflexivity.
  - rewrite observed_cons, H.
    pose proof (app_step_status db a id) as Hs. rewrite H in Hs.
    assert (H' : status_of (App.step db a) id = Some "acknowledged")
      by (destruct Hs; assumption).
    destruct (IH _ H') as [m Hm]. exists (S m). rewrite Hm. reflexivity.
Qed.

Lemma pending_then_acknowledged (ops : list App.action) :
  forall db, none_completed db ->
             exists n m, observed App.step db ops id
                         = (repeat "pending" n ++ repeat "acknowledged" m)%list.
Proof.
  induction ops as [|a ops IH]; intros db Hdb.
  - unfold observed. simpl. destruct (status_of db id) as [s|] eqn:E.
    + apply status_of_stored in E. destruct E as (c & Hin & <-).
      destruct (Hdb c Hin) as [-> | ->].
      * exists 1%nat, 0%nat. reflexivity.
      * exists 0%nat, 1%nat. reflexivity.
    + exists 0%nat, 0%nat. reflexivity.
  - destruct (status_of db id) as [s|] eqn:E.
    + pose proof E as E'. apply status_of_stored in E'.
      destruct E' as (c & Hin & <-).
      destruct (Hdb c Hin) as [Hc|Hc]; rewrite Hc in E.
      * rewrite observed_cons, E.
        destruct (IH _ (app_step_none_completed db a Hdb)) as (n & m & H).
        exists (S n), m. rewrite H. reflexivity.
      * destruct (acknowledged_stays (a :: ops) db E) as [m H].
        exists 0%nat, m. exact H.
    + rewrite observed_cons, E.
      destruct (IH _ (app_step_none_completed db a Hdb)) as (n & m & H).
      exists n, m. exact H.
Qed.

End OneCall.

(** C3, amended.  Start from tables in which no call is completed and
    let the application's write paths run in any number and order, with
    any sessions.  The status values observed of any one call, successive
    repetitions dropped, form a subsequence of pending, acknowledged,
    completed; each single step leaves a stored call's status as it is or
    moves it from pending to acknowledged.  The schema by itself puts no
    order on the three values. *)
Theorem app_call_status_never_reverts
    (db : DB) (ops : list App.action) (id : uuid) :
  none_completed db ->
  is_subseq (collapse (observed App.step db ops id)) lifecycle = true
  /\ forall a s,
       status_of db id = Some s ->
       status_of (App.step db a) id = Some s
       \/ (s = "pending" /\ status_of (App.step db a) id = Some "acknowledged").
Proof.
  intros Hdb. split.
  - destruct (pending_then_acknowledged id ops db Hdb) as (n & m & ->).
    apply two_phases_in_order.
  - intros a s E. pose proof (app_step_status db a id) as H.
    rewrite E in H. apply status_of_stored in E.
    destruct E as (c & Hin & <-).
    destruct H as [H|H]; [left; exact H|].
    destruct (Hdb c Hin) as [Hc|Hc].
    + right. split; assumption.
    + left. rewrite Hc. exact H.
Qed.

(** The call is placed, acknowledged by the seller, and acknowledged
    again by a session that has ended. *)
Lemma app_call_status_never_reverts_witness :
  is_subseq
    (collapse
       (observed App.step Scenario.town
          [App.CallVendor Scenario.at_home "stall-1" "call-1" 100%Z;
           App.AcknowledgeCall (Scenario.opened Scenario.called "id-seller")
             "call-1" 200%Z;
           App.AcknowledgeCall Scenario.signed_out "call-1" 210%Z]
          "call-1"))
    lifecycle = true.
Proof.
  apply (app_call_status_never_reverts Scenario.town).
  intros c [].
Defined.

(** C3 as worded fails: the policy and the CHECK constraint accept any
    of the three values from the vendor's owner.  The seller acknowledges
    the scenario's call and sets it back to pending; both statements are
    accepted and the call is observed pending, acknowledged, pending. *)
Lemma owner_reopens_call :
  failed (Sql.exec Scenario.called Scenario.acknowledge) = false
  /\ failed (Sql.exec (Sql.step Scenario.called Scenario.acknowledge)
               Scenario.reopen) = false
  /\ observed Sql.step Scenario.called
       [Scenario.acknowledge; Scenario.reopen] "call-1"
     = ["pending"; "acknowledged"; "pending"]
  /\ is_subseq
       (collapse
          (observed Sql.step Scenario.called
             [Scenario.acknowledge; Scenario.reopen] "call-1"))
       lifecycle = false.
Proof. vm_compute. repeat split. Qed.

(** The same reversal through the dashboard: [acknowledgeCall] names the
    call by id alone, so a call the seller has completed goes back to
    acknowledged when an old list entry is confirmed. *)
Lemma acknowledgeCall_reopens_completed :
  let completed := Sql.step (Sql.step Scenario.called Scenario.acknowledge)
                     Scenario.complete in
  status_of completed "call-1" = Some "completed"
  /\ status_of
       (fst (VendorDashboard.acknowledgeCall completed
               (Scenario.opened Scenario.called "id-seller") "call-1" 400%Z))
       "call-1" = Some "acknowledged".
Proof. vm_compute. split; reflexivity. Qed.

(* ================================================================== *)
(** * What any statement can do                                        *)
(* ================================================================== *)

Lemma guard_ok (b : bool) (e : db_error) (u : unit) :
  guard b e = Ok u -> b = true.
Proof. destruct b; [reflexivity|discriminate]. Qed.

Section UpdateSound.
Context {Row : Type}.
Variables (pu wc : Row -> bool) (cs : Row -> result unit).
Variables (w : Row -> bool) (f : Row -> Row).

Lemma update_rows_sound (tbl tbl' : list Row) (n : nat) :
  update_rows pu wc cs w f tbl = Ok (tbl', n) ->
  forall r, In r tbl -> w r && pu r = true ->
            wc (f r) = true /\ cs (f r) = Ok tt.
Proof.
  revert tbl' n. induction tbl as [|x rest IH]; intros tbl' n H r Hin Hr.
  - destruct Hin.
  - simpl in H. destruct (w x && pu x) eqn:Ex.
    + destruct (wc (f x)) eqn:Ewc; simpl in H; [|discriminate].
      destruct (cs (f x)) as [[]|] eqn:Ecs; simpl in H; [|discriminate].
      destruct (update_rows pu wc cs w f rest) as [[t m]|] eqn:R;
        simpl in H; [|discriminate].
      destruct Hin as [<-|Hin]; [split; assumption|].
      exact (IH _ _ eq_refl r Hin Hr).
    + destruct (update_rows pu wc cs w f rest) as [[t m]|] eqn:R;
        simpl in H; [|discriminate].
      destruct Hin as [<-|Hin]; [congruence|].
      exact (IH _ _ eq_refl r Hin Hr).
Qed.

End UpdateSound.

(** An accepted INSERT into customer_calls: the one row it adds. *)
Lemma insert_customer_call_row (db db' : DB) (s : session) (fresh : uuid)
    (now : timestamptz) (p : call_insert) :
  insert_customer_call db s fresh now p = Ok db' ->
  exists c,
    db' = with_customer_calls db (customer_calls db ++ [c])
    /\ uid_is s (customer_id c) = true
    /\ call_status_check (c_status c) = true
    /\ mem (c_id c) (map c_id (customer_calls db)) = false
    /\ mem (customer_id c) (map p_id (profiles db)) = true
    /\ mem (c_vendor_id c) (map v_id (vendors db)) = true.
Proof.
  unfold insert_customer_call. intros H. bind_inv H.
  inversion H; subst; clear H. eexists. split; [reflexivity|]. simpl.
  repeat match goal with
         | G : guard _ _ = Ok _ |- _ => apply guard_ok in G
         end.
  destruct (with_default None (ci_customer_id p)) as [cu|]; [|discriminate].
  simpl in *. inversion E2; subst.
  apply negb_true_iff in E8. auto.
Qed.

(** An accepted INSERT into vendors. *)
Lemma insert_vendor_row (db db' : DB) (s : session) (fresh : uuid)
    (now : timestamptz) (p : vendor_insert) :
  insert_vendor db s fresh now p = Ok db' ->
  exists v,
    db' = with_vendors db (vendors db ++ [v])
    /\ uid_is s (user_id v) = true
    /\ mem (v_id v) (map v_id (vendors db)) = false
    /\ mem (user_id v) (map user_id (vendors db)) = false
    /\ mem (user_id v) (map p_id (profiles db)) = true.
Proof.
  unfold insert_vendor. intros H. bind_inv H.
  inversion H; subst; clear H. eexists. split; [reflexivity|]. simpl.
  repeat match goal with
         | G : guard _ _ = Ok _ |- _ => apply guard_ok in G
         end.
  destruct (with_default None (vi_user_id p)) as [cu|]; [|discriminate].
  simpl in *. inversion E2; subst.
  apply negb_true_iff in E5. apply negb_true_iff in E6. auto.
Qed.

(** An accepted INSERT into subscriptions. *)
Lemma insert_subscription_row (db db' : DB) (s : session) (fresh : uuid)
    (now : timestamptz) (p : subscription_insert) :
  insert_subscription db s fresh now p = Ok db' ->
  exists x,
    db' = with_subscriptions db (subscriptions db ++ [x])
    /\ in_own_vendors db s (s_vendor_id x) = true
    /\ subscription_status_check (s_status x) = true
    /\ mem (s_id x) (map s_id (subscriptions db)) = false
    /\ mem (s_vendor_id x) (map v_id (vendors db)) = true.
Proof.
  unfold insert_subscription. intros H. bind_inv H.
  inversion H; subst; clear H. eexists. split; [reflexivity|]. simpl.
  repeat match goal with
         | G : guard _ _ = Ok _ |- _ => apply guard_ok in G
         end.
  destruct (with_default None (si_vendor_id p)) as [cu|]; [|discriminate].
  simpl in *. inversion E2; subst.
  apply negb_true_iff in E7. auto.
Qed.

Lemma update_profiles_shape (db db' : DB) (s : session) (now : timestamptz)
    (w : profile -> bool) (p : profile_patch) (n : nat) :
  update_profiles db s now w p = Ok (db', n) ->
  db' = with_profiles db
          (rewritten (profiles_update_using s) w
             (fun r => profile_touch now (profile_apply p r)) (profiles db))
  /\ forall r, In r (profiles db) -> w r = true ->
               profiles_update_using s r = true ->
               user_type_check (user_type (profile_apply p r)) = true.
Proof.
  unfold update_profiles. intros H.
  destruct (update_rows _ _ _ _ _ _) as [[t m]|] eqn:E; simpl in H;
    [|discriminate].
  inversion H; subst; clear H. split.
  - apply update_rows_ok in E. destruct E as [-> _].
    destruct (rewritten_ext _ _ w
                (fun r => profile_touch now (profile_apply p r))
                (profiles db) (profiles_reach s)) as [-> _].
    reflexivity.
  - intros r Hin Hw Hu.
    destruct (update_rows_sound _ _ _ _ _ _ _ _ E r Hin) as [_ Hc].
    { rewrite Hw, profiles_reach, Hu. reflexivity. }
    unfold profile_constraints in Hc.
    destruct (guard (negb _) NotNullViolation); simpl in Hc; [|discriminate].
    apply guard_ok in Hc. exact Hc.
Qed.

Lemma update_customer_calls_shape (db db' : DB) (s : session)
    (w : customer_call -> bool) (p : call_patch) (n : nat) :
  update_customer_calls db s w p = Ok (db', n) ->
  db' = with_customer_calls db
          (rewritten (customer_calls_update_using db s) w (call_apply p)
             (customer_calls db))
  /\ forall r, In r (customer_calls db) -> w r = true ->
               customer_calls_update_using db s r = true ->
               call_status_check (c_status (call_apply p r)) = true.
Proof.
  unfold update_customer_calls. intros H.
  destruct (update_rows _ _ _ _ _ _) as [[t m]|] eqn:E; simpl in H;
    [|discriminate].
  inversion H; subst; clear H. split.
  - apply update_rows_ok in E. destruct E as [-> _].
    destruct (rewritten_ext _ _ w (call_apply p) (customer_calls db)
                (customer_calls_reach db s)) as [-> _].
    reflexivity.
  - intros r Hin Hw Hu.
    destruct (update_rows_sound _ _ _ _ _ _ _ _ E r Hin) as [_ Hc].
    { rewrite Hw, customer_calls_reach, Hu. reflexivity. }
    unfold call_constraints in Hc.
    destruct (guard (negb _) NotNullViolation); simpl in Hc; [|discriminate].
    apply guard_ok in Hc. exact Hc.
Qed.

(** Every statement either changes nothing, or rewrites the rows of one
    table that it selects and its session may update, or appends one row
    that passed the insert policy and the constraints. *)
Lemma sql_step_effect (db : DB) (q : Sql.request) :
  Sql.step db q = db
  \/ (exists w p,
        Sql.what q = Sql.UpdateProfiles w p
        /\ Sql.step db q
           = with_profiles db
               (rewritten (profiles_update_using (Sql.who q)) w
                  (fun r => profile_touch (Sql.now q) (profile_apply p r))
                  (profiles db))
        /\ forall r, In r (profiles db) -> w r = true ->
                     profiles_update_using (Sql.who q) r = true ->
                     user_type_check (user_type (profile_apply p r)) = true)
  \/ (exists w p,
        Sql.what q = Sql.UpdateVendors w p
        /\ Sql.step db q
           = with_vendors db
               (rewritten (vendors_update_using (Sql.who q)) w
                  (fun r => vendor_touch (Sql.now q) (vendor_apply p r))
                  (vendors db)))
  \/ (exists v,
        Sql.step db q = with_vendors db (vendors db ++ [v])
        /\ uid_is (Sql.who q) (user_id v) = true
        /\ mem (v_id v) (map v_id (vendors db)) = false
        /\ mem (user_id v) (map user_id (vendors db)) = false
        /\ mem (user_id v) (map p_id (profiles db)) = true)
  \/ (exists x,
        Sql.step db q = with_subscriptions db (subscriptions db ++ [x])
        /\ in_own_vendors db (Sql.who q) (s_vendor_id x) = true
        /\ subscription_status_check (s_status x) = true
        /\ mem (s_id x) (map s_id (subscriptions db)) = false
        /\ mem (s_vendor_id x) (map v_id (vendors db)) = true)
  \/ (exists c,
        Sql.step db q = with_customer_calls db (customer_calls db ++ [c])
        /\ uid_is (Sql.who q) (customer_id c) = true
        /\ call_status_check (c_status c) = true
        /\ mem (c_id c) (map c_id (customer_calls db)) = false
        /\ mem (customer_id c) (map p_id (profiles db)) = true
        /\ mem (c_vendor_id c) (map v_id (vendors db)) = true)
  \/ (exists w p,
        Sql.what q = Sql.UpdateCustomerCalls w p
        /\ Sql.step db q
           = with_customer_calls db
               (rewritten (customer_calls_update_using db (Sql.who q)) w
                  (call_apply p) (customer_calls db))
        /\ forall r, In r (customer_calls db) -> w r = true ->
                     customer_calls_update_using db (Sql.who q) r = true ->
                     call_status_check (c_status (call_apply p r)) = true).
Proof.
  unfold Sql.step, Sql.exec.
  destruct q as [s fr nw [w p|w p|p|p|p|w p]]; simpl.
  - destruct (update_profiles db s nw w p) as [[db' n]|] eqn:E; simpl;
      [|left; reflexivity].
    right; left. exists w, p. split; [reflexivity|].
    apply update_profiles_shape in E. exact E.
  - rewrite update_vendors_spec.
    destruct (fits fits_decimal_10_8 (set_current_latitude p)
              && fits fits_decimal_11_8 (set_current_longitude p));
      simpl; [|left; reflexivity].
    right; right; left. exists w, p. split; reflexivity.
  - destruct (insert_vendor db s fr nw p) as [db'|] eqn:E; simpl;
      [|left; reflexivity].
    right; right; right; left. apply insert_vendor_row in E. exact E.
  - destruct (insert_subscription db s fr nw p) as [db'|] eqn:E; simpl;
      [|left; reflexivity].
    right; right; right; right; left.
    apply insert_subscription_row in E. exact E.
  - destruct (insert_customer_call db s fr nw p) as [db'|] eqn:E; simpl;
      [|left; reflexivity].
    right; right; right; right; right; left.
    apply insert_customer_call_row in E. exact E.
  - destruct (update_customer_calls db s w p) as [[db' n]|] eqn:E; simpl;
      [|left; reflexivity].
    right; right; right; right; right; right. exists w, p.
    split; [reflexivity|]. apply update_customer_calls_shape in E. exact E.
Qed.

(** What an accepted UPDATE with any SET list leaves in its table. *)
Lemma any_update_profiles_shape (db db' : DB) (s : session)
    (now : timestamptz) (w : profile -> bool) (f : profile -> profile)
    (n : nat) :
  AnySet.update_profiles db s now w f = Ok (db', n) ->
  db' = with_profiles db
          (rewritten (profiles_update_using s) w
             (fun r => profile_touch now (f r)) (profiles db)).
Proof.
  unfold AnySet.update_profiles. intros H.
  destruct (update_rows _ _ _ _ _ _) as [[t m]|] eqn:E; simpl in H;
    [|discriminate].
  bind_inv H. inversion H; subst; clear H.
  apply update_rows_ok in E. destruct E as [-> _].
  destruct (rewritten_ext _ _ w (fun r => profile_touch now (f r))
              (profiles db) (profiles_reach s)) as [-> _].
  reflexivity.
Qed.

Lemma any_update_vendors_shape (db db' : DB) (s : session)
    (now : timestamptz) (w : vendor -> bool) (f : vendor -> vendor)
    (n : nat) :
  AnySet.update_vendors db s now w f = Ok (db', n) ->
  db' = with_vendors db
          (rewritten (vendors_update_using s) w
             (fun r => vendor_touch now (f r)) (vendors db)).
Proof.
  unfold AnySet.update_vendors. intros H.
  destruct (update_rows _ _ _ _ _ _) as [[t m]|] eqn:E; simpl in H;
    [|discriminate].
  bind_inv H. inversion H; subst; clear H.
  apply update_rows_ok in E. destruct E as [-> _].
  destruct (rewritten_ext _ _ w (fun r => vendor_touch now (f r))
              (vendors db) (vendors_reach s)) as [-> _].
  reflexivity.
Qed.

Lemma any_update_customer_calls_shape (db db' : DB) (s : session)
    (w : customer_call -> bool) (f : customer_call -> customer_call)
    (n : nat) :
  AnySet.update_customer_calls db s w f = Ok (db', n) ->
  db' = with_customer_calls db
          (rewritten (customer_calls_update_using db s) w f
             (customer_calls db)).
Proof.
  unfold AnySet.update_customer_calls. intros H.
  destruct (update_rows _ _ _ _ _ _) as [[t m]|] eqn:E; simpl in H;
    [|discriminate].
  bind_inv H. inversion H; subst; clear H.
  apply update_rows_ok in E. destruct E as [-> _].
  destruct (rewritten_ext _ _ w f (customer_calls db)
              (customer_calls_reach db s)) as [-> _].
  reflexivity.
Qed.

(** X1.  Whatever UPDATE a session sends to profiles, vendors or
    customer_calls, and whatever its SET list assigns (keys, owners and
    timestamps included), if the statement is accepted then every row that
    is not the session's stands where it stood, exactly as it was: a
    profile with another id, a vendor with another owner, a call to a
    vendor the session does not own.  Vendor A's UPDATE never changes
    vendor B's row. *)
Theorem rows_of_others_untouched
    (db db' : DB) (s : session) (now : timestamptz) (n i : nat) :
  (forall w set r,
     AnySet.update_profiles db s now w set = Ok (db', n) ->
     nth_error (profiles db) i = Some r ->
     uid_is s (p_id r) = false ->
     nth_error (profiles db') i = Some r)
  /\ (forall w set r,
        AnySet.update_vendors db s now w set = Ok (db', n) ->
        nth_error (vendors db) i = Some r ->
        uid_is s (user_id r) = false ->
        nth_error (vendors db') i = Some r)
  /\ (forall w set r,
        AnySet.update_customer_calls db s w set = Ok (db', n) ->
        nth_error (customer_calls db) i = Some r ->
        in_own_vendors db s (c_vendor_id r) = false ->
        nth_error (customer_calls db') i = Some r).
Proof.
  (split; [|split]); intros w f r H Hi Hn.
  - apply any_update_profiles_shape in H. subst db'. simpl.
    rewrite rewritten_nth, Hi. simpl. unfold profiles_update_using.
    rewrite Hn, andb_false_r. reflexivity.
  - apply any_update_vendors_shape in H. subst db'. simpl.
    rewrite rewritten_nth, Hi. simpl. unfold vendors_update_using.
    rewrite Hn, andb_false_r. reflexivity.
  - apply any_update_customer_calls_shape in H. subst db'. simpl.
    rewrite rewritten_nth, Hi. simpl. unfold customer_calls_update_using.
    rewrite Hn, andb_false_r. reflexivity.
Qed.

(** The seller retags every call in sight: the call to the rival's stall
    stays as the customer filed it. *)
Lemma rows_of_others_untouched_witness :
  match AnySet.update_customer_calls AnySet.two_calls (Some "id-seller")
          (fun _ => true) AnySet.retag_call with
  | Ok (db', changed) =>
      changed = 1%nat
      /\ nth_error (customer_calls db') 1
         = nth_error (customer_calls AnySet.two_calls) 1
  | Err _ => False
  end.
Proof.
  destruct (AnySet.update_customer_calls AnySet.two_calls (Some "id-seller")
              (fun _ => true) AnySet.retag_call) as [[db' n]|e] eqn:E.
  - split; [vm_compute in E; congruence|].
    destruct (rows_of_others_untouched AnySet.two_calls db'
                (Some "id-seller") 0%Z n 1) as (_ & _ & H).
    apply (H _ _ _ E); reflexivity.
  - vm_compute in E. discriminate E.
Defined.

Lemma nth_error_snoc_new {A} (l : list A) (x y : A) (i : nat) :
  nth_error (l ++ [x]) i = Some y -> nth_error l i = None -> y = x.
Proof.
  intros H Hn. apply nth_error_None in Hn.
  rewrite nth_error_app2 in H by exact Hn.
  destruct (i - List.length l)%nat as [|k]; simpl in H.
  - congruence.
  - destruct k; discriminate H.
Qed.

Lemma rewritten_no_new {Row} (pu w : Row -> bool) (f : Row -> Row)
    (tbl : list Row) (i : nat) (y : Row) :
  nth_error (rewritten pu w f tbl) i = Some y -> nth_error tbl i <> None.
Proof.
  rewrite rewritten_nth. destruct (nth_error tbl i); [discriminate|].
  discriminate.
Qed.

(** X2.  A row that a statement adds is the sender's own: a new vendor
    has the session's user as owner, a new call has it as customer, a new
    subscription is for a vendor the session owns.  No session can file a
    row in another identity's name. *)
Theorem new_rows_belong_to_sender (db : DB) (q : Sql.request) (i : nat) :
  (forall v, nth_error (vendors (Sql.step db q)) i = Some v ->
             nth_error (vendors db) i = None ->
             Sql.who q = Some (user_id v))
  /\ (forall c, nth_error (customer_calls (Sql.step db q)) i = Some c ->
                nth_error (customer_calls db) i = None ->
                Sql.who q = Some (customer_id c))
  /\ (forall x, nth_error (subscriptions (Sql.step db q)) i = Some x ->
                nth_error (subscriptions db) i = None ->
                exists v, In v (vendors db) /\ v_id v = s_vendor_id x
                          /\ Sql.who q = Some (user_id v)).
Proof.
  assert (Hwho : forall x, uid_is (Sql.who q) x = true -> Sql.who q = Some x).
  { intros x H. destruct (Sql.who q) as [u|]; [|discriminate].
    apply uid_is_iff in H. congruence. }
  destruct (sql_step_effect db q)
    as [E|[(w & p & _ & E & _)|[(w & p & _ & E)|[(v & E & Hv & _)
       |[(x & E & Hx & _)|[(c & E & Hc & _)|(w & p & _ & E & _)]]]]]];
    rewrite E; clear E; simpl;
    (split; [|split]); intros y Hy; try congruence;
    try (intros Hn; exfalso; congruence);
    try (intros Hn; exfalso; exact (rewritten_no_new _ _ _ _ _ _ Hy Hn)).
  - intros Hn. rewrite (nth_error_snoc_new _ _ _ _ Hy Hn). apply Hwho, Hv.
  - intros Hn. rewrite (nth_error_snoc_new _ _ _ _ Hy Hn).
    destruct (Sql.who q) as [u|];
      [|rewrite in_own_vendors_anon in Hx; discriminate].
    apply in_own_vendors_iff in Hx. destruct Hx as (v & Hin & Hid & Hu).
    exists v. repeat split; [assumption|assumption|congruence].
  - intros Hn. rewrite (nth_error_snoc_new _ _ _ _ Hy Hn). apply Hwho, Hc.
Qed.

(* ================================================================== *)
(** * What the tables keep                                             *)
(* ================================================================== *)

Lemma mem_true_iff (i : uuid) (l : list uuid) : mem i l = true <-> In i l.
Proof.
  unfold mem. rewrite existsb_exists. split.
  - intros (j & Hj & E). apply String.eqb_eq in E. subst j. exact Hj.
  - intros H. exists i. split; [exact H|apply String.eqb_refl].
Qed.

Lemma mem_false_iff (i : uuid) (l : list uuid) : mem i l = false <-> ~ In i l.
Proof.
  rewrite <- mem_true_iff. destruct (mem i l); split; intros H.
  - discriminate H.
  - exfalso. apply H. reflexivity.
  - intros H'. discriminate H'.
  - reflexivity.
Qed.

Lemma mem_snoc (i j : uuid) (l : list uuid) :
  mem i l = true -> mem i (l ++ [j]) = true.
Proof.
  rewrite !mem_true_iff. intros H. apply in_or_app. left. exact H.
Qed.

Lemma NoDup_snoc {A} (l : list A) (x : A) :
  NoDup l -> ~ In x l -> NoDup (l ++ [x]).
Proof.
  intros Hl Hx. apply NoDup_app; [exact Hl|repeat constructor; intros []|].
  intros y Hy [<-|[]]. exact (Hx Hy).
Qed.

Lemma map_rewritten {Row K} (key : Row -> K) (pu w : Row -> bool)
    (f : Row -> Row) (tbl : list Row) :
  (forall r, key (f r) = key r) ->
  map key (rewritten pu w f tbl) = map key tbl.
Proof.
  intros Hk. unfold rewritten. rewrite map_map. apply map_ext.
  intros r. destruct (w r && pu r); [apply Hk|reflexivity].
Qed.

Lemma in_rewritten {Row} (pu w : Row -> bool) (f : Row -> Row)
    (tbl : list Row) (r' : Row) :
  In r' (rewritten pu w f tbl) ->
  exists r, In r tbl /\ (r' = r \/ (w r = true /\ pu r = true /\ r' = f r)).
Proof.
  unfold rewritten. rewrite in_map_iff. intros (r & E & Hin).
  exists r. split; [exact Hin|].
  destruct (w r && pu r) eqn:Ew; [|left; congruence].
  apply andb_true_iff in Ew. right. intuition congruence.
Qed.

Lemma statement_keeps_keys (db : DB) (q : Sql.request) :
  Integrity.keys_unique db -> Integrity.keys_unique (Sql.step db q).
Proof.
  intros (Hp & Hv & Hu & Hs & Hc). unfold Integrity.keys_unique.
  destruct (sql_step_effect db q)
    as [E|[(w & p & _ & E & _)|[(w & p & _ & E)|[(v & E & _ & Hf & Hg & _)
       |[(x & E & _ & _ & Hf & _)|[(c & E & _ & _ & Hf & _)
       |(w & p & _ & E & _)]]]]]];
    rewrite E; clear E; simpl; rewrite ?map_rewritten by reflexivity;
    rewrite ?map_app; simpl; repeat split; try assumption;
    apply NoDup_snoc; try assumption; apply mem_false_iff; assumption.
Qed.

Lemma statement_keeps_checks (db : DB) (q : Sql.request) :
  Integrity.checks_hold db -> Integrity.checks_hold (Sql.step db q).
Proof.
  intros (Hp & Hs & Hc). unfold Integrity.checks_hold.
  destruct (sql_step_effect db q)
    as [E|[(w & p & _ & E & Hk)|[(w & p & _ & E)|[(v & E & _)
       |[(x & E & _ & Hk & _)|[(c & E & _ & Hk & _)
       |(w & p & _ & E & Hk)]]]]]];
    rewrite E; clear E; simpl; repeat split; try assumption.
  - intros r' Hr. apply in_rewritten in Hr.
    destruct Hr as (r & Hin & [->|(Hw & Hu & ->)]); [exact (Hp r Hin)|].
    exact (Hk r Hin Hw Hu).
  - intros r' Hr. apply in_app_or in Hr.
    destruct Hr as [Hr|[<-|[]]]; [exact (Hs r' Hr)|exact Hk].
  - intros r' Hr. apply in_app_or in Hr.
    destruct Hr as [Hr|[<-|[]]]; [exact (Hc r' Hr)|exact Hk].
  - intros r' Hr. apply in_rewritten in Hr.
    destruct Hr as (r & Hin & [->|(Hw & Hu & ->)]); [exact (Hc r Hin)|].
    exact (Hk r Hin Hw Hu).
Qed.

Lemma statement_keeps_references (db : DB) (q : Sql.request) :
  Integrity.references_hold db -> Integrity.references_hold (Sql.step db q).
Proof.
  intros (Hv & Hs & Hc). unfold Integrity.references_hold.
  destruct (sql_step_effect db q)
    as [E|[(w & p & _ & E & _)|[(w & p & _ & E)|[(v & E & _ & _ & _ & Hk)
       |[(x & E & _ & _ & _ & Hk)|[(c & E & _ & _ & _ & Hk1 & Hk2)
       |(w & p & _ & E & _)]]]]]];
    rewrite E; clear E; simpl; rewrite ?map_rewritten by reflexivity;
    rewrite ?map_app; simpl;
    (split; [|split]); intros r' Hr; try split;
    try (apply in_rewritten in Hr;
         destruct Hr as (r & Hin & [->|(_ & _ & ->)]); simpl);
    try (apply in_app_or in Hr; destruct Hr as [Hr|[<-|[]]]);
    try apply mem_snoc;
    first [ assumption
          | apply Hv; assumption
          | apply Hs; assumption
          | apply Hc; assumption ].
Qed.

Lemma run_keeps (P : DB -> Prop) :
  (forall db q, P db -> P (Sql.step db q)) ->
  forall qs db, P db -> P (fold_left Sql.step qs db).
Proof.
  intros Hstep qs. induction qs as [|q qs IH]; intros db H; [exact H|].
  simpl. apply IH, Hstep, H.
Qed.

(** X3.  Keys stay keys: if no two rows of a table share their id and no
    two vendors share their owner, the same holds after any sequence of
    statements from any sessions.  One identity never comes to own two
    vendors. *)
Theorem keys_stay_unique (db : DB) (qs : list Sql.request) :
  Integrity.keys_unique db ->
  Integrity.keys_unique (fold_left Sql.step qs db).
Proof. apply run_keeps. exact statement_keeps_keys. Qed.

(** X4.  The stored [user_type] and both stored [status] columns stay
    within their enumerations through any sequence of statements. *)
Theorem checks_stay_true (db : DB) (qs : list Sql.request) :
  Integrity.checks_hold db ->
  Integrity.checks_hold (fold_left Sql.step qs db).
Proof. apply run_keeps. exact statement_keeps_checks. Qed.

(** X5.  References stay valid through any sequence of statements:
    every vendor's owner has a profile, every subscription and every call
    names a stored vendor, every call's customer has a profile. *)
Theorem references_stay_valid (db : DB) (qs : list Sql.request) :
  Integrity.references_hold db ->
  Integrity.references_hold (fold_left Sql.step qs db).
Proof. apply run_keeps. exact statement_keeps_references. Qed.

Lemma keys_stay_unique_witness :
  Integrity.keys_unique (fold_left Sql.step Cases.busy_hour Scenario.called).
Proof.
  apply (keys_stay_unique Scenario.called Cases.busy_hour).
  unfold Integrity.keys_unique. simpl.
  repeat split; repeat constructor; simpl; intuition discriminate.
Defined.

Lemma checks_stay_true_witness :
  Integrity.checks_hold (fold_left Sql.step Cases.busy_hour Scenario.called).
Proof.
  apply (checks_stay_true Scenario.called Cases.busy_hour).
  unfold Integrity.checks_hold.
  (split; [|split]); intros r Hr; simpl in Hr;
    repeat (destruct Hr as [<-|Hr]; [reflexivity|]); destruct Hr.
Defined.

Lemma references_stay_valid_witness :
  Integrity.references_hold (fold_left Sql.step Cases.busy_hour Scenario.called).
Proof.
  apply (references_stay_valid Scenario.called Cases.busy_hour).
  unfold Integrity.references_hold.
  (split; [|split]); intros r Hr; simpl in Hr;
    repeat (destruct Hr as [<-|Hr]; [try split; reflexivity|]); destruct Hr.
Defined.

(* ================================================================== *)
(** * The handlers as statements                                       *)
(* ================================================================== *)

Lemma committed_update {A} (db : DB) (r : result (DB * A)) :
  committed db r fst
  = committed db ('(db', _) <- r ;; Ok db') (fun db' => db').
Proof. destruct r as [[d n]|]; reflexivity. Qed.

(** Each handler reaches the tables through one statement of its
    component's session, or not at all. *)
Lemma handler_statement (db : DB) (a : App.action) :
  App.step db a = db
  \/ exists q,
       App.step db a = Sql.step db q
       /\ Sql.who q
          = match a with
            | App.CallVendor st _ _ _ => CustomerDashboard.user st
            | App.AcknowledgeCall st _ _ => VendorDashboard.user st
            | App.ToggleLocationTracking st _ _ _ => VendorDashboard.user st
            | App.WatchPosition st _ _ _ => VendorDashboard.user st
            | App.HandleSubmit s _ _ _ _ _ _ => s
            | App.HandlePayment s _ _ _ _ _ _ => s
            end.
Proof.
  destruct a as [st vendorId fresh now | st callId clock
                | st position clock now | st position clock now
                | s userId bn bt ds fresh now
                | s vendorId d1 d2 clock fresh now]; simpl.
  - unfold CustomerDashboard.callVendor.
    destruct (CustomerDashboard.user st) as [u|] eqn:Eu; [|left; reflexivity].
    destruct (CustomerDashboard.userLocation st) as [[lat lng]|];
      [|left; reflexivity].
    right. simpl.
    eexists {| Sql.who := Some u; Sql.fresh := fresh; Sql.now := now;
               Sql.what := Sql.InsertCustomerCall _ |}.
    split; reflexivity.
  - right. unfold VendorDashboard.acknowledgeCall. simpl.
    eexists {| Sql.who := VendorDashboard.user st; Sql.fresh := callId;
               Sql.now := clock; Sql.what := Sql.UpdateCustomerCalls _ _ |}.
    split; [apply committed_update|reflexivity].
  - unfold VendorDashboard.toggleLocationTracking.
    destruct (VendorDashboard.vendor st) as [v|]; [|left; reflexivity].
    destruct (VendorDashboard.locationTracking st); simpl.
    + right.
      eexists {| Sql.who := VendorDashboard.user st; Sql.fresh := v_id v;
                 Sql.now := now; Sql.what := Sql.UpdateVendors _ _ |}.
      split; [apply committed_update|reflexivity].
    + destruct position as [[la lo]|]; [|left; reflexivity]. right. simpl.
      eexists {| Sql.who := VendorDashboard.user st; Sql.fresh := v_id v;
                 Sql.now := now; Sql.what := Sql.UpdateVendors _ _ |}.
      split; [apply committed_update|reflexivity].
  - unfold VendorDashboard.startLocationUpdates.
    destruct (VendorDashboard.vendor st) as [v|]; [|left; reflexivity].
    right.
    eexists {| Sql.who := VendorDashboard.user st; Sql.fresh := v_id v;
               Sql.now := now; Sql.what := Sql.UpdateVendors _ _ |}.
    split; [apply committed_update|reflexivity].
  - right.
    eexists {| Sql.who := s; Sql.fresh := fresh; Sql.now := now;
               Sql.what := Sql.InsertVendor _ |}.
    split; reflexivity.
  - right.
    eexists {| Sql.who := s; Sql.fresh := fresh; Sql.now := now;
               Sql.what := Sql.InsertSubscription _ |}.
    split; reflexivity.
Qed.

(* ================================================================== *)
(** * What the vendor's dashboard shows                                *)
(* ================================================================== *)

Lemma select_vendors_all (db : DB) (u : uuid) (w : vendor -> bool) :
  select_vendors db (Some u) w = filter w (vendors db).
Proof. unfold select_vendors. simpl. apply select_all. Qed.

Lemma filter_none {A} (f : A -> bool) (l : list A) :
  (forall x, In x l -> f x = false) -> filter f l = [].
Proof.
  induction l as [|x l IH]; intros H; [reflexivity|]. simpl.
  rewrite (H x (or_introl eq_refl)). apply IH. intros y Hy. apply H.
  right. exact Hy.
Qed.

(** Under UNIQUE (user_id) the lookup by owner finds the owner's row
    alone. *)
Lemma own_vendor_alone (l : list vendor) (v : vendor) :
  NoDup (map user_id l) -> In v l ->
  filter (fun x => user_id x =? user_id v) l = [v].
Proof.
  induction l as [|x l IH]; intros Hnd Hin; [destruct Hin|].
  simpl in Hnd. inversion Hnd as [|? ? Hx Hl]; subst. simpl.
  destruct Hin as [->|Hin].
  - rewrite String.eqb_refl. f_equal. apply filter_none.
    intros y Hy. apply String.eqb_neq. intros E. apply Hx.
    rewrite <- E. apply in_map. exact Hy.
  - destruct (user_id x =? user_id v) eqn:E.
    + apply String.eqb_eq in E. exfalso. apply Hx. rewrite E.
      apply in_map. exact Hin.
    + apply IH; assumption.
Qed.

(** What [loadVendorData] leaves when the session's vendor is found. *)
Lemma loadVendorData_found (db : DB) (st0 : VendorDashboard.state)
    (u : uuid) (v : vendor) :
  VendorDashboard.user st0 = Some u ->
  filter (fun x => user_id x =? u) (vendors db) = [v] ->
  VendorDashboard.loadVendorData db st0
  = {| VendorDashboard.user := Some u;
       VendorDashboard.vendor := Some v;
       VendorDashboard.calls :=
         map (VendorDashboard.embed_profile db (Some u))
           (order_desc c_created_at
              (select_customer_calls db (Some u)
                 (fun c => (c_vendor_id c =? v_id v)
                           && (c_status c =? "pending"))));
       VendorDashboard.subscription :=
         option_map
           (fun x => {| VendorDashboard.status := s_status x;
                        VendorDashboard.end_date := end_date x |})
           (maybeSingle
              (limit 1
                 (order_desc (fun x => Some (end_date x))
                    (select_subscriptions db (Some u)
                       (fun x => (s_vendor_id x =? v_id v)
                                 && (s_status x =? "active"))))));
       VendorDashboard.loading := false;
       VendorDashboard.locationTracking :=
         VendorDashboard.truthy (is_active v) |}.
Proof.
  intros Hu Hv. unfold VendorDashboard.loadVendorData.
  rewrite Hu, select_vendors_all, Hv. reflexivity.
Qed.

(** X7.  With user ids unique among the vendors, a signed-in owner's
    dashboard always finds the owner's vendor row and leaves the loading
    screen for the dashboard; a signed-in user who owns no vendor, on a
    dashboard that holds none, is shown the setup form. *)
Theorem owner_finds_own_vendor
    (db : DB) (st0 : VendorDashboard.state) (u : uuid) :
  VendorDashboard.user st0 = Some u ->
  NoDup (map user_id (vendors db)) ->
  (forall v, In v (vendors db) -> user_id v = u ->
     VendorDashboard.vendor (VendorDashboard.loadVendorData db st0) = Some v
     /\ exists d incoming,
          VendorDashboard.render (VendorDashboard.loadVendorData db st0)
          = VendorDashboard.Dashboard d incoming)
  /\ ((forall v, In v (vendors db) -> user_id v <> u) ->
      VendorDashboard.vendor st0 = None ->
      VendorDashboard.render (VendorDashboard.loadVendorData db st0)
      = VendorDashboard.Setup).
Proof.
  intros Hu Hnd. split.
  - intros v Hin Hv.
    rewrite (loadVendorData_found db st0 u v Hu).
    + split; [reflexivity|]. eexists. eexists. reflexivity.
    + rewrite <- Hv. apply own_vendor_alone; assumption.
  - intros Hnone Hv0. unfold VendorDashboard.loadVendorData.
    rewrite Hu, select_vendors_all, filter_none.
    + simpl. unfold VendorDashboard.render. simpl. rewrite Hv0. reflexivity.
    + intros x Hx. apply String.eqb_neq. apply Hnone. exact Hx.
Qed.

Lemma owner_finds_own_vendor_witness :
  VendorDashboard.vendor
    (VendorDashboard.loadVendorData Scenario.called
       (Cases.fresh_dashboard "id-rival"))
  = Some Scenario.rival_stall.
Proof.
  destruct (owner_finds_own_vendor Scenario.called
              (Cases.fresh_dashboard "id-rival") "id-rival" eq_refl)
    as [H _].
  - simpl. repeat constructor; simpl; intuition discriminate.
  - apply (H Scenario.rival_stall); [right; left; reflexivity|reflexivity].
Defined.

Lemma map_row_embed (db : DB) (s : session) (l : list customer_call) :
  map VendorDashboard.row (map (VendorDashboard.embed_profile db s) l) = l.
Proof.
  rewrite map_map. simpl. apply map_id.
Qed.

(** The rows the call query of [loadVendorData] is left with. *)
Lemma pending_rows_of_owner (db : DB) (u : uuid) (v : vendor)
    (r : customer_call) :
  In v (vendors db) -> user_id v = u ->
  (In r (select_customer_calls db (Some u)
           (fun c => (c_vendor_id c =? v_id v) && (c_status c =? "pending")))
   <-> In r (customer_calls db)
       /\ c_vendor_id r = v_id v /\ c_status r = "pending").
Proof.
  intros Hv Hu. unfold select_customer_calls, select_rows.
  rewrite filter_In, !andb_true_iff, !String.eqb_eq. split; [tauto|].
  intros (Hin & Hid & Hs). repeat split; try assumption.
  unfold customer_calls_select. apply orb_true_iff. right.
  apply in_own_vendors_iff. exists v. auto.
Qed.

(** X8.  After [loadVendorData] the list on the owner's dashboard holds
    exactly the stored calls that name the owner's vendor and are pending:
    no call to another vendor, no acknowledged or completed call, and no
    pending call of the vendor is missing. *)
Theorem dashboard_lists_own_pending_calls
    (db : DB) (st0 : VendorDashboard.state) (u : uuid) (v : vendor)
    (r : customer_call) :
  VendorDashboard.user st0 = Some u ->
  NoDup (map user_id (vendors db)) ->
  In v (vendors db) -> user_id v = u ->
  (In r (map VendorDashboard.row
           (VendorDashboard.calls (VendorDashboard.loadVendorData db st0)))
   <-> In r (customer_calls db)
       /\ c_vendor_id r = v_id v /\ c_status r = "pending").
Proof.
  intros Hu Hnd Hv Hown.
  rewrite (loadVendorData_found db st0 u v Hu)
    by (rewrite <- Hown; apply own_vendor_alone; assumption).
  simpl. rewrite map_row_embed, in_order_desc.
  apply pending_rows_of_owner; assumption.
Qed.

Lemma dashboard_lists_own_pending_calls_witness :
  In Scenario.the_call
    (map VendorDashboard.row
       (VendorDashboard.calls
          (VendorDashboard.loadVendorData Scenario.called
             (Cases.fresh_dashboard "id-seller")))).
Proof.
  apply (dashboard_lists_own_pending_calls Scenario.called
           (Cases.fresh_dashboard "id-seller") "id-seller" Scenario.stall
           Scenario.the_call eq_refl).
  - simpl. repeat constructor; simpl; intuition discriminate.
  - left. reflexivity.
  - reflexivity.
  - repeat split. left. reflexivity.
Defined.

(** Every statement keeps the owner's vendor row findable: user ids stay
    unique and the row keeps its id and its owner. *)
Lemma statement_keeps_owner (db : DB) (q : Sql.request) (u vid : uuid) :
  NoDup (map user_id (vendors db))
  /\ (exists v, In v (vendors db) /\ v_id v = vid /\ user_id v = u) ->
  NoDup (map user_id (vendors (Sql.step db q)))
  /\ (exists v, In v (vendors (Sql.step db q)) /\ v_id v = vid /\ user_id v = u).
Proof.
  intros (Hnd & (v & Hv & Hid & Hown)).
  destruct (sql_step_effect db q)
    as [E|[(w & p & _ & E & _)|[(w & p & _ & E)|[(v' & E & _ & _ & Hg & _)
       |[(x' & E & _)|[(c & E & _)|(w & p & _ & E & _)]]]]]];
    rewrite E; clear E; simpl;
    try (split; [exact Hnd|exists v; auto]).
  - rewrite map_rewritten by reflexivity. split; [exact Hnd|].
    eexists. split.
    + unfold rewritten. apply in_map. exact Hv.
    + destruct (w v && _); simpl; auto.
  - rewrite map_app. simpl. split.
    + apply NoDup_snoc; [exact Hnd|]. apply mem_false_iff. exact Hg.
    + exists v. repeat split; auto. apply in_or_app. left. exact Hv.
Qed.

(** A stored call that is not pending for the vendor [vid] stays stored
    and stays so under every handler: no handler sets a status to
    pending, moves a call to another vendor, or files a call under a used
    id. *)
Lemma app_step_keeps_settled (db : DB) (a : App.action) (callId vid : uuid) :
  (exists r, In r (customer_calls db) /\ c_id r = callId)
  /\ (forall r, In r (customer_calls db) -> c_id r = callId ->
                c_status r <> "pending" \/ c_vendor_id r <> vid) ->
  (exists r, In r (customer_calls (App.step db a)) /\ c_id r = callId)
  /\ (forall r, In r (customer_calls (App.step db a)) -> c_id r = callId ->
                c_status r <> "pending" \/ c_vendor_id r <> vid).
Proof.
  intros H. pose proof (other_paths_keep_calls db a) as Hoth.
  destruct a as [st vendorId fresh now | st cid clock
                | st position clock now | st position clock now
                | s userId bn bt ds fresh now
                | s vendorId d1 d2 clock fresh now];
    try (rewrite Hoth; exact H); clear Hoth;
    destruct H as ((r & Hr & Hid) & Hall).
  - unfold App.step, CustomerDashboard.callVendor.
    destruct (CustomerDashboard.user st) as [u|];
      [|split; [exists r; auto|exact Hall]].
    destruct (CustomerDashboard.userLocation st) as [[lat lng]|];
      [|split; [exists r; auto|exact Hall]].
    simpl.
    match goal with
    | |- context [committed db ?i _] => destruct i as [db'|e] eqn:E
    end; simpl; [|split; [exists r; auto|exact Hall]].
    apply insert_customer_call_row in E.
    destruct E as (c & -> & _ & _ & Hnew & _). simpl. split.
    + exists r. split; [apply in_or_app; left; exact Hr|exact Hid].
    + intros x Hx Hxid. apply in_app_or in Hx.
      destruct Hx as [Hx|[<-|[]]]; [exact (Hall x Hx Hxid)|].
      exfalso. apply mem_false_iff in Hnew. apply Hnew.
      rewrite Hxid, <- Hid. apply in_map. exact Hr.
  - unfold App.step. rewrite acknowledgeCall_tables. simpl.
    unfold rewritten. split.
    + eexists. split; [apply in_map; exact Hr|].
      destruct ((c_id r =? cid) && _); exact Hid.
    + intros x Hx Hxid. apply in_map_iff in Hx.
      destruct Hx as (c & <- & Hc).
      destruct ((c_id c =? cid) && _);
        [left; simpl; discriminate|exact (Hall c Hc Hxid)].
Qed.

(** X9.  Once [acknowledgeCall] has run under the owner's session on a
    stored call, no [loadVendorData] of that owner lists the call again,
    whatever the handlers of the dashboards, under any sessions and in any
    number and order, have written in between.  (A statement sent to the
    tables outside the handlers may set the status back to pending.) *)
Theorem acknowledged_call_stays_away
    (db : DB) (st st0 : VendorDashboard.state) (u : uuid) (v : vendor)
    (r : customer_call) (callId : uuid) (clock : timestamptz)
    (ops : list App.action) :
  VendorDashboard.user st = Some u ->
  VendorDashboard.user st0 = Some u ->
  NoDup (map user_id (vendors db)) ->
  In v (vendors db) -> user_id v = u ->
  In r (customer_calls db) -> c_id r = callId ->
  forall c,
    In c (VendorDashboard.calls
            (VendorDashboard.loadVendorData
               (fold_left App.step ops
                  (fst (VendorDashboard.acknowledgeCall db st callId clock)))
               st0)) ->
    c_id (VendorDashboard.row c) <> callId.
Proof.
  intros Hs Hu Hnd Hv Hown Hr Hid.
  set (db1 := fst (VendorDashboard.acknowledgeCall db st callId clock)).
  assert (J1 : (NoDup (map user_id (vendors db1))
                /\ exists v', In v' (vendors db1)
                              /\ v_id v' = v_id v /\ user_id v' = u)
               /\ (exists x, In x (customer_calls db1) /\ c_id x = callId)
               /\ (forall x, In x (customer_calls db1) -> c_id x = callId ->
                             c_status x <> "pending"
                             \/ c_vendor_id x <> v_id v)).
  { unfold db1. rewrite acknowledgeCall_tables. simpl. split.
    { split; [exact Hnd|exists v; auto]. }
    unfold rewritten. split.
    - eexists. split; [apply in_map; exact Hr|].
      destruct ((c_id r =? callId) && _); exact Hid.
    - intros x Hx Hxid. apply in_map_iff in Hx.
      destruct Hx as (c & <- & Hc). rewrite Hs.
      destruct (c_id c =? callId) eqn:Ec; simpl.
      + destruct (customer_calls_update_using db (Some u) c) eqn:Ereach.
        * left. simpl. discriminate.
        * right. intros Hvid. unfold customer_calls_update_using in Ereach.
          assert (Hown' : in_own_vendors db (Some u) (c_vendor_id c) = true)
            by (apply in_own_vendors_iff; exists v; auto).
          rewrite Hown' in Ereach. discriminate Ereach.
      + simpl in Hxid. apply String.eqb_neq in Ec. contradiction. }
  clearbody db1. clear Hnd Hv Hr.
  revert db1 J1. induction ops as [|a ops IH]; intros db1 J1.
  - simpl. destruct J1 as ((Hnd1 & v' & Hv' & Hid' & Hown')
                           & _ & Hall).
    intros c Hc E.
    rewrite (loadVendorData_found db1 st0 u v' Hu) in Hc
      by (rewrite <- Hown'; apply own_vendor_alone; assumption).
    simpl in Hc. apply (in_map VendorDashboard.row) in Hc.
    rewrite map_row_embed, in_order_desc in Hc.
    apply pending_rows_of_owner in Hc; [|exact Hv'|exact Hown'].
    destruct Hc as (Hin & Hvid & Hst).
    destruct (Hall _ Hin E) as [Hn|Hn]; [exact (Hn Hst)|].
    apply Hn. rewrite Hvid. exact Hid'.
  - simpl. apply IH. destruct J1 as (Jv & Jc). split.
    + destruct (handler_statement db1 a) as [->|(q & -> & _)]; [exact Jv|].
      apply statement_keeps_owner. exact Jv.
    + apply app_step_keeps_settled. exact Jc.
Qed.

(** The seller acknowledges call-1; then the town goes on, the customer
    trying the same id again among the rest. *)
Lemma acknowledged_call_stays_away_witness :
  Forall (fun c => c_id (VendorDashboard.row c) <> "call-1")
    (VendorDashboard.calls
       (VendorDashboard.loadVendorData
          (fold_left App.step Cases.busy_day
             (fst (VendorDashboard.acknowledgeCall Scenario.called
                     (Scenario.opened Scenario.called "id-seller")
                     "call-1" 200%Z)))
          (Cases.fresh_dashboard "id-seller"))).
Proof.
  apply Forall_forall.
  apply (acknowledged_call_stays_away Scenario.called
           (Scenario.opened Scenario.called "id-seller")
           (Cases.fresh_dashboard "id-seller") "id-seller"
           Scenario.stall Scenario.the_call "call-1" 200%Z Cases.busy_day
           eq_refl eq_refl).
  - simpl. repeat constructor; simpl; intuition discriminate.
  - left. reflexivity.
  - reflexivity.
  - left. reflexivity.
  - reflexivity.
Defined.

(* ================================================================== *)
(** * Order of what is shown                                           *)
(* ================================================================== *)

Section Ordering.
Context {Row : Type}.
Variable key : Row -> option Z.

Lemma desc_before_total (a b : option Z) :
  desc_before a b = false -> desc_before b a = true.
Proof.
  destruct a as [x|], b as [y|]; simpl; try discriminate; try reflexivity.
  rewrite Z.leb_gt, Z.leb_le. lia.
Qed.

Lemma desc_before_trans (a b c : option Z) :
  desc_before a b = true -> desc_before b c = true -> desc_before a c = true.
Proof.
  destruct a as [x|], b as [y|], c as [z|]; simpl;
    try discriminate; try reflexivity.
  rewrite !Z.leb_le. lia.
Qed.

Lemma insert_desc_perm (r : Row) (l : list Row) :
  Permutation (insert_desc key r l) (r :: l).
Proof.
  induction l as [|x l IH]; simpl; [reflexivity|].
  destruct (desc_before (key r) (key x)); [reflexivity|].
  rewrite IH. apply perm_swap.
Qed.

Lemma order_desc_perm (l : list Row) : Permutation (order_desc key l) l.
Proof.
  induction l as [|x l IH]; simpl; [reflexivity|].
  rewrite insert_desc_perm. apply perm_skip. exact IH.
Qed.

Lemma insert_desc_sorted (r : Row) (l : list Row) :
  StronglySorted (Integrity.not_after key) l -> StronglySorted (Integrity.not_after key) (insert_desc key r l).
Proof.
  induction l as [|x l IH]; intros Hl; simpl.
  - repeat constructor.
  - inversion Hl as [|? ? Hs Hall]; subst.
    destruct (desc_before (key r) (key x)) eqn:E.
    + constructor; [exact Hl|]. constructor; [exact E|].
      apply Forall_forall. intros y Hy.
      rewrite Forall_forall in Hall.
      exact (desc_before_trans _ _ _ E (Hall y Hy)).
    + constructor; [apply IH; exact Hs|].
      apply Forall_forall. intros y Hy.
      apply (Permutation_in _ (insert_desc_perm r l)) in Hy.
      destruct Hy as [<-|Hy].
      * apply desc_before_total. exact E.
      * rewrite Forall_forall in Hall. exact (Hall y Hy).
Qed.

Lemma order_desc_sorted (l : list Row) :
  StronglySorted (Integrity.not_after key) (order_desc key l).
Proof.
  induction l as [|x l IH]; simpl; [constructor|].
  apply insert_desc_sorted. exact IH.
Qed.

End Ordering.

Lemma pending_query_is_filter (db : DB) (u : uuid) (v : vendor) :
  In v (vendors db) -> user_id v = u ->
  select_customer_calls db (Some u)
    (fun c => (c_vendor_id c =? v_id v) && (c_status c =? "pending"))
  = filter (fun c => (c_vendor_id c =? v_id v) && (c_status c =? "pending"))
      (customer_calls db).
Proof.
  intros Hv Hu. unfold select_customer_calls, select_rows.
  apply filter_ext. intros c.
  destruct ((c_vendor_id c =? v_id v) && (c_status c =? "pending")) eqn:E;
    [|reflexivity].
  simpl. apply andb_true_iff in E. destruct E as [E _].
  apply String.eqb_eq in E. unfold customer_calls_select.
  apply orb_true_iff. right. apply in_own_vendors_iff. exists v. auto.
Qed.

(** X10.  The calls on the owner's dashboard are the vendor's pending
    calls, each once, the most recently created first (a call without a
    created timestamp before all others). *)
Theorem dashboard_calls_newest_first
    (db : DB) (st0 : VendorDashboard.state) (u : uuid) (v : vendor) :
  VendorDashboard.user st0 = Some u ->
  NoDup (map user_id (vendors db)) ->
  In v (vendors db) -> user_id v = u ->
  let shown :=
    map VendorDashboard.row
      (VendorDashboard.calls (VendorDashboard.loadVendorData db st0)) in
  StronglySorted (Integrity.not_after c_created_at) shown
  /\ Permutation shown
       (filter (fun c => (c_vendor_id c =? v_id v) && (c_status c =? "pending"))
          (customer_calls db)).
Proof.
  intros Hu Hnd Hv Hown.
  rewrite (loadVendorData_found db st0 u v Hu)
    by (rewrite <- Hown; apply own_vendor_alone; assumption).
  simpl. rewrite map_row_embed. split.
  - apply order_desc_sorted.
  - rewrite order_desc_perm. rewrite pending_query_is_filter by assumption.
    reflexivity.
Qed.

Lemma dashboard_calls_newest_first_witness :
  map c_id
    (map VendorDashboard.row
       (VendorDashboard.calls
          (VendorDashboard.loadVendorData Cases.three_calls
             (Cases.fresh_dashboard "id-seller"))))
  = ["call-2"; "call-3"; "call-1"]
  /\ StronglySorted (Integrity.not_after c_created_at)
       (map VendorDashboard.row
          (VendorDashboard.calls
             (VendorDashboard.loadVendorData Cases.three_calls
                (Cases.fresh_dashboard "id-seller")))).
Proof.
  split; [reflexivity|].
  apply (dashboard_calls_newest_first Cases.three_calls
           (Cases.fresh_dashboard "id-seller") "id-seller" Scenario.stall
           eq_refl).
  - simpl. repeat constructor; simpl; intuition discriminate.
  - left. reflexivity.
  - reflexivity.
Defined.

(** X11.  When the owner's dashboard holds a subscription after
    [loadVendorData], it is one of the vendor's subscriptions with status
    active, and none of the vendor's active subscriptions ends later: the
    date shown as valid-until is the latest end date paid for. *)
Theorem dashboard_shows_latest_subscription
    (db : DB) (st0 : VendorDashboard.state) (u : uuid) (v : vendor)
    (sub : VendorDashboard.Subscription) :
  VendorDashboard.user st0 = Some u ->
  NoDup (map user_id (vendors db)) ->
  In v (vendors db) -> user_id v = u ->
  VendorDashboard.subscription (VendorDashboard.loadVendorData db st0)
  = Some sub ->
  VendorDashboard.status sub = "active"
  /\ (exists x, In x (subscriptions db) /\ s_vendor_id x = v_id v
                /\ s_status x = "active"
                /\ end_date x = VendorDashboard.end_date sub)
  /\ forall y, In y (subscriptions db) -> s_vendor_id y = v_id v ->
               s_status y = "active" ->
               (end_date y <= VendorDashboard.end_date sub)%Z.
Proof.
  intros Hu Hnd Hv Hown.
  rewrite (loadVendorData_found db st0 u v Hu)
    by (rewrite <- Hown; apply own_vendor_alone; assumption).
  simpl.
  set (L := select_subscriptions db (Some u) _).
  pose proof (order_desc_sorted (fun x => Some (end_date x)) L) as Hs.
  assert (HL : forall x, In x (order_desc (fun x => Some (end_date x)) L) <->
                         In x (subscriptions db)
                         /\ (s_vendor_id x =? v_id v)
                            && (s_status x =? "active") = true).
  { intros x. rewrite in_order_desc. subst L.
    apply active_rows_of_owner; assumption. }
  destruct (order_desc (fun x => Some (end_date x)) L) as [|x rest];
    [discriminate|].
  simpl. intros H. inversion H; subst sub; clear H. simpl.
  destruct (HL x) as [Hx _]. specialize (Hx (or_introl eq_refl)).
  destruct Hx as [Hin Hx]. apply andb_true_iff in Hx.
  destruct Hx as [Hid Hst]. apply String.eqb_eq in Hid, Hst.
  split; [exact Hst|]. split; [exists x; auto|].
  intros y Hy Hyv Hys.
  assert (Hyl : In y (x :: rest)).
  { apply HL. split; [exact Hy|]. rewrite Hyv, Hys, !String.eqb_refl.
    reflexivity. }
  destruct Hyl as [<-|Hyl]; [lia|].
  inversion Hs as [|? ? _ Hall]; subst. rewrite Forall_forall in Hall.
  specialize (Hall y Hyl). unfold Integrity.not_after in Hall. simpl in Hall.
  apply Z.leb_le in Hall. exact Hall.
Qed.

Lemma dashboard_shows_latest_subscription_witness :
  VendorDashboard.status
    {| VendorDashboard.status := "active"; VendorDashboard.end_date := 50%Z |}
  = "active"
  /\ forall y, In y (subscriptions Cases.paid_twice) ->
               s_vendor_id y = "stall-1" -> s_status y = "active" ->
               (end_date y <= 50)%Z.
Proof.
  destruct (dashboard_shows_latest_subscription Cases.paid_twice
              (Cases.fresh_dashboard "id-seller") "id-seller" Scenario.stall
              {| VendorDashboard.status := "active";
                 VendorDashboard.end_date := 50%Z |} eq_refl)
    as (H1 & _ & H3).
  - simpl. repeat constructor; simpl; intuition discriminate.
  - left. reflexivity.
  - reflexivity.
  - reflexivity.
  - split; [exact H1|exact H3].
Defined.

(* ================================================================== *)
(** * Paying and setting up                                            *)
(* ================================================================== *)

(** One active subscription of the vendor is enough for the toggle. *)
Lemma active_subscription_enables (db : DB) (st0 : VendorDashboard.state)
    (u : uuid) (v : vendor) (x : subscription) :
  VendorDashboard.user st0 = Some u ->
  NoDup (map user_id (vendors db)) ->
  In v (vendors db) -> user_id v = u ->
  In x (subscriptions db) -> s_vendor_id x = v_id v -> s_status x = "active" ->
  exists incoming,
    VendorDashboard.render (VendorDashboard.loadVendorData db st0)
    = VendorDashboard.Dashboard false incoming.
Proof.
  intros Hu Hnd Hv Hown Hx Hxv Hxs.
  rewrite (loadVendorData_found db st0 u v Hu)
    by (rewrite <- Hown; apply own_vendor_alone; assumption).
  unfold VendorDashboard.render, VendorDashboard.isSubscriptionExpired. simpl.
  eexists. f_equal.
  set (L := select_subscriptions db (Some u) _).
  assert (HL : forall y, In y (order_desc (fun x => Some (end_date x)) L) <->
                         In y (subscriptions db)
                         /\ (s_vendor_id y =? v_id v)
                            && (s_status y =? "active") = true).
  { intros y. rewrite in_order_desc. subst L.
    apply active_rows_of_owner; assumption. }
  destruct (order_desc (fun x => Some (end_date x)) L) as [|y rest].
  - exfalso. apply (HL x). split; [exact Hx|].
    rewrite Hxv, Hxs, !String.eqb_refl. reflexivity.
  - simpl. destruct (HL y) as [Hy _]. specialize (Hy (or_introl eq_refl)).
    destruct Hy as [_ Hy]. apply andb_true_iff in Hy. destruct Hy as [_ Hy].
    rewrite Hy. reflexivity.
Qed.

(** X12.  A payment by the vendor's owner, submitted at any moment and
    for any pair of dates, is stored as a subscription of 5000 with status
    active and reported as a success, and from the next [loadVendorData]
    on the availability toggle is enabled: the client's word that the
    payment was made is all it takes. *)
Theorem payment_enables_toggle
    (db : DB) (st0 : VendorDashboard.state) (u : uuid) (v : vendor)
    (d1 d2 : date) (clock : timestamptz) (fresh : uuid) (now : timestamptz) :
  VendorDashboard.user st0 = Some u ->
  NoDup (map user_id (vendors db)) ->
  In v (vendors db) -> user_id v = u ->
  mem fresh (map s_id (subscriptions db)) = false ->
  let out := SubscriptionManager.handlePayment db (Some u) (v_id v) d1 d2
               clock fresh now in
  snd out = true
  /\ fst out
     = with_subscriptions db
         (subscriptions db ++ [
            {| s_id := fresh; s_vendor_id := v_id v; start_date := d1;
               end_date := d2; amount := Some 5000%Z; s_status := "active";
               payment_date := Some clock; s_created_at := Some now |} ])
  /\ exists incoming,
       VendorDashboard.render (VendorDashboard.loadVendorData (fst out) st0)
       = VendorDashboard.Dashboard false incoming.
Proof.
  intros Hu Hnd Hv Hown Hfresh.
  assert (Hmine : in_own_vendors db (Some u) (v_id v) = true)
    by (apply in_own_vendors_iff; exists v; auto).
  unfold SubscriptionManager.handlePayment, insert_subscription. simpl.
  unfold subscriptions_insert_check. rewrite Hmine. simpl.
  rewrite Hfresh, (in_own_vendors_mem _ _ _ Hmine). simpl.
  split; [reflexivity|]. split; [reflexivity|].
  eapply (active_subscription_enables _ st0 u v); try eassumption.
  - simpl. apply in_or_app. right. left. reflexivity.
  - reflexivity.
  - reflexivity.
Qed.

Lemma payment_enables_toggle_witness :
  exists incoming,
    VendorDashboard.render
      (VendorDashboard.loadVendorData
         (fst (SubscriptionManager.handlePayment Scenario.town
                 (Some "id-rival") "stall-2" 900%Z 10%Z 60%Z "sub-1" 61%Z))
         (Cases.fresh_dashboard "id-rival"))
    = VendorDashboard.Dashboard false incoming.
Proof.
  destruct (payment_enables_toggle Scenario.town
              (Cases.fresh_dashboard "id-rival") "id-rival"
              Scenario.rival_stall 900%Z 10%Z 60%Z "sub-1" 61%Z eq_refl)
    as (_ & _ & H).
  - simpl. repeat constructor; simpl; intuition discriminate.
  - right. left. reflexivity.
  - reflexivity.
  - reflexivity.
  - exact H.
Defined.

Lemma select_rows_app {Row} (pu w : Row -> bool) (l m : list Row) :
  select_rows pu w (l ++ m) = (select_rows pu w l ++ select_rows pu w m)%list.
Proof. unfold select_rows. apply filter_app. Qed.

(** X13.  The setup form, submitted by a signed-in user who has a
    profile and no vendor yet, stores a vendor that is inactive and has no
    position; the user's dashboard then finds it, and no customer's list
    changes: a new vendor stays out of sight until it is activated. *)
Theorem setup_creates_hidden_vendor
    (db : DB) (st0 : VendorDashboard.state) (u : uuid)
    (businessName businessType description : string)
    (fresh : uuid) (now : timestamptz) (visitor : session) :
  VendorDashboard.user st0 = Some u ->
  mem u (map p_id (profiles db)) = true ->
  (forall x, In x (vendors db) -> user_id x <> u) ->
  mem fresh (map v_id (vendors db)) = false ->
  let out := VendorDashboard.handleSubmit db (Some u) u businessName
               businessType description fresh now in
  let shop :=
    {| v_id := fresh; user_id := u; business_name := businessName;
       business_type := businessType; Schema.description := Some description;
       is_active := Some false; current_latitude := None;
       current_longitude := None; last_location_update := None;
       v_created_at := Some now; v_updated_at := Some now |} in
  snd out = true
  /\ fst out = with_vendors db (vendors db ++ [shop])
  /\ VendorDashboard.vendor (VendorDashboard.loadVendorData (fst out) st0)
     = Some shop
  /\ CustomerDashboard.loadVendors (fst out) visitor
     = CustomerDashboard.loadVendors db visitor.
Proof.
  intros Hu Hp Hnone Hfresh.
  assert (Hnew : mem u (map user_id (vendors db)) = false).
  { apply mem_false_iff. intros Hin. apply in_map_iff in Hin.
    destruct Hin as (x & Hx & Hin). exact (Hnone x Hin Hx). }
  unfold VendorDashboard.handleSubmit, insert_vendor. simpl.
  rewrite String.eqb_refl. simpl. rewrite Hfresh. simpl.
  rewrite Hnew. simpl. rewrite Hp. simpl.
  split; [reflexivity|]. split; [reflexivity|]. split.
  - erewrite loadVendorData_found; [reflexivity|exact Hu|].
    simpl. rewrite filter_app, filter_none.
    + simpl. rewrite String.eqb_refl. reflexivity.
    + intros x Hx. apply String.eqb_neq. exact (Hnone x Hx).
  - unfold CustomerDashboard.loadVendors, select_vendors. simpl.
    rewrite select_rows_app. simpl. apply app_nil_r.
Qed.

Lemma setup_creates_hidden_vendor_witness :
  CustomerDashboard.loadVendors
    (fst (VendorDashboard.handleSubmit Scenario.town (Some "id-customer")
            "id-customer" "Warung Siti" "Makanan" "nasi uduk" "stall-3" 90%Z))
    (Some "id-rival")
  = CustomerDashboard.loadVendors Scenario.town (Some "id-rival").
Proof.
  destruct (setup_creates_hidden_vendor Scenario.town
              (Cases.fresh_dashboard "id-customer") "id-customer"
              "Warung Siti" "Makanan" "nasi uduk" "stall-3" 90%Z
              (Some "id-rival") eq_refl eq_refl) as (_ & _ & _ & H).
  - intros x [<-|[<-|[]]]; discriminate.
  - reflexivity.
  - exact H.
Defined.

(** X14.  The setup form can give an identity one vendor only: whoever
    submits it, with whatever details, for a user id that already owns a
    vendor, nothing is stored and the form does not complete. *)
Theorem second_setup_rejected
    (db : DB) (s : session) (userId : uuid)
    (businessName businessType description : string)
    (fresh : uuid) (now : timestamptz) :
  (exists x, In x (vendors db) /\ user_id x = userId) ->
  VendorDashboard.handleSubmit db s userId businessName businessType
    description fresh now
  = (db, false).
Proof.
  intros (x & Hx & Hu). unfold VendorDashboard.handleSubmit.
  match goal with
  | |- context [committed db ?r _] => destruct r as [db'|e] eqn:E
  end; [|reflexivity].
  exfalso. unfold insert_vendor in E. simpl in E. bind_inv E.
  match goal with
  | G : guard (negb (mem userId (map user_id (vendors db)))) _ = Ok _ |- _ =>
      apply guard_ok in G; apply negb_true_iff in G;
      apply mem_false_iff in G; apply G
  end.
  rewrite <- Hu. apply in_map. exact Hx.
Qed.

Lemma second_setup_rejected_witness :
  VendorDashboard.handleSubmit Scenario.town (Some "id-seller") "id-seller"
    "Bakso Budi 2" "Makanan" "cabang" "stall-3" 90%Z
  = (Scenario.town, false).
Proof.
  apply second_setup_rejected. exists Scenario.stall.
  split; [left; reflexivity|reflexivity].
Defined.

(* ================================================================== *)
(** * On air and off air                                               *)
(* ================================================================== *)

Lemma loadVendors_iff (db : DB) (c : uuid) (r : vendor) :
  In r (CustomerDashboard.loadVendors db (Some c)) <->
  In r (vendors db) /\ is_active r = Some true
  /\ current_latitude r <> None /\ current_longitude r <> None.
Proof.
  unfold CustomerDashboard.loadVendors. rewrite select_vendors_all, filter_In.
  destruct (is_active r) as [[|]|], (current_latitude r), (current_longitude r);
    simpl; intuition congruence.
Qed.

Lemma loadVendors_active (db : DB) (s : session) (r : vendor) :
  In r (CustomerDashboard.loadVendors db s) ->
  In r (vendors db) /\ is_active r = Some true.
Proof.
  unfold CustomerDashboard.loadVendors, select_vendors, select_rows.
  rewrite filter_In. intros [Hin H]. split; [exact Hin|].
  destruct (is_active r) as [[|]|]; simpl in H; try discriminate. reflexivity.
Qed.

(** X15.  When the owner switches tracking on with a position that fits
    the columns, every signed-in customer's next [loadVendors] lists the
    vendor, at that position and with that moment as its last location
    update. *)
Theorem activated_vendor_is_listed
    (db : DB) (st : VendorDashboard.state) (u : uuid) (v r : vendor)
    (latitude longitude : decimal8) (clock now : timestamptz)
    (customer : uuid) :
  VendorDashboard.vendor st = Some v ->
  VendorDashboard.locationTracking st = false ->
  VendorDashboard.user st = Some u ->
  In r (vendors db) -> v_id r = v_id v -> user_id r = u ->
  fits_decimal_10_8 latitude = true ->
  fits_decimal_11_8 longitude = true ->
  exists r',
    In r' (CustomerDashboard.loadVendors
             (fst (VendorDashboard.toggleLocationTracking db st
                     (Some (latitude, longitude)) clock now))
             (Some customer))
    /\ v_id r' = v_id v
    /\ business_name r' = business_name r
    /\ current_latitude r' = Some latitude
    /\ current_longitude r' = Some longitude
    /\ last_location_update r' = Some clock.
Proof.
  intros Hv Ht Hu Hr Hid Hown Hla Hlo.
  unfold VendorDashboard.toggleLocationTracking. rewrite Hv, Ht. simpl.
  rewrite update_vendors_spec. simpl. rewrite Hla, Hlo. simpl.
  eexists. split.
  - apply loadVendors_iff. split.
    + simpl. unfold rewritten. apply in_map_iff. exists r.
      split; [|exact Hr].
      rewrite Hid, String.eqb_refl. unfold vendors_update_using.
      rewrite Hu, Hown. simpl. rewrite String.eqb_refl. simpl. reflexivity.
    + simpl. repeat split; discriminate.
  - simpl. repeat split. exact Hid.
Qed.

Lemma activated_vendor_is_listed_witness :
  exists r',
    In r' (CustomerDashboard.loadVendors
             (fst (VendorDashboard.toggleLocationTracking Scenario.town
                     (Scenario.opened Scenario.town "id-rival")
                     (Some ((-630000000)%Z, 10690000000%Z)) 80%Z 81%Z))
             (Some "id-customer"))
    /\ v_id r' = "stall-2"
    /\ business_name r' = "Es Agus"
    /\ current_latitude r' = Some (-630000000)%Z
    /\ current_longitude r' = Some 10690000000%Z
    /\ last_location_update r' = Some 80%Z.
Proof.
  apply (activated_vendor_is_listed Scenario.town
           (Scenario.opened Scenario.town "id-rival") "id-rival"
           Scenario.rival_stall Scenario.rival_stall
           (-630000000)%Z 10690000000%Z 80%Z 81%Z "id-customer"
           eq_refl eq_refl eq_refl (or_intror (or_introl eq_refl))
           eq_refl eq_refl eq_refl eq_refl).
Defined.

Lemma same_key_same_row {Row} (key : Row -> uuid) (l : list Row) (a b : Row) :
  NoDup (map key l) -> In a l -> In b l -> key a = key b -> a = b.
Proof.
  induction l as [|x l IH]; intros Hnd Ha Hb E; [destruct Ha|].
  simpl in Hnd. inversion Hnd as [|? ? Hx Hl]; subst.
  destruct Ha as [->|Ha], Hb as [->|Hb]; try reflexivity.
  - exfalso. apply Hx. rewrite E. apply in_map. exact Hb.
  - exfalso. apply Hx. rewrite <- E. apply in_map. exact Ha.
  - apply IH; assumption.
Qed.

(** X16.  When the owner switches tracking off, the vendor is gone from
    every visitor's next [loadVendors], although its last position is
    still stored. *)
Theorem deactivated_vendor_is_hidden
    (db : DB) (st : VendorDashboard.state) (u : uuid) (v r : vendor)
    (position : option coords) (clock now : timestamptz) (visitor : session) :
  VendorDashboard.vendor st = Some v ->
  VendorDashboard.locationTracking st = true ->
  VendorDashboard.user st = Some u ->
  NoDup (map v_id (vendors db)) ->
  In r (vendors db) -> v_id r = v_id v -> user_id r = u ->
  forall r',
    In r' (CustomerDashboard.loadVendors
             (fst (VendorDashboard.toggleLocationTracking db st position
                     clock now))
             visitor) ->
    v_id r' <> v_id v.
Proof.
  intros Hv Ht Hu Hnd Hr Hid Hown r' Hr' E.
  apply loadVendors_active in Hr'. destruct Hr' as [Hin Hact].
  unfold VendorDashboard.toggleLocationTracking in Hin.
  rewrite Hv, Ht in Hin. simpl in Hin. rewrite update_vendors_spec in Hin.
  simpl in Hin. unfold rewritten in Hin. apply in_map_iff in Hin.
  destruct Hin as (x & Hx & Hin).
  assert (Ex : v_id x = v_id v).
  { destruct ((v_id x =? v_id v)
              && vendors_update_using (VendorDashboard.user st) x);
      rewrite <- Hx in E; exact E. }
  assert (x = r)
    by (apply (same_key_same_row v_id (vendors db)); congruence).
  subst x. rewrite Ex, String.eqb_refl in Hx.
  unfold vendors_update_using in Hx. rewrite Hu, Hown in Hx. simpl in Hx.
  rewrite String.eqb_refl in Hx. simpl in Hx. rewrite <- Hx in Hact.
  discriminate Hact.
Qed.

Lemma deactivated_vendor_is_hidden_witness :
  Forall (fun r' => v_id r' <> "stall-1")
    (CustomerDashboard.loadVendors
       (fst (VendorDashboard.toggleLocationTracking Scenario.town
               (Scenario.opened Scenario.town "id-seller") None 70%Z 71%Z))
       (Some "id-customer")).
Proof.
  apply Forall_forall.
  apply (deactivated_vendor_is_hidden Scenario.town
           (Scenario.opened Scenario.town "id-seller") "id-seller"
           Scenario.stall Scenario.stall None 70%Z 71%Z (Some "id-customer")
           eq_refl eq_refl eq_refl).
  - simpl. repeat constructor; simpl; intuition discriminate.
  - left. reflexivity.
  - reflexivity.
  - reflexivity.
Defined.

(** X17.  The position watcher never switches anything: after its
    callback every vendor has the flag and the id it had, so a vendor that
    is off air stays out of every visitor's list; but it does write: the
    session's own vendor row takes the new position and the browser's clock
    whether the flag is on or off. *)
Theorem watcher_writes_but_never_switches
    (db : DB) (st : VendorDashboard.state) (position : coords)
    (clock now : timestamptz) :
  let db' := VendorDashboard.startLocationUpdates db st position clock now in
  map is_active (vendors db') = map is_active (vendors db)
  /\ map v_id (vendors db') = map v_id (vendors db)
  /\ (forall visitor id,
        (forall r, In r (vendors db) -> v_id r = id -> is_active r <> Some true) ->
        forall r', In r' (CustomerDashboard.loadVendors db' visitor) ->
                   v_id r' <> id)
  /\ (forall v i r,
        VendorDashboard.vendor st = Some v ->
        nth_error (vendors db) i = Some r ->
        v_id r = v_id v -> VendorDashboard.user st = Some (user_id r) ->
        fits_decimal_10_8 (fst position) = true ->
        fits_decimal_11_8 (snd position) = true ->
        exists r', nth_error (vendors db') i = Some r'
                   /\ current_latitude r' = Some (fst position)
                   /\ current_longitude r' = Some (snd position)
                   /\ last_location_update r' = Some clock
                   /\ is_active r' = is_active r).
Proof.
  unfold VendorDashboard.startLocationUpdates.
  destruct (VendorDashboard.vendor st) as [v|].
  - rewrite update_vendors_spec. simpl.
    destruct (fits_decimal_10_8 (fst position)
              && fits_decimal_11_8 (snd position)) eqn:F; simpl.
    + split; [apply map_rewritten; reflexivity|].
      split; [apply map_rewritten; reflexivity|]. split.
      * intros visitor id Hoff r' Hr' E.
        apply loadVendors_active in Hr'. destruct Hr' as [Hin Hact].
        simpl in Hin. apply in_rewritten in Hin.
        destruct Hin as (r & Hr & [->|(_ & _ & ->)]);
          exact (Hoff r Hr E Hact).
      * intros v0 i r Hv0 Hi Hid Hu _ _. inversion Hv0; subst v0.
        rewrite rewritten_nth, Hi. simpl.
        rewrite Hid, String.eqb_refl. unfold vendors_update_using.
        rewrite Hu. simpl. rewrite String.eqb_refl. simpl.
        eexists. split; [reflexivity|]. repeat split.
    + split; [reflexivity|]. split; [reflexivity|]. split.
      * intros visitor id Hoff r' Hr' E.
        apply loadVendors_active in Hr'. destruct Hr' as [Hin Hact].
        exact (Hoff r' Hin E Hact).
      * intros v0 i r _ _ _ _ Hla Hlo. rewrite Hla, Hlo in F. discriminate F.
  - split; [reflexivity|]. split; [reflexivity|]. split.
    + intros visitor id Hoff r' Hr' E.
      apply loadVendors_active in Hr'. destruct Hr' as [Hin Hact].
      exact (Hoff r' Hin E Hact).
    + intros v0 i r Hv0. discriminate Hv0.
Qed.

(** X18.  A second [acknowledgeCall] of the same call under the same
    session never fails and leaves the tables as if it had been the only
    one: the status stays acknowledged and the acknowledgement timestamp is
    the second clock; with the same clock the second changes nothing. *)
Theorem acknowledgeCall_twice
    (db : DB) (st st' : VendorDashboard.state) (callId : uuid)
    (clock clock' : timestamptz) :
  VendorDashboard.user st' = VendorDashboard.user st ->
  let once := fst (VendorDashboard.acknowledgeCall db st callId clock) in
  let twice := fst (VendorDashboard.acknowledgeCall once st' callId clock') in
  twice = fst (VendorDashboard.acknowledgeCall db st' callId clock')
  /\ (clock' = clock -> twice = once).
Proof.
  intros Hu.
  assert (H : fst (VendorDashboard.acknowledgeCall
                     (fst (VendorDashboard.acknowledgeCall db st callId clock))
                     st' callId clock')
              = fst (VendorDashboard.acknowledgeCall db st' callId clock')).
  { rewrite !acknowledgeCall_tables. rewrite Hu. simpl.
    unfold with_customer_calls. simpl. f_equal.
    unfold rewritten. rewrite map_map. apply map_ext. intros r.
    unfold customer_calls_update_using, in_own_vendors, own_vendor_ids. simpl.
    destruct ((c_id r =? callId) && _) eqn:E; simpl; rewrite E; reflexivity. }
  split; [exact H|]. intros E. subst clock'.
  change (fst (VendorDashboard.acknowledgeCall
                 (fst (VendorDashboard.acknowledgeCall db st callId clock))
                 st' callId clock)
          = fst (VendorDashboard.acknowledgeCall db st callId clock)).
  rewrite H, !acknowledgeCall_tables, Hu. reflexivity.
Qed.

Lemma acknowledgeCall_twice_witness :
  fst (VendorDashboard.acknowledgeCall
         (fst (VendorDashboard.acknowledgeCall Scenario.called
                 (Scenario.opened Scenario.called "id-seller") "call-1" 200%Z))
         (Cases.fresh_dashboard "id-seller") "call-1" 230%Z)
  = fst (VendorDashboard.acknowledgeCall Scenario.called
           (Cases.fresh_dashboard "id-seller") "call-1" 230%Z).
Proof.
  apply (acknowledgeCall_twice Scenario.called
           (Scenario.opened Scenario.called "id-seller")
           (Cases.fresh_dashboard "id-seller") "call-1" 200%Z 230%Z eq_refl).
Defined.

(* ================================================================== *)
(** * Placing a call                                                   *)
(* ================================================================== *)

Lemma unique_key_alone {Row} (key : Row -> uuid) (l : list Row) (v : Row) :
  NoDup (map key l) -> In v l ->
  filter (fun x => key x =? key v) l = [v].
Proof.
  induction l as [|x l IH]; intros Hnd Hin; [destruct Hin|].
  simpl in Hnd. inversion Hnd as [|? ? Hx Hl]; subst. simpl.
  destruct Hin as [->|Hin].
  - rewrite String.eqb_refl. f_equal. apply filter_none.
    intros y Hy. apply String.eqb_neq. intros E. apply Hx.
    rewrite <- E. apply in_map. exact Hy.
  - destruct (key x =? key v) eqn:E.
    + apply String.eqb_eq in E. exfalso. apply Hx. rewrite E.
      apply in_map. exact Hin.
    + apply IH; assumption.
Qed.

(** The INSERT that [callVendor] sends, when nothing stands against it. *)
Lemma call_insert_accepted (db : DB) (u vendorId fresh : uuid)
    (lat lng : decimal8) (now : timestamptz) :
  fits_decimal_10_8 lat = true -> fits_decimal_11_8 lng = true ->
  mem fresh (map c_id (customer_calls db)) = false ->
  mem u (map p_id (profiles db)) = true ->
  mem vendorId (map v_id (vendors db)) = true ->
  insert_customer_call db (Some u) fresh now
    {| ci_id := Omitted; ci_customer_id := Val u; ci_vendor_id := Val vendorId;
       ci_customer_latitude := Val lat; ci_customer_longitude := Val lng;
       ci_status := Val "pending"; ci_created_at := Omitted;
       ci_acknowledged_at := Omitted; ci_completed_at := Omitted |}
  = Ok (with_customer_calls db (customer_calls db ++ [
          {| c_id := fresh; customer_id := u; c_vendor_id := vendorId;
             customer_latitude := lat; customer_longitude := lng;
             c_status := "pending"; c_created_at := Some now;
             acknowledged_at := None; completed_at := None |} ])).
Proof.
  intros Hla Hlo Hf Hp Hv. unfold insert_customer_call. simpl.
  rewrite Hla, Hlo, String.eqb_refl. simpl. rewrite Hf. simpl.
  rewrite Hp. simpl. rewrite Hv. reflexivity.
Qed.

(** X19.  A signed-in customer with a profile and a known location that
    fits the columns can call any stored vendor: the call is stored
    pending, under the customer's id, with the customer's position and the
    server's time, and the button shows it as sent.  Whether the vendor is
    on air or has paid is not looked at. *)
Theorem callVendor_stores_call
    (db : DB) (st : CustomerDashboard.state) (u vendorId fresh : uuid)
    (lat lng : decimal8) (now : timestamptz) :
  CustomerDashboard.user st = Some u ->
  CustomerDashboard.userLocation st = Some (lat, lng) ->
  fits_decimal_10_8 lat = true -> fits_decimal_11_8 lng = true ->
  mem fresh (map c_id (customer_calls db)) = false ->
  mem u (map p_id (profiles db)) = true ->
  mem vendorId (map v_id (vendors db)) = true ->
  CustomerDashboard.callVendor db st vendorId fresh now
  = (with_customer_calls db (customer_calls db ++ [
       {| c_id := fresh; customer_id := u; c_vendor_id := vendorId;
          customer_latitude := lat; customer_longitude := lng;
          c_status := "pending"; c_created_at := Some now;
          acknowledged_at := None; completed_at := None |} ]),
     {| CustomerDashboard.user := Some u;
        CustomerDashboard.userLocation := Some (lat, lng);
        CustomerDashboard.callingSent := Some vendorId |}).
Proof.
  intros Hu Hl Hla Hlo Hf Hp Hv. unfold CustomerDashboard.callVendor.
  rewrite Hu, Hl.
  rewrite (call_insert_accepted db u vendorId fresh lat lng now Hla Hlo Hf Hp Hv).
  reflexivity.
Qed.

Lemma callVendor_stores_call_witness :
  map (fun c => (c_id c, c_vendor_id c, c_status c))
    (customer_calls
       (fst (CustomerDashboard.callVendor Scenario.town Scenario.at_home
               "stall-2" "call-7" 100%Z)))
  = [("call-7", "stall-2", "pending")].
Proof.
  rewrite (callVendor_stores_call Scenario.town Scenario.at_home "id-customer"
             "stall-2" "call-7" (-620000000)%Z 10681666600%Z 100%Z
             eq_refl eq_refl eq_refl eq_refl eq_refl eq_refl eq_refl).
  reflexivity.
Defined.

(** X20.  [callVendor] shows a call as sent only when a row was stored:
    either nothing is stored and the component's state is as before, or
    exactly one pending call from the signed-in user to the chosen vendor
    is appended and [callingSent] names that vendor. *)
Theorem callVendor_confirms_only_stored
    (db : DB) (st : CustomerDashboard.state) (vendorId fresh : uuid)
    (now : timestamptz) :
  let out := CustomerDashboard.callVendor db st vendorId fresh now in
  (fst out = db /\ snd out = st)
  \/ exists c,
       fst out = with_customer_calls db (customer_calls db ++ [c])
       /\ c_status c = "pending"
       /\ CustomerDashboard.user st = Some (customer_id c)
       /\ c_vendor_id c = vendorId
       /\ CustomerDashboard.callingSent (snd out) = Some vendorId.
Proof.
  unfold CustomerDashboard.callVendor.
  destruct (CustomerDashboard.user st) as [u|] eqn:Eu;
    [|left; split; reflexivity].
  destruct (CustomerDashboard.userLocation st) as [[lat lng]|] eqn:El;
    [|left; split; reflexivity].
  match goal with
  | |- context [committed db ?r _] => destruct r as [db'|e] eqn:E
  end; simpl.
  - right. unfold insert_customer_call in E. simpl in E. bind_inv E.
    inversion E; subst; clear E. eexists. split; [reflexivity|]. simpl.
    repeat match goal with
           | G : not_null (Some _) = Ok _ |- _ =>
               simpl in G; inversion G; subst; clear G
           end.
    repeat split.
  - left. split; [reflexivity|]. destruct st; simpl in *. congruence.
Qed.

(** X21.  A call stored by [callVendor] is on the called vendor's
    dashboard at the owner's next [loadVendorData], with the caller's name
    and phone number from the caller's profile. *)
Theorem placed_call_reaches_vendor
    (db : DB) (st : CustomerDashboard.state) (st0 : VendorDashboard.state)
    (u fresh : uuid) (p : profile) (v : vendor)
    (lat lng : decimal8) (now : timestamptz) :
  CustomerDashboard.user st = Some u ->
  CustomerDashboard.userLocation st = Some (lat, lng) ->
  fits_decimal_10_8 lat = true -> fits_decimal_11_8 lng = true ->
  mem fresh (map c_id (customer_calls db)) = false ->
  NoDup (map p_id (profiles db)) -> In p (profiles db) -> p_id p = u ->
  NoDup (map user_id (vendors db)) -> In v (vendors db) ->
  VendorDashboard.user st0 = Some (user_id v) ->
  In {| VendorDashboard.row :=
          {| c_id := fresh; customer_id := u; c_vendor_id := v_id v;
             customer_latitude := lat; customer_longitude := lng;
             c_status := "pending"; c_created_at := Some now;
             acknowledged_at := None; completed_at := None |};
        VendorDashboard.profiles := Some (full_name p, phone p) |}
     (VendorDashboard.calls
        (VendorDashboard.loadVendorData
           (fst (CustomerDashboard.callVendor db st (v_id v) fresh now)) st0)).
Proof.
  intros Hu Hl Hla Hlo Hf Hnp Hp Hpu Hnv Hv Hu0.
  unfold CustomerDashboard.callVendor. rewrite Hu, Hl.
  rewrite (call_insert_accepted db u (v_id v) fresh lat lng now Hla Hlo Hf).
  - simpl.
    rewrite (loadVendorData_found _ st0 (user_id v) v Hu0)
      by (simpl; apply own_vendor_alone; assumption).
    simpl.
    set (c := {| c_id := fresh; customer_id := u; c_vendor_id := v_id v;
                 customer_latitude := lat; customer_longitude := lng;
                 c_status := "pending"; c_created_at := Some now;
                 acknowledged_at := None; completed_at := None |}).
    set (db' := with_customer_calls db (customer_calls db ++ [c])).
    assert (Hemb : VendorDashboard.embed_profile db' (Some (user_id v)) c
                   = {| VendorDashboard.row := c;
                        VendorDashboard.profiles :=
                          Some (full_name p, phone p) |}).
    { unfold VendorDashboard.embed_profile. f_equal.
      unfold select_profiles. simpl. rewrite select_all.
      rewrite <- Hpu. rewrite (unique_key_alone p_id _ p Hnp Hp).
      reflexivity. }
    rewrite <- Hemb. apply in_map. apply in_order_desc.
    apply (pending_rows_of_owner db' (user_id v) v c Hv eq_refl).
    repeat split. simpl. apply in_or_app. right. left. reflexivity.
  - apply mem_true_iff. rewrite <- Hpu. apply in_map. exact Hp.
  - apply mem_true_iff. apply in_map. exact Hv.
Qed.

Lemma placed_call_reaches_vendor_witness :
  In {| VendorDashboard.row := Scenario.the_call;
        VendorDashboard.profiles := Some ("Siti", Some "0811") |}
     (VendorDashboard.calls
        (VendorDashboard.loadVendorData
           (fst (CustomerDashboard.callVendor Scenario.town Scenario.at_home
                   "stall-1" "call-1" 100%Z))
           (Cases.fresh_dashboard "id-seller"))).
Proof.
  apply (placed_call_reaches_vendor Scenario.town Scenario.at_home
           (Cases.fresh_dashboard "id-seller") "id-customer" "call-1"
           Scenario.customer Scenario.stall (-620000000)%Z 10681666600%Z 100%Z
           eq_refl eq_refl eq_refl eq_refl eq_refl).
  - simpl. repeat constructor; simpl; intuition discriminate.
  - left. reflexivity.
  - reflexivity.
  - simpl. repeat constructor; simpl; intuition discriminate.
  - left. reflexivity.
  - reflexivity.
Defined.

(* ================================================================== *)
(** * Timestamps, screens, reads                                       *)
(* ================================================================== *)

(** X22.  An accepted UPDATE of vendors or of profiles leaves the
    server's time as [updated_at] on every row it rewrites, whatever its
    SET list assigns, a value for [updated_at] itself included: the
    trigger runs after the SET list and has the last word. *)
Theorem update_stamps_updated_at
    (db db' : DB) (s : session) (now : timestamptz) (n i : nat) :
  (forall w set r,
     AnySet.update_vendors db s now w set = Ok (db', n) ->
     nth_error (vendors db) i = Some r ->
     w r = true -> uid_is s (user_id r) = true ->
     exists r', nth_error (vendors db') i = Some r'
                /\ v_updated_at r' = Some now)
  /\ (forall w set r,
        AnySet.update_profiles db s now w set = Ok (db', n) ->
        nth_error (profiles db) i = Some r ->
        w r = true -> uid_is s (p_id r) = true ->
        exists r', nth_error (profiles db') i = Some r'
                   /\ p_updated_at r' = Some now).
Proof.
  split; intros w f r H Hi Hw Hu.
  - apply any_update_vendors_shape in H. subst db'. simpl.
    rewrite rewritten_nth, Hi. simpl. unfold vendors_update_using.
    rewrite Hw, Hu. simpl. eexists. split; reflexivity.
  - apply any_update_profiles_shape in H. subst db'. simpl.
    rewrite rewritten_nth, Hi. simpl. unfold profiles_update_using.
    rewrite Hw, Hu. simpl. eexists. split; reflexivity.
Qed.

(** The seller renames the stall at 500 and sets [updated_at] to 0 in the
    same statement: the row says 500. *)
Lemma update_stamps_updated_at_witness :
  match AnySet.update_vendors Scenario.town (Some "id-seller") 500%Z
          (fun v => v_id v =? "stall-1") AnySet.rename_stall with
  | Ok (db', changed) =>
      changed = 1%nat
      /\ exists r', nth_error (vendors db') 0 = Some r'
                    /\ v_id r' = "stall-9"
                    /\ v_updated_at r' = Some 500%Z
  | Err _ => False
  end.
Proof.
  destruct (AnySet.update_vendors Scenario.town (Some "id-seller") 500%Z
              (fun v => v_id v =? "stall-1") AnySet.rename_stall)
    as [[db' n]|e] eqn:E.
  - split; [vm_compute in E; congruence|].
    destruct (update_stamps_updated_at Scenario.town db' (Some "id-seller")
                500%Z n 0) as [H _].
    destruct (H _ _ Scenario.stall E eq_refl eq_refl eq_refl)
      as (r' & Hr & Ht).
    exists r'. split; [exact Hr|]. split; [|exact Ht].
    vm_compute in E. inversion E; subst. simpl in Hr.
    inversion Hr. reflexivity.
  - vm_compute in E. discriminate E.
Defined.

Lemma user_type_check_iff (x : string) :
  user_type_check x = true <-> x = "vendor" \/ x = "customer".
Proof.
  unfold user_type_check. rewrite orb_true_iff, !String.eqb_eq. tauto.
Qed.

(** X23.  For a signed-in visitor whose profile satisfies the CHECK on
    [user_type], [AppContent] shows the vendor dashboard exactly to
    vendors and the customer dashboard exactly to customers; until both
    hooks have loaded it shows the loading screen, and without a user or a
    profile the sign-in form. *)
Theorem routing_by_role
    (authLoading profileLoading : bool) (user : option uuid)
    (profile : option Schema.profile) (u : uuid) (p : Schema.profile) :
  user_type_check (user_type p) = true ->
  (Routing.AppContent false false (Some u) (Some p) = Routing.VendorDashboard
   <-> user_type p = "vendor")
  /\ (Routing.AppContent false false (Some u) (Some p)
      = Routing.CustomerDashboard <-> user_type p = "customer")
  /\ (authLoading || profileLoading = true ->
      Routing.AppContent authLoading profileLoading user profile
      = Routing.Memuat)
  /\ (user = None \/ profile = None ->
      Routing.AppContent false false user profile = Routing.AuthForm).
Proof.
  intros Hc. apply user_type_check_iff in Hc. unfold Routing.AppContent.
  split; [|split; [|split]].
  - simpl. destruct (user_type p =? "vendor") eqn:E.
    + apply String.eqb_eq in E. tauto.
    + apply String.eqb_neq in E. split; [discriminate|contradiction].
  - simpl. destruct (user_type p =? "vendor") eqn:E.
    + apply String.eqb_eq in E. split; [discriminate|].
      intros H. rewrite H in E. discriminate E.
    + apply String.eqb_neq in E. split; [|reflexivity].
      intros _. destruct Hc as [Hc|Hc]; [contradiction|exact Hc].
  - intros ->. reflexivity.
  - simpl. intros [-> | ->]; [reflexivity|]. destruct user; reflexivity.
Qed.

Lemma routing_by_role_witness :
  Routing.AppContent false false (Some "id-customer") (Some Scenario.customer)
  = Routing.CustomerDashboard.
Proof.
  apply (routing_by_role false false None None "id-customer"
           Scenario.customer eq_refl).
  reflexivity.
Defined.

(** X24.  Reads are private where the policies say so.  A signed-in
    user reads only calls they placed or that name a vendor they own, and
    only subscriptions of vendors they own, whatever the query; a session
    without a user reads no row of any table. *)
Theorem reads_are_private (db : DB) (u : uuid) :
  (forall w c, In c (select_customer_calls db (Some u) w) ->
               customer_id c = u
               \/ exists v, In v (vendors db) /\ v_id v = c_vendor_id c
                            /\ user_id v = u)
  /\ (forall w x, In x (select_subscriptions db (Some u) w) ->
                  exists v, In v (vendors db) /\ v_id v = s_vendor_id x
                            /\ user_id v = u)
  /\ (forall w, select_customer_calls db None w = [])
  /\ (forall w, select_subscriptions db None w = [])
  /\ (forall w, select_vendors db None w = [])
  /\ (forall w, select_profiles db None w = []).
Proof.
  split; [|split; [|split; [|split; [|split]]]].
  - intros w c Hc. unfold select_customer_calls, select_rows in Hc.
    apply filter_In in Hc. destruct Hc as [_ Hc].
    apply andb_true_iff in Hc. destruct Hc as [_ Hc].
    unfold customer_calls_select in Hc. apply orb_true_iff in Hc.
    destruct Hc as [Hc|Hc].
    + left. apply uid_is_iff in Hc. exact Hc.
    + right. apply in_own_vendors_iff. exact Hc.
  - intros w x Hx. unfold select_subscriptions, select_rows in Hx.
    apply filter_In in Hx. destruct Hx as [_ Hx].
    apply andb_true_iff in Hx. destruct Hx as [_ Hx].
    apply in_own_vendors_iff. exact Hx.
  - intros w. apply filter_none. intros c _.
    unfold customer_calls_select. rewrite in_own_vendors_anon.
    apply andb_false_r.
  - intros w. apply filter_none. intros x _.
    unfold subscriptions_select. rewrite in_own_vendors_anon.
    apply andb_false_r.
  - intros w. apply filter_none. intros x _. apply andb_false_r.
  - intros w. apply filter_none. intros x _. apply andb_false_r.
Qed.

(** X25.  [toggleLocationTracking] switches the dashboard to "tracking"
    without looking at what became of the UPDATE: whenever a position is
    delivered to a dashboard that is not tracking, the component ends up
    tracking and holding its vendor as active; when the statement cannot be
    carried out (the vendor's row is out of the session's reach, or the
    position does not fit the columns) the tables are as before and the
    stored flag has not moved. *)
Theorem toggle_shows_on_air_regardless
    (db : DB) (st : VendorDashboard.state) (v : vendor)
    (latitude longitude : decimal8) (clock now : timestamptz) :
  VendorDashboard.vendor st = Some v ->
  VendorDashboard.locationTracking st = false ->
  let out := VendorDashboard.toggleLocationTracking db st
               (Some (latitude, longitude)) clock now in
  VendorDashboard.locationTracking (snd out) = true
  /\ option_map is_active (VendorDashboard.vendor (snd out)) = Some (Some true)
  /\ ((forall r, In r (vendors db) -> v_id r = v_id v ->
                 uid_is (VendorDashboard.user st) (user_id r) = false) ->
      fst out = db)
  /\ (fits_decimal_10_8 latitude && fits_decimal_11_8 longitude = false ->
      fst out = db).
Proof.
  intros Hv Ht. unfold VendorDashboard.toggleLocationTracking.
  rewrite Hv, Ht. simpl. split; [reflexivity|]. split; [reflexivity|].
  rewrite update_vendors_spec. simpl. split.
  - intros Hout.
    destruct (fits_decimal_10_8 latitude && fits_decimal_11_8 longitude);
      simpl; [|reflexivity].
    destruct (rewritten_none (vendors_update_using (VendorDashboard.user st))
                (fun x => v_id x =? v_id v)
                (fun r => vendor_touch now
                            (vendor_apply
                               {| set_is_active := Val true;
                                  set_current_latitude := Val latitude;
                                  set_current_longitude := Val longitude;
                                  set_last_location_update := Val clock |} r))
                (vendors db)) as [E _].
    { intros r Hr. destruct (v_id r =? v_id v) eqn:Eid; [|reflexivity].
      apply String.eqb_eq in Eid. simpl. exact (Hout r Hr Eid). }
    rewrite E. destruct db; reflexivity.
  - intros ->. reflexivity.
Qed.

Lemma toggle_shows_on_air_regardless_witness :
  VendorDashboard.locationTracking
    (snd (VendorDashboard.toggleLocationTracking Scenario.town
            {| VendorDashboard.user := None;
               VendorDashboard.vendor := Some Scenario.rival_stall;
               VendorDashboard.calls := [];
               VendorDashboard.subscription := None;
               VendorDashboard.loading := false;
               VendorDashboard.locationTracking := false |}
            (Some ((-630000000)%Z, 10690000000%Z)) 80%Z 81%Z)) = true
  /\ fst (VendorDashboard.toggleLocationTracking Scenario.town
            {| VendorDashboard.user := None;
               VendorDashboard.vendor := Some Scenario.rival_stall;
               VendorDashboard.calls := [];
               VendorDashboard.subscription := None;
               VendorDashboard.loading := false;
               VendorDashboard.locationTracking := false |}
            (Some ((-630000000)%Z, 10690000000%Z)) 80%Z 81%Z)
     = Scenario.town.
Proof.
  destruct (toggle_shows_on_air_regardless Scenario.town
              {| VendorDashboard.user := None;
                 VendorDashboard.vendor := Some Scenario.rival_stall;
                 VendorDashboard.calls := [];
                 VendorDashboard.subscription := None;
                 VendorDashboard.loading := false;
                 VendorDashboard.locationTracking := false |}
              Scenario.rival_stall (-630000000)%Z 10690000000%Z 80%Z 81%Z
              eq_refl eq_refl) as (H1 & _ & H3 & _).
  split; [exact H1|]. apply H3. intros r _ _. reflexivity.
Defined.

(** The customer's call is stored past the end of the table, and names
    the customer. *)
Lemma new_rows_belong_to_sender_witness :
  Some "id-customer" = Some (customer_id Scenario.the_call).
Proof.
  destruct (new_rows_belong_to_sender Scenario.town
              {| Sql.who := Some "id-customer"; Sql.fresh := "call-1";
                 Sql.now := 100%Z;
                 Sql.what :=
                   Sql.InsertCustomerCall
                     {| ci_id := Omitted; ci_customer_id := Val "id-customer";
                        ci_vendor_id := Val "stall-1";
                        ci_customer_latitude := Val (-620000000)%Z;
                        ci_customer_longitude := Val 10681666600%Z;
                        ci_status := Val "pending"; ci_created_at := Omitted;
                        ci_acknowledged_at := Omitted;
                        ci_completed_at := Omitted |} |} 0) as (_ & H & _).
  exact (H Scenario.the_call eq_refl eq_refl).
Defined.

(** The rival's watcher runs while the rival is off air. *)
Lemma watcher_writes_but_never_switches_witness :
  Forall (fun r' => v_id r' <> "stall-2")
    (CustomerDashboard.loadVendors
       (VendorDashboard.startLocationUpdates Scenario.town
          (Scenario.opened Scenario.town "id-rival")
          ((-630000000)%Z, 10690000000%Z) 80%Z 81%Z)
       (Some "id-customer")).
Proof.
  destruct (watcher_writes_but_never_switches Scenario.town
              (Scenario.opened Scenario.town "id-rival")
              ((-630000000)%Z, 10690000000%Z) 80%Z 81%Z) as (_ & _ & H & _).
  apply Forall_forall. apply H. intros r [<-|[<-|[]]]; simpl; intros; discriminate.
Defined.

(** The rival reads the calls: the scenario's call is not among them. *)
Lemma reads_are_private_witness :
  Forall (fun c =>
            customer_id c = "id-rival"
            \/ exists v, In v (vendors Scenario.called)
                         /\ v_id v = c_vendor_id c /\ user_id v = "id-rival")
    (select_customer_calls Scenario.called (Some "id-rival") (fun _ => true)).
Proof.
  destruct (reads_are_private Scenario.called "id-rival") as (H & _).
  apply Forall_forall. exact (H (fun _ => true)).
Defined.

(* ================================================================== *)
(** * The search box                                                   *)
(* ================================================================== *)

Lemma prefix_iff (t s : string) :
  String.prefix t s = true <-> exists post, s = t ++ post.
Proof.
  revert s. induction t as [|a t IH]; intros s; destruct s as [|b s]; simpl.
  - split; [intros _; exists EmptyString; reflexivity|reflexivity].
  - split; [intros _; exists (String b s); reflexivity|reflexivity].
  - split; [discriminate|intros (post & H); discriminate H].
  - destruct (Ascii.ascii_dec a b) as [->|Hab].
    + rewrite IH. split; intros (post & H); exists post; congruence.
    + split; [discriminate|]. intros (post & H). congruence.
Qed.

Lemma includes_step (s t : string) :
  Search.includes s t
  = if String.prefix t s then true
    else match s with
         | EmptyString => false
         | String _ s' => Search.includes s' t
         end.
Proof. destruct s; reflexivity. Qed.

Lemma includes_iff (s t : string) :
  Search.includes s t = true <-> exists pre post, s = pre ++ t ++ post.
Proof.
  split.
  - induction s as [|c s IH]; rewrite includes_step;
      destruct (String.prefix t _) eqn:P.
    + intros _. apply prefix_iff in P. destruct P as (post & ->).
      exists EmptyString, post. reflexivity.
    + discriminate.
    + intros _. apply prefix_iff in P. destruct P as (post & ->).
      exists EmptyString, post. reflexivity.
    + intros H. destruct (IH H) as (pre & post & ->).
      exists (String c pre), post. reflexivity.
  - intros (pre & post & ->). induction pre as [|c pre IH].
    + rewrite includes_step.
      replace (String.prefix t (EmptyString ++ t ++ post)) with true;
        [reflexivity|].
      symmetry. apply prefix_iff. exists post. reflexivity.
    + rewrite includes_step.
      destruct (String.prefix t (String c pre ++ t ++ post));
        [reflexivity|exact IH].
Qed.

Lemma append_assoc (a b c : string) : (a ++ b) ++ c = a ++ (b ++ c).
Proof.
  induction a as [|x a IH]; simpl; [reflexivity|]. rewrite IH. reflexivity.
Qed.

Lemma includes_trans (a b c : string) :
  Search.includes a b = true -> Search.includes b c = true ->
  Search.includes a c = true.
Proof.
  rewrite !includes_iff. intros (p1 & q1 & ->) (p2 & q2 & ->).
  exists (p1 ++ p2), (q2 ++ q1). rewrite !append_assoc. reflexivity.
Qed.

(** X26.  The search only ever hides vendors: what it shows is part of
    the loaded list, in the same order, and is the whole list when the box
    is empty.  Refining a search narrows it: when the lower-cased new term
    contains the lower-cased old one, every vendor shown for the new term
    was shown for the old one. *)
Theorem longer_search_narrows
    (toLowerCase : string -> string) (old new : string)
    (vendors : list vendor) :
  Search.filteredVendors toLowerCase EmptyString vendors = vendors
  /\ (exists keep,
        Search.filteredVendors toLowerCase new vendors = filter keep vendors)
  /\ (new <> EmptyString ->
      Search.includes (toLowerCase new) (toLowerCase old) = true ->
      forall v, In v (Search.filteredVendors toLowerCase new vendors) ->
                In v (Search.filteredVendors toLowerCase old vendors)).
Proof.
  split; [reflexivity|]. split.
  - destruct new as [|c new].
    + exists (fun _ => true). simpl. symmetry.
      induction vendors as [|v l IH]; [reflexivity|]. simpl. congruence.
    + eexists. reflexivity.
  - intros Hne Hinc v Hv. destruct new as [|c new]; [contradiction|].
    unfold Search.filteredVendors in Hv. apply filter_In in Hv.
    destruct Hv as [Hin Hv]. destruct old as [|d old]; [exact Hin|].
    unfold Search.filteredVendors. apply filter_In. split; [exact Hin|].
    apply orb_true_iff in Hv. apply orb_true_iff.
    destruct Hv as [Hv|Hv]; [left|right];
      exact (includes_trans _ _ _ Hv Hinc).
Qed.

Lemma longer_search_narrows_witness :
  Forall (fun v =>
            In v (Search.filteredVendors Cases.lower "bak"
                    [Scenario.stall; Scenario.rival_stall]))
    (Search.filteredVendors Cases.lower "Bakso B"
       [Scenario.stall; Scenario.rival_stall]).
Proof.
  destruct (longer_search_narrows Cases.lower "bak" "Bakso B"
              [Scenario.stall; Scenario.rival_stall]) as (_ & _ & H).
  apply Forall_forall. apply H; [discriminate|reflexivity].
Defined.

(* ================================================================== *)
(** * What the dashboard does not notice, and what never ends          *)
(* ================================================================== *)

(** X27.  The vendor's dashboard reloads on every new call, whoever it
    is for; a call placed to another vendor leaves what the dashboard
    loads exactly as it was. *)
Theorem call_for_another_vendor_changes_nothing
    (db : DB) (st : CustomerDashboard.state) (st0 : VendorDashboard.state)
    (u : uuid) (v : vendor) (vendorId fresh : uuid) (now : timestamptz) :
  VendorDashboard.user st0 = Some u ->
  NoDup (map user_id (vendors db)) ->
  In v (vendors db) -> user_id v = u ->
  vendorId <> v_id v ->
  VendorDashboard.loadVendorData
    (fst (CustomerDashboard.callVendor db st vendorId fresh now)) st0
  = VendorDashboard.loadVendorData db st0.
Proof.
  intros Hu Hnd Hv Hown Hne. unfold CustomerDashboard.callVendor.
  destruct (CustomerDashboard.user st) as [cu|]; [|reflexivity].
  destruct (CustomerDashboard.userLocation st) as [[lat lng]|]; [|reflexivity].
  match goal with
  | |- context [committed db ?r _] => destruct r as [db'|e] eqn:E
  end; simpl; [|reflexivity].
  unfold insert_customer_call in E. simpl in E. bind_inv E.
  inversion E; subst; clear E.
  repeat match goal with
         | G : not_null (Some _) = Ok _ |- _ =>
             simpl in G; inversion G; subst; clear G
         end.
  rewrite !(loadVendorData_found _ st0 (user_id v) v Hu)
    by (simpl; apply own_vendor_alone; assumption).
  f_equal. unfold select_customer_calls. simpl.
  rewrite select_rows_app. simpl.
  apply String.eqb_neq in Hne. rewrite Hne. simpl. rewrite app_nil_r.
  reflexivity.
Qed.

Lemma call_for_another_vendor_changes_nothing_witness :
  VendorDashboard.loadVendorData
    (fst (CustomerDashboard.callVendor Scenario.called Scenario.at_home
            "stall-2" "call-5" 130%Z))
    (Cases.fresh_dashboard "id-seller")
  = VendorDashboard.loadVendorData Scenario.called
      (Cases.fresh_dashboard "id-seller").
Proof.
  apply (call_for_another_vendor_changes_nothing Scenario.called
           Scenario.at_home (Cases.fresh_dashboard "id-seller") "id-seller"
           Scenario.stall "stall-2" "call-5" 130%Z eq_refl).
  - simpl. repeat constructor; simpl; intuition discriminate.
  - left. reflexivity.
  - reflexivity.
  - discriminate.
Defined.

(** What a paid-up vendor's tables hold, and every statement keeps. *)
Lemma statement_keeps_paid (db : DB) (q : Sql.request) (u vid : uuid) :
  NoDup (map user_id (vendors db))
  /\ (exists v, In v (vendors db) /\ v_id v = vid /\ user_id v = u)
  /\ (exists x, In x (subscriptions db) /\ s_vendor_id x = vid
                /\ s_status x = "active") ->
  NoDup (map user_id (vendors (Sql.step db q)))
  /\ (exists v, In v (vendors (Sql.step db q)) /\ v_id v = vid /\ user_id v = u)
  /\ (exists x, In x (subscriptions (Sql.step db q)) /\ s_vendor_id x = vid
                /\ s_status x = "active").
Proof.
  intros (Hnd & (v & Hv & Hid & Hown) & (x & Hx & Hxv & Hxs)).
  destruct (sql_step_effect db q)
    as [E|[(w & p & _ & E & _)|[(w & p & _ & E)|[(v' & E & _ & _ & Hg & _)
       |[(x' & E & _)|[(c & E & _)|(w & p & _ & E & _)]]]]]];
    rewrite E; clear E; simpl.
  - split; [exact Hnd|]. split; [exists v|exists x]; auto.
  - split; [exact Hnd|]. split; [exists v|exists x]; auto.
  - rewrite map_rewritten by reflexivity. split; [exact Hnd|]. split.
    + eexists. split.
      * unfold rewritten. apply in_map. exact Hv.
      * destruct (w v && _); simpl; auto.
    + exists x. auto.
  - rewrite map_app. simpl. split.
    + apply NoDup_snoc; [exact Hnd|]. apply mem_false_iff. exact Hg.
    + split; [exists v|exists x]; repeat split; auto.
      apply in_or_app. left. exact Hv.
  - split; [exact Hnd|]. split; [exists v|exists x]; repeat split; auto.
    apply in_or_app. left. exact Hx.
  - split; [exact Hnd|]. split; [exists v|exists x]; auto.
  - split; [exact Hnd|]. split; [exists v|exists x]; auto.
Qed.

(** X28.  No handler ever ends a subscription.  Once a subscription with
    status active is stored for the owner's vendor, the availability toggle
    is enabled at every later [loadVendorData] of the owner, whatever the
    dashboards of any users have done in between and however long ago the
    subscription's end date has passed. *)
Theorem paid_once_enabled_forever
    (db : DB) (ops : list App.action) (st0 : VendorDashboard.state)
    (u : uuid) (v : vendor) (x : subscription) :
  VendorDashboard.user st0 = Some u ->
  NoDup (map user_id (vendors db)) ->
  In v (vendors db) -> user_id v = u ->
  In x (subscriptions db) -> s_vendor_id x = v_id v -> s_status x = "active" ->
  exists incoming,
    VendorDashboard.render
      (VendorDashboard.loadVendorData (fold_left App.step ops db) st0)
    = VendorDashboard.Dashboard false incoming.
Proof.
  intros Hu Hnd Hv Hown Hx Hxv Hxs.
  assert (J : NoDup (map user_id (vendors (fold_left App.step ops db)))
              /\ (exists v', In v' (vendors (fold_left App.step ops db))
                             /\ v_id v' = v_id v /\ user_id v' = u)
              /\ (exists x', In x' (subscriptions (fold_left App.step ops db))
                             /\ s_vendor_id x' = v_id v
                             /\ s_status x' = "active")).
  { assert (J0 : NoDup (map user_id (vendors db))
                 /\ (exists v', In v' (vendors db)
                                /\ v_id v' = v_id v /\ user_id v' = u)
                 /\ (exists x', In x' (subscriptions db)
                                /\ s_vendor_id x' = v_id v
                                /\ s_status x' = "active")).
    { split; [exact Hnd|]. split; [exists v|exists x]; auto. }
    clear Hnd Hv Hx. revert db J0.
    induction ops as [|a ops IH]; intros db J0; [exact J0|].
    simpl. apply IH.
    destruct (handler_statement db a) as [->|(q & -> & _)]; [exact J0|].
    apply statement_keeps_paid. exact J0. }
  destruct J as (Hnd' & (v' & Hv' & Hid' & Hown') & (x' & Hx' & Hxv' & Hxs')).
  apply (active_subscription_enables _ st0 u v' x'); try assumption.
  congruence.
Qed.

Lemma paid_once_enabled_forever_witness :
  exists incoming,
    VendorDashboard.render
      (VendorDashboard.loadVendorData
         (fold_left App.step Cases.busy_day Scenario.paid_once)
         (Cases.fresh_dashboard "id-seller"))
    = VendorDashboard.Dashboard false incoming.
Proof.
  apply (paid_once_enabled_forever Scenario.paid_once Cases.busy_day
           (Cases.fresh_dashboard "id-seller") "id-seller" Scenario.stall
           {| s_id := "sub-1"; s_vendor_id := "stall-1"; start_date := 0%Z;
              end_date := 30%Z; amount := Some 5000%Z; s_status := "active";
              payment_date := Some 60%Z; s_created_at := Some 61%Z |}
           eq_refl).
  - simpl. repeat constructor; simpl; intuition discriminate.
  - left. reflexivity.
  - reflexivity.
  - left. reflexivity.
  - reflexivity.
  - reflexivity.
Defined.

(* ================================================================== *)
(** * The distance shown to the customer                               *)
(* ================================================================== *)

Section Doubles.
Import Float64.
Local Open Scope Z_scope.

(** ** Rounding to nearest, ties to even *)

Lemma digits2_pos_bounds (p : positive) :
  2 ^ (Zpos (digits2_pos p) - 1) <= Zpos p < 2 ^ Zpos (digits2_pos p).
Proof.
  induction p as [p IH|p IH|]; simpl digits2_pos.
  - rewrite Pos2Z.inj_succ.
    replace (Z.succ (Zpos (digits2_pos p)) - 1)
      with (Z.succ (Zpos (digits2_pos p) - 1)) by lia.
    rewrite !Z.pow_succ_r by lia. lia.
  - rewrite Pos2Z.inj_succ.
    replace (Z.succ (Zpos (digits2_pos p)) - 1)
      with (Z.succ (Zpos (digits2_pos p) - 1)) by lia.
    rewrite !Z.pow_succ_r by lia. lia.
  - simpl. lia.
Qed.

Lemma digits2_pos_eq (p : positive) (d : Z) :
  2 ^ (d - 1) <= Zpos p < 2 ^ d -> Zpos (digits2_pos p) = d.
Proof.
  intros [Hl Hu]. pose proof (digits2_pos_bounds p) as [Bl Bu].
  assert (0 < d).
  { destruct (Z.lt_ge_cases 0 d) as [|Hd]; [assumption|].
    exfalso. destruct (Z.eq_dec d 0) as [->|]; [simpl in Hu; lia|].
    rewrite Z.pow_neg_r in Hu by lia. lia. }
  assert (d - 1 < Zpos (digits2_pos p)).
  { apply (Z.pow_lt_mono_r_iff 2); lia. }
  assert (Zpos (digits2_pos p) - 1 < d).
  { apply (Z.pow_lt_mono_r_iff 2); lia. }
  lia.
Qed.

Lemma shifted_step (m k : Z) (st : shr_record) :
  0 <= k -> shifted m k st -> shifted m (k + 1) (shr_1 st).
Proof.
  intros Hk (rem & Hrem & Hq & Hm & Hloc).
  destruct st as [q r s]. cbn [shr_m shr_r shr_s] in *.
  assert (E : 2 ^ (k + 1) = 2 * 2 ^ k)
    by (rewrite Z.pow_add_r, Z.pow_1_r by lia; lia).
  assert (0 < 2 ^ k) by (apply Z.pow_pos_nonneg; lia).
  unfold shifted. rewrite E. clear E.
  destruct q as [|[p|p|]|p]; cbn [shr_1 shr_m shr_r shr_s]; try lia.
  - exists rem. destruct r, s; cbn [orb] in *; lia.
  - exists (2 ^ k + rem).
    replace (Z.pos p~1) with (2 * Z.pos p + 1) in Hm by lia.
    destruct r, s; cbn [orb] in *; lia.
  - exists rem.
    replace (Z.pos p~0) with (2 * Z.pos p) in Hm by lia.
    destruct r, s; cbn [orb] in *; lia.
  - exists (2 ^ k + rem). destruct r, s; cbn [orb] in *; lia.
Qed.

Lemma shifted_iter (m : Z) (p : positive) :
  forall k st, 0 <= k -> shifted m k st ->
               shifted m (k + Zpos p) (iter_pos shr_1 p st).
Proof.
  induction p as [p IH|p IH|]; intros k st Hk H; simpl.
  - replace (k + Z.pos p~1) with (k + 1 + Z.pos p + Z.pos p) by lia.
    apply IH; [lia|]. apply IH; [lia|]. apply shifted_step; assumption.
  - replace (k + Z.pos p~0) with (k + Z.pos p + Z.pos p) by lia.
    apply IH; [lia|]. apply IH; assumption.
  - apply shifted_step; assumption.
Qed.

Lemma shifted_rne (m k : Z) (st : shr_record) :
  0 <= k -> shifted m k st ->
  round_nearest_even (shr_m st) (loc_of_shr_record st) = rne m k.
Proof.
  intros Hk (rem & Hrem & Hq & Hm & Hloc).
  assert (0 < 2 ^ k) by (apply Z.pow_pos_nonneg; lia).
  assert (Hd : m / 2 ^ k = shr_m st).
  { symmetry. apply (Z.div_unique m (2 ^ k) (shr_m st) rem); lia. }
  assert (Hr : m mod 2 ^ k = rem).
  { symmetry. apply (Z.mod_unique m (2 ^ k) (shr_m st) rem); lia. }
  unfold rne. rewrite Hd, Hr.
  destruct st as [q r s]. cbn [shr_m shr_r shr_s] in *.
  destruct r, s; cbn [loc_of_shr_record round_nearest_even];
    destruct (Z.compare_spec (2 * rem) (2 ^ k)); try lia; reflexivity.
Qed.

Lemma rne_bounds (m k : Z) :
  0 <= k -> m / 2 ^ k <= rne m k <= m / 2 ^ k + 1.
Proof.
  intros Hk. unfold rne.
  destruct (2 * (m mod 2 ^ k) ?= 2 ^ k); [destruct (Z.even _)| |]; lia.
Qed.

Lemma rne_exact (q k : Z) : 0 <= k -> rne (q * 2 ^ k) k = q.
Proof.
  intros Hk. unfold rne.
  assert (0 < 2 ^ k) by (apply Z.pow_pos_nonneg; lia).
  rewrite Z.div_mul by lia. rewrite Z.mod_mul by lia.
  destruct (Z.compare_spec (2 * 0) (2 ^ k)); try lia.
Qed.

Lemma rne_mono (m m' k : Z) : 0 <= k -> m <= m' -> rne m k <= rne m' k.
Proof.
  intros Hk Hm.
  assert (HP : 0 < 2 ^ k) by (apply Z.pow_pos_nonneg; lia).
  pose proof (Z.div_le_mono m m' (2 ^ k) HP Hm) as Hq.
  destruct (Z.eq_dec (m / 2 ^ k) (m' / 2 ^ k)) as [E|N].
  - unfold rne. rewrite <- E.
    pose proof (Z.div_mod m (2 ^ k)) as D1.
    pose proof (Z.div_mod m' (2 ^ k)) as D2.
    rewrite <- E in D2.
    assert (m mod 2 ^ k <= m' mod 2 ^ k) by lia.
    destruct (Z.compare_spec (2 * (m mod 2 ^ k)) (2 ^ k));
      destruct (Z.compare_spec (2 * (m' mod 2 ^ k)) (2 ^ k));
      try lia; destruct (Z.even (m / 2 ^ k)); lia.
  - pose proof (rne_bounds m k Hk). pose proof (rne_bounds m' k Hk). lia.
Qed.

Lemma rne_scale (m k j : Z) :
  0 <= k -> 0 <= j -> rne (m * 2 ^ j) (k + j) = rne m k.
Proof.
  intros Hk Hj. unfold rne.
  assert (0 < 2 ^ k) by (apply Z.pow_pos_nonneg; lia).
  assert (0 < 2 ^ j) by (apply Z.pow_pos_nonneg; lia).
  rewrite Z.pow_add_r by lia.
  rewrite Z.div_mul_cancel_r by lia.
  rewrite Z.mul_mod_distr_r by lia.
  replace (2 * (m mod 2 ^ k * 2 ^ j)) with (2 * (m mod 2 ^ k) * 2 ^ j) by lia.
  rewrite <- Zmult_compare_compat_r by lia. reflexivity.
Qed.

Lemma fexp_eq (x : Z) : fexp 53 1024 x = Z.max (x - 53) (-1074).
Proof. reflexivity. Qed.

Lemma shr_shifted (m e n : Z) :
  0 <= m -> 0 <= n ->
  exists st, shr (Build_shr_record m false false) e n = (st, e + n)
             /\ shifted m n st.
Proof.
  intros Hm Hn. destruct n as [|p|p]; [| |lia].
  - eexists. split; [unfold shr; rewrite Z.add_0_r; reflexivity|].
    exists 0. cbn [shr_m shr_r shr_s]. rewrite Z.pow_0_r. lia.
  - eexists. split; [reflexivity|].
    apply (shifted_iter m p 0); [lia|].
    exists 0. cbn [shr_m shr_r shr_s]. rewrite Z.pow_0_r. lia.
Qed.

Lemma shr_none (st : shr_record) (e n : Z) : n <= 0 -> shr st e n = (st, e).
Proof. intros Hn. destruct n as [|p|p]; [reflexivity|lia|reflexivity]. Qed.

Lemma rne_below (m : positive) (n : Z) :
  0 <= n -> Zpos (digits2_pos m) - 53 <= n ->
  0 <= rne (Zpos m) n <= 2 ^ 53.
Proof.
  intros Hn Hd. pose proof (rne_bounds (Zpos m) n Hn) as [Hl Hu].
  pose proof (digits2_pos_bounds m) as [_ Bu].
  assert (HP : 0 < 2 ^ n) by (apply Z.pow_pos_nonneg; lia).
  assert (0 <= Zpos m / 2 ^ n) by (apply Z.div_pos; lia).
  assert (Zpos m / 2 ^ n < 2 ^ 53).
  { apply Z.div_lt_upper_bound; [lia|].
    rewrite <- Z.pow_add_r by lia.
    apply Z.lt_le_trans with (1 := Bu).
    apply Z.pow_le_mono_r; lia. }
  lia.
Qed.

(** The second normalisation of [binary_round_aux], on a rounded
    mantissa of at most 53 bits, or 2^53. *)
Lemma renormalised (s : bool) (q f : Z) :
  0 <= q <= 2 ^ 53 -> -1074 <= f ->
  (let '(mrs, e) := shr_fexp 53 1024 q f loc_Exact in
   match shr_m mrs with
   | Z0 => S754_zero s
   | Zpos m => if e <=? 1024 - 53 then S754_finite s m e
               else S754_infinity s
   | Zneg _ => S754_nan
   end) = pack s q f.
Proof.
  intros Hq Hf. unfold shr_fexp. cbn [shr_record_of_loc].
  destruct q as [|p|p]; [| |lia].
  - cbn [Zdigits2]. rewrite fexp_eq, shr_none by lia. reflexivity.
  - cbn [Zdigits2]. rewrite fexp_eq. unfold pack.
    destruct (Z.eqb_spec (Zpos p) (2 ^ 53)) as [E|N].
    + inversion E; subst p.
      change (Zpos (digits2_pos 9007199254740992)) with 54.
      replace (Z.max (54 + f - 53) (-1074) - f) with 1 by lia.
      cbn [shr iter_pos shr_1 shr_m]. reflexivity.
    + assert (Zpos (digits2_pos p) <= 53).
      { pose proof (digits2_pos_bounds p) as [Bl _].
        assert (Zpos (digits2_pos p) - 1 < 53); [|lia].
        apply (Z.pow_lt_mono_r_iff 2); lia. }
      rewrite shr_none by lia. reflexivity.
Qed.

Lemma bra_spec (s : bool) (m : positive) (e : Z) :
  e <= fexp 53 1024 (Zpos (digits2_pos m) + e) ->
  binary_round_aux 53 1024 s (Zpos m) e loc_Exact
  = pack s (rne (Zpos m) (fexp 53 1024 (Zpos (digits2_pos m) + e) - e))
      (fexp 53 1024 (Zpos (digits2_pos m) + e)).
Proof.
  intros He. unfold binary_round_aux.
  unfold shr_fexp at 1. cbn [Zdigits2 shr_record_of_loc].
  set (f := fexp 53 1024 (Zpos (digits2_pos m) + e)) in *.
  destruct (shr_shifted (Zpos m) e (f - e)) as (st & -> & Hst); [lia|lia|].
  rewrite (shifted_rne (Zpos m) (f - e) st); [|lia|exact Hst].
  replace (e + (f - e)) with f by lia.
  apply renormalised.
  - apply rne_below; [lia|]. unfold f. rewrite fexp_eq. lia.
  - unfold f. rewrite fexp_eq. lia.
Qed.

Lemma leb_finite (m m' : positive) (e e' : Z) :
  SFleb (S754_finite false m e) (S754_finite false m' e') = true
  <-> e < e' \/ (e = e' /\ Zpos m <= Zpos m').
Proof.
  unfold SFleb, SFcompare.
  change (Pos.compare_cont Eq m m') with (Pos.compare m m').
  destruct (Z.compare_spec e e') as [E|L|G].
  - destruct (Pos.compare_spec m m') as [E'|L'|G']; split;
      try reflexivity; try discriminate; intros; try lia.
  - split; [intros _; lia|reflexivity].
  - split; [discriminate|lia].
Qed.

Lemma pack_pos_cases (q f : Z) :
  0 < q <= 2 ^ 53 ->
  pack false q f = S754_infinity false
  \/ exists m e, pack false q f = S754_finite false m e
                 /\ e <= 971
                 /\ ((q = 2 ^ 53 /\ Zpos m = 2 ^ 52 /\ e = f + 1)
                     \/ (q < 2 ^ 53 /\ Zpos m = q /\ e = f)).
Proof.
  intros Hq. unfold pack. destruct q as [|p|p]; [lia| |lia].
  destruct (Z.eqb_spec (Zpos p) (2 ^ 53)) as [E|N].
  - destruct (Z.leb_spec (f + 1) 971); [|left; reflexivity].
    right. exists 4503599627370496%positive, (f + 1).
    split; [reflexivity|]. split; [lia|]. left.
    change (Zpos 4503599627370496) with (2 ^ 52). lia.
  - destruct (Z.leb_spec f 971); [|left; reflexivity].
    right. exists p, f. split; [reflexivity|]. split; [lia|]. right. lia.
Qed.

Lemma pack_inf (q f : Z) :
  0 < q <= 2 ^ 53 -> pack false q f = S754_infinity false ->
  (q = 2 ^ 53 /\ 971 < f + 1) \/ (q < 2 ^ 53 /\ 971 < f).
Proof.
  intros Hq. unfold pack. destruct q as [|p|p]; [lia| |lia].
  destruct (Z.eqb_spec (Zpos p) (2 ^ 53)) as [E|N].
  - destruct (Z.leb_spec (f + 1) 971); [discriminate|]. intros _. left. lia.
  - destruct (Z.leb_spec f 971); [discriminate|]. intros _. right. lia.
Qed.

(** The order of two rounded results, from the order of what was
    rounded. *)
Lemma pack_leb (q f q' f' : Z) :
  0 <= q <= 2 ^ 53 -> 0 <= q' <= 2 ^ 53 ->
  (f = f' /\ q <= q') \/ (f < f' /\ 2 ^ 52 <= q') ->
  SFleb (pack false q f) (pack false q' f') = true.
Proof.
  intros Hq Hq' Hord.
  destruct (Z.eq_dec q 0) as [->|Hq0].
  - destruct (Z.eq_dec q' 0) as [->|Hq0']; [reflexivity|].
    destruct (pack_pos_cases q' f') as [->|(m & e & -> & _)];
      [lia|reflexivity|reflexivity].
  - assert (Hp : 0 < q') by lia.
    destruct (pack_pos_cases q f) as [E|(m & e & E & He & Hc)]; [lia| |].
    + rewrite E. apply pack_inf in E; [|lia].
      destruct (pack_pos_cases q' f') as [->|(m' & e' & E' & He' & Hc')];
        [lia|reflexivity|]. exfalso. lia.
    + rewrite E.
      destruct (pack_pos_cases q' f') as [->|(m' & e' & -> & He' & Hc')];
        [lia|reflexivity|].
      apply leb_finite. lia.
Qed.

(** Rounding keeps the order.  [M] and [M'] are the two exact values on
    a common scale [2 ^ k]; [D] and [D'] are their magnitudes. *)
Lemma pack_rne_mono (M M' D D' k : Z) :
  0 < M -> M <= M' ->
  k < D -> 2 ^ (D - 1 - k) <= M < 2 ^ (D - k) ->
  k < D' -> 2 ^ (D' - 1 - k) <= M' < 2 ^ (D' - k) ->
  k <= Z.max (D - 53) (-1074) -> k <= Z.max (D' - 53) (-1074) ->
  SFleb (pack false (rne M (Z.max (D - 53) (-1074) - k))
           (Z.max (D - 53) (-1074)))
        (pack false (rne M' (Z.max (D' - 53) (-1074) - k))
           (Z.max (D' - 53) (-1074))) = true.
Proof.
  intros HM HMM HD [Bl Bu] HD' [Bl' Bu'] Hk Hk'.
  set (f := Z.max (D - 53) (-1074)) in *.
  set (f' := Z.max (D' - 53) (-1074)) in *.
  assert (HDD : D <= D').
  { assert (D - 1 - k < D' - k); [|lia].
    apply (Z.pow_lt_mono_r_iff 2); lia. }
  assert (Hb : forall N E g, 0 < N -> N < 2 ^ (E - k) -> k <= g ->
                             E - 53 <= g -> 0 <= rne N (g - k) <= 2 ^ 53).
  { intros N E g HN HNu Hg HE.
    pose proof (rne_bounds N (g - k) ltac:(lia)) as [Hl Hu].
    assert (HP : 0 < 2 ^ (g - k)) by (apply Z.pow_pos_nonneg; lia).
    assert (0 <= N / 2 ^ (g - k)) by (apply Z.div_pos; lia).
    assert (N / 2 ^ (g - k) < 2 ^ 53).
    { apply Z.div_lt_upper_bound; [lia|].
      rewrite <- Z.pow_add_r by lia.
      apply Z.lt_le_trans with (1 := HNu).
      destruct (Z.le_gt_cases 0 (E - k)).
      - apply Z.pow_le_mono_r; lia.
      - rewrite Z.pow_neg_r in HNu by lia. lia. }
    lia. }
  apply pack_leb.
  - apply (Hb M D f); unfold f; lia.
  - apply (Hb M' D' f'); unfold f'; lia.
  - destruct (Z.eq_dec f f') as [E|N].
    + left. split; [exact E|]. rewrite <- E. apply rne_mono; lia.
    + right. split; [unfold f, f' in *; lia|].
      assert (Ef : f' = D' - 53) by (unfold f, f' in *; lia).
      replace (2 ^ 52) with (rne (2 ^ 52 * 2 ^ (f' - k)) (f' - k))
        by (apply rne_exact; lia).
      apply rne_mono; [lia|].
      rewrite <- Z.pow_add_r by lia.
      replace (52 + (f' - k)) with (D' - 1 - k) by lia. exact Bl'.
Qed.

Lemma iter_xO (n d : positive) : Zpos (Pos.iter xO n d) = Zpos n * 2 ^ Zpos d.
Proof.
  revert n. induction d as [d IH|d IH|]; intros n; simpl Pos.iter.
  - rewrite Pos2Z.inj_xO, !IH.
    replace (Z.pos d~1) with (Zpos d + Zpos d + 1) by lia.
    rewrite !Z.pow_add_r, Z.pow_1_r by lia. lia.
  - rewrite !IH. replace (Z.pos d~0) with (Zpos d + Zpos d) by lia.
    rewrite Z.pow_add_r by lia. lia.
  - rewrite Z.pow_1_r. lia.
Qed.

Lemma digits2_pos_scaled (n n2 : positive) (j : Z) :
  0 <= j -> Zpos n2 = Zpos n * 2 ^ j ->
  Zpos (digits2_pos n2) = Zpos (digits2_pos n) + j.
Proof.
  intros Hj E. apply digits2_pos_eq. rewrite E.
  pose proof (digits2_pos_bounds n) as [Bl Bu].
  assert (0 < 2 ^ j) by (apply Z.pow_pos_nonneg; lia).
  replace (Zpos (digits2_pos n) + j - 1)
    with (Zpos (digits2_pos n) - 1 + j) by lia.
  rewrite !Z.pow_add_r by lia. split.
  - apply Z.mul_le_mono_nonneg_r; lia.
  - apply Z.mul_lt_mono_pos_r; lia.
Qed.

(** [binary_round] rounds an aligned mantissa of the same value. *)
Lemma binary_round_aligned (s : bool) (n : positive) (e : Z) :
  exists n2 e2,
    binary_round 53 1024 s n e
    = binary_round_aux 53 1024 s (Zpos n2) e2 loc_Exact
    /\ e2 <= e /\ Zpos n2 = Zpos n * 2 ^ (e - e2)
    /\ e2 <= fexp 53 1024 (Zpos (digits2_pos n2) + e2).
Proof.
  unfold binary_round, shl_align.
  set (f := fexp 53 1024 (Zpos (digits2_pos n) + e)).
  destruct (f - e) as [|d|d] eqn:E.
  - exists n, e. split; [reflexivity|]. rewrite Z.sub_diag, Z.pow_0_r.
    fold f. lia.
  - exists n, e. split; [reflexivity|]. rewrite Z.sub_diag, Z.pow_0_r.
    fold f. lia.
  - exists (Pos.iter xO n d), f. split; [reflexivity|].
    assert (Ed : e - f = Zpos d) by lia.
    assert (En : Zpos (Pos.iter xO n d) = Zpos n * 2 ^ (e - f))
      by (rewrite Ed; apply iter_xO).
    split; [lia|]. split; [exact En|].
    rewrite (digits2_pos_scaled n _ (e - f)) by (lia || exact En).
    replace (Zpos (digits2_pos n) + (e - f) + f)
      with (Zpos (digits2_pos n) + e) by lia.
    fold f. lia.
Qed.

Lemma bra_is_round (s : bool) (n : positive) (e : Z) :
  e <= fexp 53 1024 (Zpos (digits2_pos n) + e) ->
  binary_round_aux 53 1024 s (Zpos n) e loc_Exact = binary_round 53 1024 s n e.
Proof.
  intros H. unfold binary_round, shl_align.
  destruct (fexp 53 1024 (Zpos (digits2_pos n) + e) - e) eqn:E;
    [reflexivity|reflexivity|lia].
Qed.

(** What [binary_round] returns, on any scale [2 ^ k] below the
    exponent and the quantum. *)
Lemma binary_round_spec (s : bool) (n : positive) (e k : Z) :
  k <= e -> k <= fexp 53 1024 (Zpos (digits2_pos n) + e) ->
  binary_round 53 1024 s n e
  = pack s (rne (Zpos n * 2 ^ (e - k))
              (fexp 53 1024 (Zpos (digits2_pos n) + e) - k))
      (fexp 53 1024 (Zpos (digits2_pos n) + e)).
Proof.
  intros Hk Hf.
  destruct (binary_round_aligned s n e) as (n2 & e2 & -> & He2 & En & Hp).
  assert (Ed : Zpos (digits2_pos n2) + e2 = Zpos (digits2_pos n) + e).
  { rewrite (digits2_pos_scaled n n2 (e - e2)) by (lia || exact En). lia. }
  rewrite bra_spec by exact Hp. rewrite Ed in *.
  set (f := fexp 53 1024 (Zpos (digits2_pos n) + e)) in *.
  f_equal. rewrite En.
  destruct (Z.le_gt_cases k e2) as [Hle|Hgt].
  - rewrite <- (rne_scale (Zpos n * 2 ^ (e - e2)) (f - e2) (e2 - k))
      by lia.
    rewrite <- Z.mul_assoc, <- Z.pow_add_r by lia.
    f_equal; [f_equal; f_equal; lia|lia].
  - rewrite <- (rne_scale (Zpos n * 2 ^ (e - k)) (f - k) (k - e2)) by lia.
    rewrite <- Z.mul_assoc, <- Z.pow_add_r by lia.
    f_equal; [f_equal; f_equal; lia|lia].
Qed.

Lemma le_value_scale (n n' : positive) (e e' k : Z) :
  k <= e -> k <= e' -> le_value n e n' e' ->
  Zpos n * 2 ^ (e - k) <= Zpos n' * 2 ^ (e' - k).
Proof.
  intros Hk Hk' H. unfold le_value in H.
  set (j := Z.min e e') in *.
  replace (e - k) with (e - j + (j - k)) by lia.
  replace (e' - k) with (e' - j + (j - k)) by lia.
  rewrite !Z.pow_add_r, !Z.mul_assoc by lia.
  apply Z.mul_le_mono_nonneg_r; [|exact H].
  apply Z.pow_nonneg. lia.
Qed.

Theorem binary_round_mono (n n' : positive) (e e' : Z) :
  le_value n e n' e' ->
  SFleb (binary_round 53 1024 false n e) (binary_round 53 1024 false n' e')
  = true.
Proof.
  intros H.
  set (D := Zpos (digits2_pos n) + e).
  set (D' := Zpos (digits2_pos n') + e').
  set (k := Z.min (Z.min e e') (-1074)).
  rewrite (binary_round_spec false n e k),
          (binary_round_spec false n' e' k);
    try (rewrite ?fexp_eq; unfold k; lia).
  rewrite !fexp_eq. fold D D'.
  pose proof (digits2_pos_bounds n) as [Bl Bu].
  pose proof (digits2_pos_bounds n') as [Bl' Bu'].
  assert (Hs : forall (x : positive) (y : Z), k <= y ->
            2 ^ (Zpos (digits2_pos x) + y - 1 - k) <= Zpos x * 2 ^ (y - k)
            < 2 ^ (Zpos (digits2_pos x) + y - k)).
  { intros x y Hy. pose proof (digits2_pos_bounds x) as [Xl Xu].
    assert (0 < 2 ^ (y - k)) by (apply Z.pow_pos_nonneg; lia).
    replace (Zpos (digits2_pos x) + y - 1 - k)
      with (Zpos (digits2_pos x) - 1 + (y - k)) by lia.
    replace (Zpos (digits2_pos x) + y - k)
      with (Zpos (digits2_pos x) + (y - k)) by lia.
    rewrite !Z.pow_add_r by lia. split.
    - apply Z.mul_le_mono_nonneg_r; lia.
    - apply Z.mul_lt_mono_pos_r; lia. }
  apply pack_rne_mono.
  - assert (0 < 2 ^ (e - k)) by (apply Z.pow_pos_nonneg; unfold k; lia).
    lia.
  - apply le_value_scale; [unfold k; lia|unfold k; lia|exact H].
  - unfold D, k. lia.
  - apply Hs. unfold k. lia.
  - unfold D', k. lia.
  - apply Hs. unfold k. lia.
  - unfold k. lia.
  - unfold k. lia.
Qed.


(** ** What rounding returns *)

Lemma rne_le_2_53 (N E g k : Z) :
  0 <= N -> N < 2 ^ (E - k) -> k <= g -> E - 53 <= g ->
  0 <= rne N (g - k) <= 2 ^ 53.
Proof.
  intros HN HNu Hg HE.
  pose proof (rne_bounds N (g - k) ltac:(lia)) as [Hl Hu].
  assert (HP : 0 < 2 ^ (g - k)) by (apply Z.pow_pos_nonneg; lia).
  assert (0 <= N / 2 ^ (g - k)) by (apply Z.div_pos; lia).
  assert (N / 2 ^ (g - k) < 2 ^ 53).
  { apply Z.div_lt_upper_bound; [lia|].
    rewrite <- Z.pow_add_r by lia.
    apply Z.lt_le_trans with (1 := HNu).
    destruct (Z.le_gt_cases 0 (E - k)).
    - apply Z.pow_le_mono_r; lia.
    - rewrite Z.pow_neg_r in HNu by lia. lia. }
  lia.
Qed.

Lemma rne_ge_2_52 (N E k : Z) :
  2 ^ (E - 1 - k) <= N -> k <= E - 53 -> 2 ^ 52 <= rne N (E - 53 - k).
Proof.
  intros HN Hk.
  replace (2 ^ 52) with (rne (2 ^ 52 * 2 ^ (E - 53 - k)) (E - 53 - k))
    by (apply rne_exact; lia).
  apply rne_mono; [lia|].
  rewrite <- Z.pow_add_r by lia.
  replace (52 + (E - 53 - k)) with (E - 1 - k) by lia. exact HN.
Qed.

(** The rounded mantissa and quantum of [n * 2 ^ e]. *)
Lemma binary_round_pack (s : bool) (n : positive) (e : Z) :
  exists q f,
    binary_round 53 1024 s n e = pack s q f
    /\ f = Z.max (Zpos (digits2_pos n) + e - 53) (-1074)
    /\ 0 <= q <= 2 ^ 53
    /\ (-1074 < f -> 2 ^ 52 <= q)
    /\ (-1074 <= e -> 0 < q).
Proof.
  set (D := Zpos (digits2_pos n) + e).
  set (f := Z.max (D - 53) (-1074)).
  set (k := Z.min e f).
  assert (Hf : D - 53 <= f /\ -1074 <= f /\ (-1074 < f -> f = D - 53))
    by (unfold f; lia).
  assert (Hk : k <= e /\ k <= f /\ (f <= e -> k = f)) by (unfold k; lia).
  assert (Ef : f = Z.max (Zpos (digits2_pos n) + e - 53) (-1074))
    by reflexivity.
  assert (Es : binary_round 53 1024 s n e
               = pack s (rne (Zpos n * 2 ^ (e - k)) (f - k)) f).
  { rewrite (binary_round_spec s n e k); rewrite ?fexp_eq; fold D; fold f;
      [reflexivity|lia|lia]. }
  clearbody k f.
  exists (rne (Zpos n * 2 ^ (e - k)) (f - k)), f.
  pose proof (digits2_pos_bounds n) as [Bl Bu].
  assert (HP : 0 < 2 ^ (e - k)) by (apply Z.pow_pos_nonneg; lia).
  assert (HN : 0 < Zpos n * 2 ^ (e - k)) by (apply Z.mul_pos_pos; lia).
  assert (Hs : 2 ^ (D - 1 - k) <= Zpos n * 2 ^ (e - k) < 2 ^ (D - k)).
  { unfold D.
    replace (Zpos (digits2_pos n) + e - 1 - k)
      with (Zpos (digits2_pos n) - 1 + (e - k)) by lia.
    replace (Zpos (digits2_pos n) + e - k)
      with (Zpos (digits2_pos n) + (e - k)) by lia.
    rewrite !Z.pow_add_r by lia. split.
    - apply Z.mul_le_mono_nonneg_r; lia.
    - apply Z.mul_lt_mono_pos_r; lia. }
  split; [exact Es|]. split; [reflexivity|]. split; [|split].
  - apply (rne_le_2_53 _ D); lia.
  - intros Hf'. replace f with (D - 53) by lia.
    apply rne_ge_2_52; [apply Hs|lia].
  - intros He. destruct (Z.le_gt_cases f e) as [Hfe|Hfe].
    + replace k with f in * by lia. rewrite Z.sub_diag.
      pose proof (rne_exact (Zpos n * 2 ^ (e - f)) 0 (Z.le_refl 0)) as Hx.
      rewrite Z.pow_0_r, Z.mul_1_r in Hx. rewrite Hx. exact HN.
    + assert (2 ^ 52 <= rne (Zpos n * 2 ^ (e - k)) (f - k)); [|lia].
      replace f with (D - 53) by lia.
      apply rne_ge_2_52; [apply Hs|lia].
Qed.

Lemma pack_valid (s : bool) (q f : Z) :
  0 <= q <= 2 ^ 53 -> -1074 <= f -> (-1074 < f -> 2 ^ 52 <= q) ->
  valid (pack s q f) = true.
Proof.
  intros Hq Hf Hn. unfold pack. destruct q as [|p|p]; [reflexivity| |lia].
  destruct (Z.eqb_spec (Zpos p) (2 ^ 53)) as [E|N].
  - destruct (Z.leb_spec (f + 1) 971) as [L|G]; [|reflexivity].
    unfold valid, valid_binary, bounded, canonical_mantissa.
    change (Zpos (digits2_pos 4503599627370496)) with 53.
    rewrite fexp_eq. apply andb_true_iff. split.
    + apply Z.eqb_eq. lia.
    + apply Z.leb_le. unfold emax, prec. lia.
  - destruct (Z.leb_spec f 971) as [L|G]; [|reflexivity].
    unfold valid, valid_binary, bounded, canonical_mantissa.
    rewrite fexp_eq. apply andb_true_iff. split.
    + apply Z.eqb_eq.
      pose proof (digits2_pos_bounds p) as [Bl Bu].
      assert (Zpos (digits2_pos p) <= 53).
      { assert (Zpos (digits2_pos p) - 1 < 53); [|lia].
        apply (Z.pow_lt_mono_r_iff 2); lia. }
      destruct (Z.eq_dec f (-1074)) as [->|Hf']; [lia|].
      assert (52 < Zpos (digits2_pos p)); [|lia].
      apply (Z.pow_lt_mono_r_iff 2); lia.
    + apply Z.leb_le. unfold emax, prec. lia.
Qed.

Lemma binary_round_valid (s : bool) (n : positive) (e : Z) :
  valid (binary_round 53 1024 s n e) = true.
Proof.
  destruct (binary_round_pack s n e) as (q & f & -> & Ef & Hq & Hn & _).
  apply pack_valid; [exact Hq|lia|exact Hn].
Qed.

Lemma pack_pos (q f : Z) : 0 <= q -> pos (pack false q f) = true.
Proof.
  intros Hq. unfold pack. destruct q as [|p|p]; [reflexivity| |lia].
  destruct (Zpos p =? 2 ^ 53); [destruct (f + 1 <=? 971)|destruct (f <=? 971)];
    reflexivity.
Qed.

Lemma binary_round_pos (n : positive) (e : Z) :
  pos (binary_round 53 1024 false n e) = true.
Proof.
  destruct (binary_round_pack false n e) as (q & f & -> & _ & Hq & _).
  apply pack_pos. lia.
Qed.

Lemma binary_round_nonzero (s s' : bool) (n : positive) (e : Z) :
  -1074 <= e -> binary_round 53 1024 s n e <> S754_zero s'.
Proof.
  intros He.
  destruct (binary_round_pack s n e) as (q & f & -> & _ & Hq & _ & Hz).
  specialize (Hz He). unfold pack. destruct q as [|p|p]; [lia| |lia].
  destruct (Zpos p =? 2 ^ 53); [destruct (f + 1 <=? 971)|destruct (f <=? 971)];
    discriminate.
Qed.

Lemma binary_round_finite (s : bool) (n : positive) (e : Z) :
  Zpos (digits2_pos n) + e <= 1023 ->
  finite (binary_round 53 1024 s n e) = true.
Proof.
  intros HD.
  destruct (binary_round_pack s n e) as (q & f & -> & Ef & Hq & _).
  unfold pack. destruct q as [|p|p]; [reflexivity| |lia].
  destruct (Zpos p =? 2 ^ 53).
  - destruct (Z.leb_spec (f + 1) 971); [reflexivity|lia].
  - destruct (Z.leb_spec f 971); [reflexivity|lia].
Qed.

Lemma binary_round_opp (s : bool) (n : positive) (e : Z) :
  binary_round 53 1024 (negb s) n e = SFopp (binary_round 53 1024 s n e).
Proof.
  destruct (binary_round_pack s n e) as (q & f & E & Ef & _).
  destruct (binary_round_pack (negb s) n e) as (q' & f' & E' & Ef' & _).
  assert (Hs : forall b, binary_round 53 1024 b n e
               = pack b (rne (Zpos n * 2 ^ (e - Z.min e f)) (f - Z.min e f)) f).
  { intros b. rewrite (binary_round_spec b n e (Z.min e f));
      rewrite ?fexp_eq; try lia. rewrite <- Ef. reflexivity. }
  rewrite !Hs. unfold pack.
  destruct (rne _ _) as [|p|p]; [reflexivity| |reflexivity].
  destruct (Zpos p =? 2 ^ 53); [destruct (f + 1 <=? 971)|destruct (f <=? 971)];
    reflexivity.
Qed.

(** ** Doubles *)

Lemma valid_finite (s : bool) (m : positive) (e : Z) :
  valid (S754_finite s m e) = true ->
  Zpos (digits2_pos m) <= 53 /\ -1074 <= e <= 971
  /\ (e = -1074 \/ Zpos (digits2_pos m) = 53).
Proof.
  unfold valid, valid_binary, bounded, canonical_mantissa.
  rewrite fexp_eq, andb_true_iff, Z.eqb_eq, Z.leb_le.
  unfold emax, prec. lia.
Qed.

Lemma leb_zero_pos (y : number) :
  pos y = true -> SFleb (S754_zero false) y = true.
Proof. destruct y as [[|]|[|]| |[|] m e]; try discriminate; reflexivity. Qed.

Lemma leb_pos_inf (y : number) :
  pos y = true -> SFleb y (S754_infinity false) = true.
Proof. destruct y as [[|]|[|]| |[|] m e]; try discriminate; reflexivity. Qed.

Lemma mul_finite (s s' : bool) (m m' : positive) (e e' : Z) :
  valid (S754_finite s m e) = true -> valid (S754_finite s' m' e') = true ->
  mul (S754_finite s m e) (S754_finite s' m' e')
  = binary_round 53 1024 (xorb s s') (m * m') (e + e').
Proof.
  intros V V'. apply valid_finite in V. apply valid_finite in V'.
  unfold mul, SFmul, prec, emax. apply bra_is_round. rewrite fexp_eq.
  pose proof (digits2_pos_bounds m) as [Bl Bu].
  pose proof (digits2_pos_bounds m') as [Bl' Bu'].
  pose proof (digits2_pos_bounds (m * m')) as [Pl Pu].
  rewrite Pos2Z.inj_mul in Pl, Pu.
  destruct V as (Hd & He & [E|E]); destruct V' as (Hd' & He' & [E'|E']);
    try lia.
  - assert (52 < Zpos (digits2_pos (m * m'))); [|lia].
    apply (Z.pow_lt_mono_r_iff 2); [lia|lia|].
    rewrite E' in Bl'. change (53 - 1) with 52 in Bl'. nia.
  - assert (52 < Zpos (digits2_pos (m * m'))); [|lia].
    apply (Z.pow_lt_mono_r_iff 2); [lia|lia|].
    rewrite E in Bl. change (53 - 1) with 52 in Bl. nia.
  - assert (52 < Zpos (digits2_pos (m * m'))); [|lia].
    apply (Z.pow_lt_mono_r_iff 2); [lia|lia|].
    rewrite E in Bl. change (53 - 1) with 52 in Bl. nia.
Qed.

Lemma leb_le_value (m m' : positive) (e e' : Z) :
  valid (S754_finite false m e) = true ->
  valid (S754_finite false m' e') = true ->
  SFleb (S754_finite false m e) (S754_finite false m' e') = true ->
  le_value m e m' e'.
Proof.
  intros V V' H. apply valid_finite in V. apply valid_finite in V'.
  apply leb_finite in H. unfold le_value.
  destruct H as [H|[-> H]].
  - rewrite Z.min_l by lia. rewrite Z.sub_diag, Z.pow_0_r.
    pose proof (digits2_pos_bounds m) as [_ Bu].
    pose proof (digits2_pos_bounds m') as [Bl' _].
    assert (E' : Zpos (digits2_pos m') = 53) by lia.
    rewrite E' in Bl'. change (53 - 1) with 52 in Bl'.
    assert (Zpos m < 2 ^ 53).
    { apply Z.lt_le_trans with (1 := Bu). apply Z.pow_le_mono_r; lia. }
    assert (2 ^ 1 <= 2 ^ (e' - e)) by (apply Z.pow_le_mono_r; lia).
    change (2 ^ 1) with 2 in *. nia.
  - rewrite Z.min_id, Z.sub_diag, Z.pow_0_r. lia.
Qed.

Lemma le_value_mul (k m m' : positive) (ek e e' : Z) :
  le_value m e m' e' -> le_value (k * m) (ek + e) (k * m') (ek + e').
Proof.
  unfold le_value. intros H. rewrite Z.add_min_distr_l.
  replace (ek + e - (ek + Z.min e e')) with (e - Z.min e e') by lia.
  replace (ek + e' - (ek + Z.min e e')) with (e' - Z.min e e') by lia.
  rewrite !Pos2Z.inj_mul, <- !Z.mul_assoc.
  apply Z.mul_le_mono_nonneg_l; [lia|exact H].
Qed.

(** Multiplication by a positive double keeps the order of the
    non-negative doubles. *)
Theorem mul_mono_r (mk : positive) (ek : Z) (x x' : number) :
  valid (S754_finite false mk ek) = true ->
  valid x = true -> valid x' = true -> pos x = true -> pos x' = true ->
  leb x x' = true ->
  leb (mul (S754_finite false mk ek) x) (mul (S754_finite false mk ek) x')
  = true.
Proof.
  intros Vk V V' P P' H. unfold leb in *.
  destruct x as [[|]|[|]| |[|] m e]; try discriminate P;
    destruct x' as [[|]|[|]| |[|] m' e']; try discriminate P';
    try discriminate H; try reflexivity.
  - rewrite mul_finite by assumption.
    apply leb_zero_pos. apply binary_round_pos.
  - rewrite !mul_finite by assumption.
    apply leb_pos_inf. apply binary_round_pos.
  - rewrite !mul_finite by assumption. apply binary_round_mono.
    apply le_value_mul. apply leb_le_value; assumption.
Qed.

Lemma mul_valid (x y : number) :
  valid x = true -> valid y = true -> valid (mul x y) = true.
Proof.
  intros V V'.
  destruct x as [s|s| |s m e]; destruct y as [s'|s'| |s' m' e'];
    try reflexivity.
  rewrite mul_finite by assumption. apply binary_round_valid.
Qed.

Lemma mul_pos_r (mk : positive) (ek : Z) (x : number) :
  valid (S754_finite false mk ek) = true ->
  valid x = true -> pos x = true ->
  pos (mul (S754_finite false mk ek) x) = true.
Proof.
  intros Vk V P.
  destruct x as [[|]|[|]| |[|] m e]; try discriminate P; try reflexivity.
  rewrite mul_finite by assumption. apply binary_round_pos.
Qed.

(** ** [1 - a] *)

Lemma one_eq : one = S754_finite false 4503599627370496 (-52).
Proof. reflexivity. Qed.

Lemma shl_align_fst (m : positive) (e ez : Z) :
  ez <= e -> Zpos (fst (shl_align m e ez)) = Zpos m * 2 ^ (e - ez).
Proof.
  intros H. unfold shl_align. destruct (ez - e) as [|d|d] eqn:E.
  - replace (e - ez) with 0 by lia. simpl fst. lia.
  - lia.
  - simpl fst. rewrite iter_xO. f_equal. f_equal. lia.
Qed.

Lemma sub_one_finite (m : positive) (e : Z) :
  valid (S754_finite false m e) = true ->
  leb (S754_finite false m e) one = true ->
  sub one (S754_finite false m e)
  = binary_normalize 53 1024 (2 ^ (- e) - Zpos m) e false
  /\ 0 <= 2 ^ (- e) - Zpos m /\ e <= -52.
Proof.
  intros V H. apply valid_finite in V. rewrite one_eq in *.
  unfold leb in H. apply leb_finite in H.
  assert (He : e <= -52) by lia.
  split; [|split; [|exact He]].
  - unfold sub, SFsub, prec, emax. cbn [cond_Zopp].
    replace (Z.min (-52) e) with e by lia.
    rewrite !shl_align_fst by lia.
    f_equal. rewrite Z.sub_diag, Z.pow_0_r, Z.mul_1_r.
    change (Zpos 4503599627370496) with (2 ^ 52).
    rewrite <- Z.pow_add_r by lia. f_equal. f_equal. lia.
  - pose proof (digits2_pos_bounds m) as [_ Bu].
    destruct H as [H|[-> H]].
    + assert (Zpos m < 2 ^ 53).
      { apply Z.lt_le_trans with (1 := Bu). apply Z.pow_le_mono_r; lia. }
      assert (2 ^ 53 <= 2 ^ (- e)) by (apply Z.pow_le_mono_r; lia). lia.
    + change (2 ^ (- -52)) with 4503599627370496. lia.
Qed.

Lemma sub_one_valid_pos (a : number) :
  valid a = true -> pos a = true -> leb a one = true ->
  valid (sub one a) = true /\ pos (sub one a) = true.
Proof.
  intros V P H.
  destruct a as [[|]|[|]| |[|] m e]; try discriminate P; try discriminate H.
  - split; reflexivity.
  - destruct (sub_one_finite m e V H) as (-> & Hz & _).
    destruct (2 ^ (- e) - Zpos m) as [|p|p]; [split; reflexivity| |lia].
    split; [apply binary_round_valid|apply binary_round_pos].
Qed.

(** [a <= a' <= 1] gives [1 - a' <= 1 - a]. *)
Theorem sub_one_anti (a a' : number) :
  valid a = true -> valid a' = true -> pos a = true -> pos a' = true ->
  leb a a' = true -> leb a' one = true ->
  leb (sub one a') (sub one a) = true.
Proof.
  intros V V' P P' H H1.
  destruct a' as [[|]|[|]| |[|] m' e']; try discriminate P';
    try discriminate H1.
  - destruct a as [[|]|[|]| |[|] m e]; try discriminate P;
      try discriminate H. reflexivity.
  - destruct (sub_one_finite m' e' V' H1) as (E' & Hz' & He').
    rewrite E'.
    destruct a as [[|]|[|]| |[|] m e]; try discriminate P;
      try discriminate H.
    + change (sub one (S754_zero false)) with one.
      destruct (2 ^ (- e') - Zpos m') as [|p'|p'] eqn:Ep; [reflexivity| |lia].
      unfold leb, binary_normalize.
      change one with (binary_round 53 1024 false 4503599627370496 (-52)).
      apply binary_round_mono. unfold le_value.
      rewrite Z.min_l by lia. rewrite Z.sub_diag, Z.pow_0_r.
      change (Zpos 4503599627370496) with (2 ^ 52).
      rewrite <- Z.pow_add_r by lia.
      replace (52 + (-52 - e')) with (- e') by lia. lia.
    + assert (H0 : leb (S754_finite false m e) one = true).
      { unfold leb in *. rewrite one_eq in *.
        apply leb_finite in H. apply leb_finite in H1. apply leb_finite.
        lia. }
      destruct (sub_one_finite m e V H0) as (E & Hz & He). rewrite E.
      apply leb_le_value in H; [|assumption|assumption].
      destruct (2 ^ (- e') - Zpos m') as [|p'|p'] eqn:Ep; [|  |lia].
      { apply leb_zero_pos.
        destruct (2 ^ (- e) - Zpos m) as [|p|p]; [reflexivity| |lia].
        apply binary_round_pos. }
      set (k := Z.min e e').
      assert (Hk : k <= e /\ k <= e') by (unfold k; lia).
      pose proof (le_value_scale m m' e e' k ltac:(lia) ltac:(lia) H) as Hv.
      assert (Hp : 0 < 2 ^ (e - k) /\ 0 < 2 ^ (e' - k))
        by (split; apply Z.pow_pos_nonneg; lia).
      assert (Hs : 2 ^ (- e) * 2 ^ (e - k) = 2 ^ (- e') * 2 ^ (e' - k)).
      { rewrite <- !Z.pow_add_r by lia. f_equal. lia. }
      assert (Hlt : Zpos m' * 2 ^ (e' - k) < 2 ^ (- e') * 2 ^ (e' - k)).
      { apply Z.mul_lt_mono_pos_r; lia. }
      assert (Hm : Zpos m < 2 ^ (- e)).
      { apply (Z.mul_lt_mono_pos_r (2 ^ (e - k))); lia. }
      destruct (2 ^ (- e) - Zpos m) as [|p|p] eqn:Eq; [lia| |lia].
      unfold leb, binary_normalize. apply binary_round_mono.
      unfold le_value. rewrite Z.min_comm. fold k.
      rewrite <- Ep, <- Eq. rewrite !Z.mul_sub_distr_r. lia.
Qed.

(** ** Signs *)

Lemma bra_opp (s : bool) (mx ex : Z) (lx : location) :
  binary_round_aux 53 1024 (negb s) mx ex lx
  = SFopp (binary_round_aux 53 1024 s mx ex lx).
Proof.
  unfold binary_round_aux.
  destruct (shr_fexp 53 1024 mx ex lx) as [mrs' e'].
  destruct (shr_fexp 53 1024 _ e' loc_Exact) as [mrs'' e''].
  destruct (shr_m mrs''); [reflexivity| |reflexivity].
  destruct (e'' <=? 1024 - 53); reflexivity.
Qed.

Lemma opp_involutive (x : number) : opp (opp x) = x.
Proof. destruct x as [[|]|[|]| |[|] m e]; reflexivity. Qed.

Lemma mul_opp_l (x y : number) : mul (opp x) y = opp (mul x y).
Proof.
  destruct x as [s|s| |s m e], y as [s'|s'| |s' m' e'];
    unfold mul, opp; cbn [SFmul SFopp]; try reflexivity;
    try (destruct s, s'; reflexivity).
  replace (xorb (negb s) s') with (negb (xorb s s'))
    by (destruct s, s'; reflexivity).
  apply bra_opp.
Qed.

Lemma mul_comm (x y : number) : mul x y = mul y x.
Proof.
  destruct x as [s|s| |s m e], y as [s'|s'| |s' m' e'];
    unfold mul; cbn [SFmul]; try reflexivity;
    try (destruct s, s'; reflexivity).
  rewrite Pos.mul_comm, Z.add_comm, xorb_comm. reflexivity.
Qed.

Lemma mul_opp_r (x y : number) : mul x (opp y) = opp (mul x y).
Proof. rewrite mul_comm, mul_opp_l, mul_comm. reflexivity. Qed.

Lemma div_opp_l (x y : number) : div (opp x) y = opp (div x y).
Proof.
  destruct x as [s|s| |s m e], y as [s'|s'| |s' m' e'];
    unfold div, opp; cbn [SFdiv SFopp]; try reflexivity;
    try (destruct s, s'; reflexivity).
  destruct (SFdiv_core_binary prec emax (Zpos m) e (Zpos m') e')
    as [[mz ez] lz].
  replace (xorb (negb s) s') with (negb (xorb s s'))
    by (destruct s, s'; reflexivity).
  apply bra_opp.
Qed.

(** [y - x] is [-(x - y)], or both are [+0]. *)
Lemma sub_swap (x y : number) :
  sub y x = opp (sub x y) \/ (sub x y = zero /\ sub y x = zero).
Proof.
  destruct x as [[|]|[|]| |[|] m e], y as [[|]|[|]| |[|] m' e'];
    try (left; reflexivity); try (right; split; reflexivity);
    unfold sub, SFsub, prec, emax; rewrite (Z.min_comm e' e);
    set (A := cond_Zopp _ (Zpos (fst (shl_align m e (Z.min e e')))));
    set (B := cond_Zopp _ (Zpos (fst (shl_align m' e' (Z.min e e')))));
    replace (B - A) with (- (A - B)) by lia;
    destruct (A - B) as [|p|p]; cbn [Z.opp binary_normalize];
    try (right; split; reflexivity); left.
  all: try exact (binary_round_opp false p (Z.min e e')).
  all: exact (binary_round_opp true p (Z.min e e')).
Qed.

(** ** Sums *)

Lemma add_valid (x y : number) :
  valid x = true -> valid y = true -> valid (add x y) = true.
Proof.
  intros V V'.
  destruct x as [[|]|[|]| |s m e], y as [[|]|[|]| |s' m' e'];
    try reflexivity; try assumption.
  unfold add, SFadd, prec, emax.
  destruct (_ + _) as [|p|p]; [reflexivity| |];
    apply binary_round_valid.
Qed.

Lemma mul_self (s : number) :
  valid s = true -> mul s s = S754_nan \/ pos (mul s s) = true.
Proof.
  intros V. destruct s as [[|]|[|]| |[|] m e];
    try (right; reflexivity); try (left; reflexivity);
    right; rewrite mul_finite by assumption; apply binary_round_pos.
Qed.

Lemma opp_round_negative (p : positive) (e : Z) :
  -1074 <= e ->
  SFleb (S754_zero false) (binary_round 53 1024 true p e) = false.
Proof.
  intros He. pose proof (binary_round_opp false p e) as E.
  cbn [negb] in E. rewrite E. clear E.
  pose proof (binary_round_pos p e) as P.
  pose proof (binary_round_nonzero false false p e He) as Z.
  destruct (binary_round 53 1024 false p e) as [[|]|[|]| |[|] m' e'];
    try discriminate P; try reflexivity. contradiction.
Qed.

(** A sum that is not below zero has a clear sign bit, when its first
    term has. *)
Lemma add_pos (x y : number) :
  valid x = true -> valid y = true ->
  x = S754_nan \/ pos x = true ->
  leb zero (add x y) = true -> pos (add x y) = true.
Proof.
  intros V V' [->|P] H; [discriminate H|].
  destruct x as [[|]|[|]| |[|] m e]; try discriminate P;
    destruct y as [[|]|[|]| |[|] m' e']; try discriminate H;
    try reflexivity.
  - revert H. unfold add, SFadd, leb, zero, prec, emax. cbn [cond_Zopp].
    destruct (_ + _) as [|p|p]; cbn [binary_normalize]; intros H;
      [reflexivity|apply binary_round_pos|].
    apply valid_finite in V. apply valid_finite in V'.
    rewrite opp_round_negative in H by lia. discriminate H.
  - revert H. unfold add, SFadd, leb, zero, prec, emax. cbn [cond_Zopp].
    destruct (_ + _) as [|p|p]; cbn [binary_normalize]; intros H;
      [reflexivity|apply binary_round_pos|].
    apply valid_finite in V. apply valid_finite in V'.
    rewrite opp_round_negative in H by lia. discriminate H.
Qed.

Lemma leb_from_pos (a a' : number) :
  pos a = true -> leb a a' = true -> leb zero a' = true.
Proof.
  intros P H.
  destruct a as [[|]|[|]| |[|] m e]; try discriminate P;
    destruct a' as [[|]|[|]| |[|] m' e']; try discriminate H; reflexivity.
Qed.

Lemma sub_self (x : number) : finite x = true -> sub x x = zero.
Proof.
  intros F. destruct x as [[|]|[|]| |s m e]; try discriminate F;
    try reflexivity.
  unfold sub, SFsub. rewrite Z.sub_diag. reflexivity.
Qed.

(** The square of a double between -1 and 1 is finite. *)
Lemma square_finite (c : number) :
  valid c = true -> leb (abs c) one = true ->
  mul c c = zero \/ exists m e, mul c c = S754_finite false m e.
Proof.
  intros V H.
  destruct c as [[|]|[|]| |s m e]; try discriminate H;
    try (left; reflexivity).
  rewrite mul_finite by assumption.
  replace (xorb s s) with false by (destruct s; reflexivity).
  assert (F : finite (binary_round 53 1024 false (m * m) (e + e)) = true).
  { apply binary_round_finite.
    unfold leb, abs, SFabs in H. rewrite one_eq in H.
    apply leb_finite in H. apply valid_finite in V.
    pose proof (digits2_pos_bounds m) as [_ Bu].
    pose proof (digits2_pos_bounds (m * m)) as [Pl _].
    rewrite Pos2Z.inj_mul in Pl.
    assert (Zpos m < 2 ^ 53).
    { apply Z.lt_le_trans with (1 := Bu). apply Z.pow_le_mono_r; lia. }
    assert (Zpos m * Zpos m < 2 ^ 53 * 2 ^ 53) by nia.
    assert (Zpos (digits2_pos (m * m)) - 1 < 106); [|lia].
    apply (Z.pow_lt_mono_r_iff 2); [lia|lia|].
    change (2 ^ 106) with (2 ^ 53 * 2 ^ 53). lia. }
  pose proof (binary_round_pos (m * m) (e + e)) as P.
  destruct (binary_round 53 1024 false (m * m) (e + e))
    as [[|]|[|]| |[|] m' e']; try discriminate P; try discriminate F.
  - left. reflexivity.
  - right. eauto.
Qed.

(** ** The distance *)

Section DistanceFacts.
Import Distance.
Variable M : Math.
Hypothesis HM : lawful M.

Lemma calculateDistance_central (lat1 lon1 lat2 lon2 : number) :
  calculateDistance M lat1 lon1 lat2 lon2
  = central M (haversine M lat1 lon1 lat2 lon2).
Proof. reflexivity. Qed.

Lemma haversine_valid (lat1 lon1 lat2 lon2 : number) :
  valid (haversine M lat1 lon1 lat2 lon2) = true.
Proof.
  unfold haversine. apply add_valid; repeat apply mul_valid;
    solve [apply (sin_valid M HM) | apply (cos_valid M HM)].
Qed.

Lemma haversine_pos (lat1 lon1 lat2 lon2 : number) :
  leb zero (haversine M lat1 lon1 lat2 lon2) = true ->
  pos (haversine M lat1 lon1 lat2 lon2) = true.
Proof.
  unfold haversine. apply add_pos.
  - apply mul_valid; apply (sin_valid M HM).
  - repeat apply mul_valid;
      solve [apply (sin_valid M HM) | apply (cos_valid M HM)].
  - apply mul_self. apply (sin_valid M HM).
Qed.

Lemma leb_below_one (a a' : number) :
  pos a = true -> pos a' = true ->
  leb a a' = true -> leb a' one = true -> leb a one = true.
Proof.
  intros P P' H H1.
  destruct a as [[|]|[|]| |[|] m e]; try discriminate P;
    destruct a' as [[|]|[|]| |[|] m' e']; try discriminate P';
    try discriminate H; try discriminate H1; try reflexivity.
  unfold leb in *. rewrite one_eq in *.
  apply leb_finite in H. apply leb_finite in H1. apply leb_finite. lia.
Qed.

(** The distance grows with the haversine term, as long as that lies
    between 0 and 1. *)
Lemma central_mono (a a' : number) :
  valid a = true -> valid a' = true -> pos a = true -> pos a' = true ->
  leb a a' = true -> leb a' one = true ->
  leb (central M a) (central M a') = true.
Proof.
  intros V V' P P' H H1.
  pose proof (leb_below_one a a' P P' H H1) as H0.
  destruct (sqrt_pos M HM a V P) as [Vy Py].
  destruct (sqrt_pos M HM a' V' P') as [Vy' Py'].
  pose proof (sqrt_mono M HM a a' V V' P P' H) as Hy.
  destruct (sub_one_valid_pos a V P H0) as [Vb Pb].
  destruct (sub_one_valid_pos a' V' P' H1) as [Vb' Pb'].
  pose proof (sub_one_anti a a' V V' P P' H H1) as Hb.
  destruct (sqrt_pos M HM _ Vb Pb) as [Vx Px].
  destruct (sqrt_pos M HM _ Vb' Pb') as [Vx' Px'].
  pose proof (sqrt_mono M HM _ _ Vb' Vb Pb' Pb Hb) as Hx.
  destruct (atan2_pos M HM _ _ Vy Vx Py Px) as [Vt Pt].
  destruct (atan2_pos M HM _ _ Vy' Vx' Py' Px') as [Vt' Pt'].
  pose proof (atan2_mono M HM _ _ _ _ Vy Vy' Vx Vx' Py Py' Px Px' Hy Hx)
    as Ht.
  unfold central. fold one.
  change (literal 2) with (S754_finite false 4503599627370496 (-51)).
  change (literal 6371) with (S754_finite false 7004988580560896 (-40)).
  apply mul_mono_r; try reflexivity.
  - apply mul_valid; [reflexivity|exact Vt].
  - apply mul_valid; [reflexivity|exact Vt'].
  - apply mul_pos_r; [reflexivity|exact Vt|exact Pt].
  - apply mul_pos_r; [reflexivity|exact Vt'|exact Pt'].
  - apply mul_mono_r; try reflexivity; assumption.
Qed.

(** The sine of half a difference in radians, and the same with the two
    points exchanged. *)
Lemma half_swap (x y : number) :
  let h := fun u v =>
    sin M (div (div (mul (sub v u) PI) (literal 180)) (literal 2)) in
  h y x = h x y \/ h y x = opp (h x y).
Proof.
  intros h. unfold h.
  destruct (sub_swap x y) as [E|[E1 E2]].
  - right. rewrite E, mul_opp_l, !div_opp_l, (sin_odd M HM), opp_involutive.
    reflexivity.
  - left. rewrite E1, E2. reflexivity.
Qed.

Lemma square_swap (s s' : number) :
  s' = s \/ s' = opp s ->
  mul s' s' = mul s s
  /\ forall p, mul (mul p s') s' = mul (mul p s) s.
Proof.
  intros [->| ->]; [split; reflexivity|]. split.
  - rewrite mul_opp_l, mul_opp_r. apply opp_involutive.
  - intros p. rewrite !mul_opp_r, mul_opp_l. apply opp_involutive.
Qed.

Lemma haversine_sym (lat1 lon1 lat2 lon2 : number) :
  haversine M lat2 lon2 lat1 lon1 = haversine M lat1 lon1 lat2 lon2.
Proof.
  unfold haversine.
  destruct (square_swap _ _ (half_swap lat1 lat2)) as [-> _].
  destruct (square_swap _ _ (half_swap lon1 lon2)) as [_ ->].
  f_equal. f_equal. f_equal. apply mul_comm.
Qed.

Lemma radians_finite (lat : number) :
  finite (div (mul lat PI) (literal 180)) = true -> finite lat = true.
Proof.
  destruct lat as [s|[|]| |s m e]; try reflexivity;
    intros H; vm_compute in H; discriminate H.
Qed.

Lemma haversine_diag (lat lon : number) :
  finite (div (mul lat PI) (literal 180)) = true -> finite lon = true ->
  haversine M lat lon lat lon = zero.
Proof.
  intros Hr Hl. unfold haversine.
  rewrite (sub_self lat (radians_finite lat Hr)), (sub_self lon Hl).
  change (div (div (mul zero PI) (literal 180)) (literal 2)) with zero.
  rewrite (sin_zero M HM).
  destruct (square_finite _ (cos_valid M HM _) (cos_range M HM _ Hr))
    as [->|(m & e & ->)]; reflexivity.
Qed.

Lemma central_zero : central M zero = zero.
Proof.
  unfold central.
  change (sub (literal 1) zero) with one.
  rewrite (sqrt_zero M HM), (sqrt_one M HM), (atan2_zero M HM).
  reflexivity.
Qed.

End DistanceFacts.

(** The plain functions are lawful. *)
Lemma plain_lawful : Distance.lawful Distance.plain.
Proof.
  assert (Hd : forall x, valid (Distance.double x) = true).
  { intros x. unfold Distance.double. destruct (valid x) eqn:E;
      [exact E|reflexivity]. }
  assert (Hk : forall x, valid x = true -> Distance.double x = x).
  { intros x V. unfold Distance.double. rewrite V. reflexivity. }
  constructor; simpl; try reflexivity; try exact Hd.
  - intros x. unfold Distance.double.
    replace (valid (opp x)) with (valid x)
      by (destruct x as [[|]|[|]| |[|] m e]; reflexivity).
    destruct (valid x); reflexivity.
  - intros x V P. rewrite Hk by exact V. split; assumption.
  - intros x y V V' P P' H. rewrite !Hk by assumption. exact H.
  - intros y x V V' P P'. rewrite Hk by exact V. split; assumption.
  - intros y y' x x' V V' _ _ _ _ _ _ H _. rewrite !Hk by assumption.
    exact H.
Qed.

End Doubles.


